(** * cling::utils::platform (Windows): a shallow embedding of PlatformWin.cpp

    The functions of [interpreter/cling/lib/Utils/PlatformWin.cpp] that
    resolve symbols ([DLOpen], [DLSym]), run a command and capture its
    output ([Popen]), classify an image file ([IsDLL]) and report errors
    ([GetErrorAsString], [ReportError], ...) are written here as functions
    in a state monad over a model of the Win32 kernel objects they touch.
    Everything the operating system decides (which call fails, what the
    child writes, which modules are loaded) is read from an [Env].

    The functions that find Visual Studio and the Windows SDKs
    ([GetSystemRegistryString], [GetVisualStudioDirs],
    [GetSystemLibraryPaths] and their helpers) run in the same way over the
    registry keys the process holds open; what the registry, the
    environment and the file system hold is read from a [Host]. *)

From Stdlib Require Import ZArith NArith Lia Strings.Byte QArith.
From stdpp Require Import base numbers list strings gmap pretty.

Local Open Scope Z_scope.

(** ** Machine-level types

    [HANDLE], [HMODULE] and data pointers are integers; [DWORD] error codes
    are naturals.  [NULL] is 0 and [INVALID_HANDLE_VALUE] is [(HANDLE)-1]. *)

Abbreviation HANDLE := Z.
Abbreviation HMODULE := Z.
Abbreviation pointer := Z.
Abbreviation DWORD := N.

Definition NULL : Z := 0.
Definition nullptr : Z := 0.
Definition INVALID_HANDLE_VALUE : Z := -1.

Definition ERROR_INVALID_HANDLE : N := 6%N.
Definition ERROR_BROKEN_PIPE : N := 109%N.
Definition ERROR_FILE_INVALID : N := 1006%N.

(** The two build targets; [DLSym] is compiled differently under [_WIN64]. *)
Inductive Target := Target32 | Target64.

Definition sizeof_HMODULE (t : Target) : nat :=
  match t with Target32 => 4 | Target64 => 8 end.

(** What a call that may abort the process yields. *)
Inductive Outcome (A : Type) :=
| Returned (a : A)
| Crashed.
Arguments Returned {A} a.
Arguments Crashed {A}.

(** What the operating system answers to a call that may fail: a value, or
    the code [GetLastError] will then report. *)
Inductive Res (A : Type) :=
| Ok (a : A)
| Fails (err : N).
Arguments Ok {A} a.
Arguments Fails {A} err.

(** ** llvm::SmallVector

    A vector is its elements together with its capacity.  [resize] truncates,
    or appends value-initialised elements, growing the capacity the way
    [SmallVectorBase::grow_pod] does (twice the capacity plus one, or the
    requested size when that is larger). *)
Module SmallVector.
Section Vec.
Context {T : Type}.

Record t := mk { elems : list T; capacity : nat }.

Definition size (v : t) : nat := length (elems v).
Definition empty (v : t) : bool :=
  match elems v with [] => true | _ :: _ => false end.

Definition grow (cap n : nat) : nat := Nat.max (2 * cap + 1) n.

Definition resize (zero : T) (n : nat) (v : t) : t :=
  if (n <=? size v)%nat then mk (take n (elems v)) (capacity v)
  else mk (elems v ++ replicate (n - size v) zero)
          (if (n <=? capacity v)%nat then capacity v else grow (capacity v) n).

(** Storing [src] through a raw pointer to element [pos]: the elements
    from [pos] on are overwritten; what falls beyond [size] lands in
    storage that is not part of the vector. *)
Definition store (pos : nat) (src : list T) (v : t) : t :=
  mk (take (size v)
        (take pos (elems v) ++ src ++ drop (pos + length src) (elems v)))
     (capacity v).
End Vec.
Arguments t : clear implicits.
End SmallVector.

(** ** The operating system

    Kernel objects a handle of this process can refer to. *)
Inductive Object :=
| FileObj (content : list byte)
| MappingObj (content : list byte)
| PipeRead
| PipeWrite
| ProcessObj
| ThreadObj.

(** What one [ReadFile] on the read end of the pipe finds: bytes the child
    has written (an empty list is a zero-length write), or a failure. *)
Inductive Delivery :=
| Data (bs : list byte)
| ReadError (err : N).

(** The calls made to the operating system, with what they returned. *)
Inductive Event :=
| EvCreatePipe (res : option (Z * Z))
| EvDuplicateHandle (src : Z) (inherit : bool) (res : option Z)
| EvCloseHandle (h : Z) (ok : bool)
| EvCreateProcess (cmd : string) (hStdOutput hStdError : Z) (ok : bool)
| EvReadFile (h : Z) (len : nat) (res : option (list byte))
| EvCreateFile (path : string) (h : Z)
| EvCreateFileMapping (hFile h : Z)
| EvMapViewOfFile (hMapping : Z) (base : Z)
| EvUnmapViewOfFile (base : Z) (ok : bool)
| EvLoadLibrary (path : string) (h : Z)
| EvEnumProcessModulesEx (cb : nat) (ok : bool)
| EvGetProcAddress (h : Z) (name : string) (addr : Z).

(** Everything the code cannot decide itself.  A child writes finitely
    often and exits: [env_child] is what the pipe delivers, read by read,
    until it is broken. *)
Record Env := {
  env_target : Target;
  (* error reporting *)
  env_FormatMessage : N -> option string;
  (* files *)
  env_CreateFile : string -> Res (list byte);
  env_CreateFileMapping : Res unit;
  env_MapViewOfFile : Res unit;
  (* modules *)
  env_LoadLibrary : string -> Res Z;
  env_modules : nat -> Res (list Z);
  env_GetProcAddress : Z -> string -> Z;
  (* pipes and processes *)
  env_CreatePipe : Res unit;
  env_DuplicateHandle : Z -> bool -> Res unit;
  env_CreateProcess : string -> Res unit;
  env_child : string -> bool -> list Delivery
}.

(** The state of the process as the operating system sees it. *)
Record OS := {
  handles : gmap Z Object;      (* the handle table *)
  views : gmap Z (list byte);   (* mapped views, by base address *)
  last_error : N;               (* GetLastError *)
  errs : string;                (* what was written to llvm::errs() *)
  calls : list Event;           (* system calls, the latest first *)
  incoming : list Delivery;     (* what the pipe will still deliver *)
  enum_calls : nat              (* module enumerations so far *)
}.

Definition with_handles (f : gmap Z Object -> gmap Z Object) (s : OS) : OS :=
  {| handles := f (handles s); views := views s; last_error := last_error s;
     errs := errs s; calls := calls s; incoming := incoming s;
     enum_calls := enum_calls s |}.
Definition with_views (f : gmap Z (list byte) -> gmap Z (list byte)) (s : OS) : OS :=
  {| handles := handles s; views := f (views s); last_error := last_error s;
     errs := errs s; calls := calls s; incoming := incoming s;
     enum_calls := enum_calls s |}.
Definition with_last_error (e : N) (s : OS) : OS :=
  {| handles := handles s; views := views s; last_error := e;
     errs := errs s; calls := calls s; incoming := incoming s;
     enum_calls := enum_calls s |}.
Definition with_errs (f : string -> string) (s : OS) : OS :=
  {| handles := handles s; views := views s; last_error := last_error s;
     errs := f (errs s); calls := calls s; incoming := incoming s;
     enum_calls := enum_calls s |}.
Definition with_call (e : Event) (s : OS) : OS :=
  {| handles := handles s; views := views s; last_error := last_error s;
     errs := errs s; calls := e :: calls s; incoming := incoming s;
     enum_calls := enum_calls s |}.
Definition with_incoming (l : list Delivery) (s : OS) : OS :=
  {| handles := handles s; views := views s; last_error := last_error s;
     errs := errs s; calls := calls s; incoming := l;
     enum_calls := enum_calls s |}.
Definition with_enum_calls (n : nat) (s : OS) : OS :=
  {| handles := handles s; views := views s; last_error := last_error s;
     errs := errs s; calls := calls s; incoming := incoming s;
     enum_calls := n |}.

(** A process that holds no handle and has made no call yet. *)
Definition boot : OS :=
  {| handles := ∅; views := ∅; last_error := 0%N; errs := "";
     calls := []; incoming := []; enum_calls := 0 |}.

(** The state monad the code runs in. *)
Definition M (A : Type) : Type := OS -> A * OS.

Definition ret {A} (a : A) : M A := fun s => (a, s).
Definition bind {A B} (m : M A) (k : A -> M B) : M B :=
  fun s => let (a, s') := m s in k a s'.
Definition get {A} (f : OS -> A) : M A := fun s => (f s, s).
Definition modify (f : OS -> OS) : M unit := fun s => (tt, f s).

Notation "'let!' x ':=' m 'in' k" := (bind m (fun x => k))
  (at level 10, x pattern, m at level 100, k at level 200,
   format "'[v' 'let!'  x  ':='  m  'in' '/' k ']'").
Notation "m '>>' k" := (bind m (fun _ => k))
  (at level 100, k at level 200, right associativity).

Definition when (b : bool) (m : M unit) : M unit := if b then m else ret tt.

(** ** Win32 calls

    Each call reads its verdict from the environment, updates the handle
    table and records itself in [calls]. *)
Module Win32.
Section Calls.
Variable env : Env.

(** A handle (or base address) not in use: above every key in use, hence
    neither [NULL] nor [INVALID_HANDLE_VALUE]. *)
Definition fresh_key {V} (m : gmap Z V) : Z :=
  Z.succ (foldr Z.max 0 (elements (dom m))).

Definition GetLastError : M N := get last_error.

Definition fail {A} (a : A) (err : N) (ev : Event) : M A :=
  fun s => (a, with_call ev (with_last_error err s)).

Definition CloseHandle (h : Z) : M bool :=
  fun s =>
    match handles s !! h with
    | Some _ => (true, with_call (EvCloseHandle h true) (with_handles (delete h) s))
    | None => fail false ERROR_INVALID_HANDLE (EvCloseHandle h false) s
    end.

Definition CreatePipe : M (option (Z * Z)) :=
  fun s =>
    match env_CreatePipe env with
    | Ok _ =>
        let r := fresh_key (handles s) in
        let hs := <[r := PipeRead]> (handles s) in
        let w := fresh_key hs in
        (Some (r, w),
         with_call (EvCreatePipe (Some (r, w)))
           (with_handles (fun _ => <[w := PipeWrite]> hs) s))
    | Fails e => fail None e (EvCreatePipe None) s
    end.

Definition DuplicateHandle (src : Z) (inherit : bool) : M (option Z) :=
  fun s =>
    match handles s !! src with
    | Some o =>
        match env_DuplicateHandle env src inherit with
        | Ok _ =>
            let d := fresh_key (handles s) in
            (Some d,
             with_call (EvDuplicateHandle src inherit (Some d))
               (with_handles <[d := o]> s))
        | Fails e => fail None e (EvDuplicateHandle src inherit None) s
        end
    | None => fail None ERROR_INVALID_HANDLE (EvDuplicateHandle src inherit None) s
    end.

(** [CreateProcessA] with [STARTF_USESTDHANDLES]: on success the process and
    thread handles of [PROCESS_INFORMATION] are returned, and the pipe will
    deliver what the child writes. *)
Definition CreateProcessA (cmd : string) (hStdOutput hStdError : Z)
  : M (option (Z * Z)) :=
  fun s =>
    match env_CreateProcess env cmd with
    | Ok _ =>
        let p := fresh_key (handles s) in
        let hs := <[p := ProcessObj]> (handles s) in
        let t := fresh_key hs in
        (Some (p, t),
         with_call (EvCreateProcess cmd hStdOutput hStdError true)
           (with_incoming (env_child env cmd (negb (hStdError =? NULL)))
              (with_handles (fun _ => <[t := ThreadObj]> hs) s)))
    | Fails e => fail None e (EvCreateProcess cmd hStdOutput hStdError false) s
    end.

(** [ReadFile] on the read end of the pipe, asking for [len] bytes: [Some bs]
    is [TRUE] with [dwRead = length bs]; [None] is [FALSE].  Once the child
    has exited and every write end is closed, the call fails with
    [ERROR_BROKEN_PIPE]. *)
Definition ReadFile (h : Z) (len : nat) : M (option (list byte)) :=
  fun s =>
    match handles s !! h with
    | Some PipeRead =>
        match incoming s with
        | [] => fail None ERROR_BROKEN_PIPE (EvReadFile h len None) s
        | Data bs :: rest =>
            if (length bs <=? len)%nat then
              (Some bs, with_call (EvReadFile h len (Some bs)) (with_incoming rest s))
            else
              (Some (take len bs),
               with_call (EvReadFile h len (Some (take len bs)))
                 (with_incoming (Data (drop len bs) :: rest) s))
        | ReadError e :: rest =>
            fail None e (EvReadFile h len None) (with_incoming rest s)
        end
    | _ => fail None ERROR_INVALID_HANDLE (EvReadFile h len None) s
    end.

Definition CreateFileA (path : string) : M Z :=
  fun s =>
    match env_CreateFile env path with
    | Ok content =>
        let h := fresh_key (handles s) in
        (h, with_call (EvCreateFile path h) (with_handles <[h := FileObj content]> s))
    | Fails e => fail INVALID_HANDLE_VALUE e (EvCreateFile path INVALID_HANDLE_VALUE) s
    end.

(** [CreateFileMapping] returns [NULL] when it fails; a file of length zero
    cannot be mapped ([ERROR_FILE_INVALID]). *)
Definition CreateFileMapping (hFile : Z) : M Z :=
  fun s =>
    match handles s !! hFile with
    | Some (FileObj content) =>
        match content, env_CreateFileMapping env with
        | [], _ => fail NULL ERROR_FILE_INVALID (EvCreateFileMapping hFile NULL) s
        | _ :: _, Ok _ =>
            let h := fresh_key (handles s) in
            (h, with_call (EvCreateFileMapping hFile h)
                  (with_handles <[h := MappingObj content]> s))
        | _ :: _, Fails e => fail NULL e (EvCreateFileMapping hFile NULL) s
        end
    | _ => fail NULL ERROR_INVALID_HANDLE (EvCreateFileMapping hFile NULL) s
    end.

Definition MapViewOfFile (hMapping : Z) : M Z :=
  fun s =>
    match handles s !! hMapping with
    | Some (MappingObj content) =>
        match env_MapViewOfFile env with
        | Ok _ =>
            let base := fresh_key (views s) in
            (base, with_call (EvMapViewOfFile hMapping base)
                     (with_views <[base := content]> s))
        | Fails e => fail NULL e (EvMapViewOfFile hMapping NULL) s
        end
    | _ => fail NULL ERROR_INVALID_HANDLE (EvMapViewOfFile hMapping NULL) s
    end.

Definition UnmapViewOfFile (base : Z) : M bool :=
  fun s =>
    match views s !! base with
    | Some _ => (true, with_call (EvUnmapViewOfFile base true) (with_views (delete base) s))
    | None => fail false 487%N (EvUnmapViewOfFile base false) s
    end.

Definition LoadLibraryA (path : string) : M Z :=
  fun s =>
    match env_LoadLibrary env path with
    | Ok h => (h, with_call (EvLoadLibrary path h) s)
    | Fails e => fail NULL e (EvLoadLibrary path NULL) s
    end.

(** [EnumProcessModulesEx] on a buffer of [cb] bytes: the handles that fit
    are stored from the start of the buffer, and the number of bytes needed
    for all of them is reported. *)
Definition EnumProcessModulesEx (buf : SmallVector.t Z) (cb : nat)
  : M (option (SmallVector.t Z * nat)) :=
  fun s =>
    let sz := sizeof_HMODULE (env_target env) in
    match env_modules env (enum_calls s) with
    | Ok mods =>
        (Some (SmallVector.store 0 (take (cb / sz) mods) buf, (sz * length mods)%nat),
         with_call (EvEnumProcessModulesEx cb true)
           (with_enum_calls (S (enum_calls s)) s))
    | Fails e =>
        fail None e (EvEnumProcessModulesEx cb false)
          (with_enum_calls (S (enum_calls s)) s)
    end.

Definition GetProcAddress (h : Z) (name : string) : M Z :=
  fun s =>
    let addr := env_GetProcAddress env h name in
    if addr =? 0 then fail 0 127%N (EvGetProcAddress h name 0) s
    else (addr, with_call (EvGetProcAddress h name addr) s).

End Calls.
End Win32.

(** ** Image headers (winnt.h)

    A mapped view is readable up to the end of its last page, the bytes after
    the end of the file reading as zero; an access outside the view is an
    access violation ([None]).  Multi-byte fields are little-endian. *)
Definition PAGE_SIZE : nat := 4096.

Definition view_size (content : list byte) : nat :=
  PAGE_SIZE * ((length content + PAGE_SIZE - 1) / PAGE_SIZE).

Definition load8 (view : list byte) (off : Z) : option Z :=
  if (0 <=? off) && (off <? Z.of_nat (view_size view)) then
    Some (from_option (fun b => Z.of_N (Byte.to_N b)) 0 (view !! Z.to_nat off))
  else None.

Definition load16 (view : list byte) (off : Z) : option Z :=
  b0 ← load8 view off;
  b1 ← load8 view (off + 1);
  Some (Z.lor b0 (Z.shiftl b1 8)).

Definition load32 (view : list byte) (off : Z) : option Z :=
  lo ← load16 view off;
  hi ← load16 view (off + 2);
  Some (Z.lor lo (Z.shiftl hi 16)).

(** A [LONG] read from a 32-bit field. *)
Definition to_LONG (v : Z) : Z := if v <? 2 ^ 31 then v else v - 2 ^ 32.

Definition IMAGE_DOS_SIGNATURE : Z := 0x5A4D.
Definition IMAGE_NT_SIGNATURE : Z := 0x00004550.
Definition IMAGE_FILE_DLL : Z := 0x2000.
(** [offsetof(IMAGE_DOS_HEADER, e_lfanew)] and
    [offsetof(IMAGE_NT_HEADERS, FileHeader.Characteristics)]. *)
Definition e_lfanew_offset : Z := 60.
Definition Characteristics_offset : Z := 22.

(** [llvm::StringRef::rtrim()]: drop trailing blanks, tabs and line ends. *)
Definition is_space (c : Ascii.ascii) : bool :=
  let n := Ascii.nat_of_ascii c in
  ((n =? 32) || ((9 <=? n) && (n <=? 13)))%nat.

Fixpoint rtrim (s : string) : string :=
  match s with
  | EmptyString => EmptyString
  | String c r =>
      match rtrim r with
      | EmptyString => if is_space c then EmptyString else String c EmptyString
      | r' => String c r'
      end
  end.

Definition endl : string := String (Ascii.ascii_of_nat 10) EmptyString.

(** ** namespace cling::utils::platform *)
Module platform.
Section Platform.
Variable env : Env.

Definition GetErrorAsString (Err : N) (ErrStr : string) (Prefix : option string)
  : string :=
  let Strm :=
    match Prefix with
    | Some P => ErrStr +:+ P +:+ ": returned " +:+ pretty Err +:+ " "
    | None => ErrStr
    end in
  match env_FormatMessage env Err with
  | Some (String c m) => rtrim (Strm +:+ String c m)
  | _ => Strm
  end.

Definition ReportError (Err : N) (Prefix : option string) : M unit :=
  let Message := GetErrorAsString Err "" Prefix in
  modify (with_errs (fun out => out +:+ pretty Err +:+ endl)).

Definition GetLastErrorAsString (ErrStr : string) (Prefix : option string)
  : M (bool * string) :=
  let! Err := Win32.GetLastError in
  if (Err =? 0)%N then ret (false, ErrStr)
  else ret (true, GetErrorAsString Err ErrStr Prefix).

Definition ReportLastError (Prefix : option string) : M bool :=
  let! Err := Win32.GetLastError in
  if (Err =? 0)%N then ret false
  else ReportError Err Prefix >> ret true.

(** Reading the headers through [lpFileBase]. *)
Definition inspect_headers (view : list byte) : option bool :=
  e_magic ← load16 view 0;
  if e_magic =? IMAGE_DOS_SIGNATURE then
    e_lfanew ← to_LONG <$> load32 view e_lfanew_offset;
    Signature ← load32 view e_lfanew;
    if Signature =? IMAGE_NT_SIGNATURE then
      Characteristics ← load16 view (e_lfanew + Characteristics_offset);
      Some (negb (Z.land Characteristics IMAGE_FILE_DLL =? 0))
    else Some false
  else Some false.

Definition IsDLL (Path : string) : M (Outcome bool) :=
  let! hFile := Win32.CreateFileA env Path in
  if hFile =? INVALID_HANDLE_VALUE then
    ReportLastError (Some "CreateFile") >> ret (Returned false)
  else
    let! hFileMapping := Win32.CreateFileMapping env hFile in
    if hFileMapping =? INVALID_HANDLE_VALUE then
      ReportLastError (Some "CreateFileMapping") >>
      Win32.CloseHandle hFile >> ret (Returned false)
    else
      let! lpFileBase := Win32.MapViewOfFile env hFileMapping in
      if lpFileBase =? NULL then
        ReportLastError (Some "CreateFileMapping") >>
        Win32.CloseHandle hFileMapping >>
        Win32.CloseHandle hFile >> ret (Returned false)
      else
        let! view := get (fun s => views s !! lpFileBase) in
        match view ≫= inspect_headers with
        | None => ret Crashed
        | Some isDLL =>
            Win32.UnmapViewOfFile lpFileBase >>
            Win32.CloseHandle hFileMapping >>
            Win32.CloseHandle hFile >> ret (Returned isDLL)
        end.

Definition DLOpen (Path : string) (Err : option string) : M (Z * option string) :=
  let! dyLibHandle := Win32.LoadLibraryA env Path in
  match Err with
  | Some ErrStr =>
      if dyLibHandle =? NULL then
        let! r := GetLastErrorAsString ErrStr (Some "LoadLibrary") in
        ret (dyLibHandle, Some (snd r))
      else ret (dyLibHandle, Err)
  | None => ret (dyLibHandle, Err)
  end.

(** [if (Err) GetLastErrorAsString( *Err, Prefix)]. *)
Definition note_last_error (Err : option string) (Prefix : string)
  : M (option string) :=
  match Err with
  | Some ErrStr =>
      let! r := GetLastErrorAsString ErrStr (Some Prefix) in ret (Some (snd r))
  | None => ret None
  end.

(** [for (auto It = Modules.rbegin(); It < End; ++It)], on the handles in
    the order the iterator visits them. *)
Fixpoint search_reverse (Its : list Z) (Name : string) : M (option Z) :=
  match Its with
  | [] => ret None
  | It :: rest =>
      let! Addr := Win32.GetProcAddress env It Name in
      if Addr =? nullptr then search_reverse rest Name else ret (Some Addr)
  end.

(** [for (DWORD i = NumNeeded-1; i > NumFirst; --i)], from [i] down. *)
Fixpoint search_down (Modules : SmallVector.t Z) (Name : string)
    (NumFirst i : nat) : M (Outcome (option Z)) :=
  match i with
  | O => ret (Returned None)
  | S i' =>
      if (NumFirst <? i)%nat then
        match SmallVector.elems Modules !! i with
        | None => ret Crashed
        | Some h =>
            let! Addr := Win32.GetProcAddress env h Name in
            if Addr =? nullptr then search_down Modules Name NumFirst i'
            else ret (Returned (Some Addr))
        end
      else ret (Returned None)
  end.

Definition Modules_inline : nat := 128.

Definition DLSym (Name : string) (Err : option string)
  : M (Outcome Z * option string) :=
  let sz := sizeof_HMODULE (env_target env) in
  let Modules := SmallVector.mk [] Modules_inline in
  let Modules := SmallVector.resize NULL (SmallVector.capacity Modules) Modules in
  let! r := Win32.EnumProcessModulesEx env Modules
              (SmallVector.capacity Modules * sz) in
  match r with
  | Some (Modules, Bytes) =>
      let NumNeeded := (Bytes / sz)%nat in
      let NumFirst := SmallVector.size Modules in
      let Modules :=
        if (NumNeeded <? NumFirst)%nat
        then SmallVector.resize NULL NumNeeded Modules else Modules in
      let! found := search_reverse (reverse (SmallVector.elems Modules)) Name in
      match found with
      | Some Addr => ret (Returned Addr, Err)
      | None =>
          if (NumFirst <? NumNeeded)%nat then
            let Modules := SmallVector.resize NULL NumNeeded Modules in
            let! r := Win32.EnumProcessModulesEx env Modules
                        (SmallVector.capacity Modules * sz) in
            match r with
            | Some (Modules, _) =>
                let! found := search_down Modules Name NumFirst (NumNeeded - 1) in
                match found with
                | Returned (Some Addr) => ret (Returned Addr, Err)
                | Returned None => ret (Returned nullptr, Err)
                | Crashed => ret (Crashed, Err)
                end
            | None =>
                let! Err := note_last_error Err "EnumProcessModulesEx" in
                ret (Returned nullptr, Err)
            end
          else ret (Returned nullptr, Err)
      end
  | None =>
      let! Err := note_last_error Err "EnumProcessModulesEx" in
      ret (Returned nullptr, Err)
  end.

(** The file-local [CloseHandle], which reports a failure to close. *)
Definition CloseHandle (H : Z) : M unit :=
  let! ok := Win32.CloseHandle H in
  if ok then ret tt else ReportLastError (Some "CloseHandle") >> ret tt.

(** A bound on the number of reads the pipe can still answer with data. *)
Definition pipe_weight (l : list Delivery) : nat :=
  sum_list_with
    (fun d => match d with Data bs => S (length bs) | ReadError _ => 1%nat end) l.

(** The [while (true)] loop of [Popen]; [None] when it is still running
    after [fuel] reads. *)
Fixpoint read_loop (fuel : nat) (hOutputRead : Z) (Chunk : nat)
    (Buf : SmallVector.t byte) : M (option (SmallVector.t byte)) :=
  match fuel with
  | O => ret None
  | S fuel' =>
      let Len := SmallVector.size Buf in
      let Buf := SmallVector.resize x00 (Len + Chunk) Buf in
      let! Result := Win32.ReadFile hOutputRead Chunk in
      let Buf := SmallVector.store Len (default [] Result) Buf in
      let dwRead := length (default [] Result) in
      if negb (bool_decide (is_Some Result)) || (dwRead =? 0)%nat then
        let! Err := Win32.GetLastError in
        when (negb (Err =? ERROR_BROKEN_PIPE)%N) (ReportError Err (Some "ReadFile")) >>
        ret (Some (SmallVector.resize x00 Len Buf))
      else
        let Buf :=
          if (dwRead <? Chunk)%nat
          then SmallVector.resize x00 (Len + dwRead) Buf else Buf in
        read_loop fuel' hOutputRead Chunk Buf
  end.

Definition Popen (Cmd : string) (Buf : SmallVector.t byte) (RdE : bool)
  : M (option (bool * SmallVector.t byte)) :=
  let Buf := SmallVector.resize x00 0 Buf in
  let! pipe := Win32.CreatePipe env in
  match pipe with
  | None => ret (Some (false, Buf))
  | Some (hOutputReadTmp, hOutputWrite) =>
      let! dupE :=
        if RdE then Win32.DuplicateHandle env hOutputWrite true
        else ret (Some NULL) in
      match dupE with
      | None =>
          ReportLastError (Some "DuplicateHandle") >>
          Win32.CloseHandle hOutputReadTmp >>
          Win32.CloseHandle hOutputWrite >>
          ret (Some (false, Buf))
      | Some hErrorWrite =>
          let! dupR := Win32.DuplicateHandle env hOutputReadTmp false in
          match dupR with
          | None =>
              ReportLastError (Some "DuplicateHandle") >>
              Win32.CloseHandle hOutputReadTmp >>
              Win32.CloseHandle hOutputWrite >>
              (if RdE then Win32.CloseHandle hErrorWrite >> ret tt else ret tt) >>
              ret (Some (false, Buf))
          | Some hOutputRead =>
              CloseHandle hOutputReadTmp >>
              let! pi := Win32.CreateProcessA env Cmd hOutputWrite
                           (if RdE then hErrorWrite else NULL) in
              let! Err := Win32.GetLastError in
              CloseHandle hOutputWrite >>
              when RdE (CloseHandle hErrorWrite) >>
              let! out :=
                match pi with
                | Some (hProcess, hThread) =>
                    let Chunk := SmallVector.capacity Buf in
                    (* more reads than the pipe can answer: never exhausted *)
                    let! fuel := get (fun s => S (pipe_weight (incoming s))) in
                    let! out := read_loop fuel hOutputRead Chunk Buf in
                    CloseHandle hProcess >>
                    CloseHandle hThread >>
                    ret out
                | None =>
                    ReportError Err (Some "CreateProcess") >> ret (Some Buf)
                end in
              CloseHandle hOutputRead >>
              ret ((fun Buf => (negb (SmallVector.empty Buf), Buf)) <$> out)
          end
      end
  end.

End Platform.
End platform.

(** ** Sample environments *)

Definition CRLF : string := String (Ascii.ascii_of_nat 13) endl.

(** The system's texts for [ERROR_FILE_NOT_FOUND] and [ERROR_MOD_NOT_FOUND],
    as [FormatMessage] returns them. *)
Definition system_message (e : N) : option string :=
  if (e =? 2)%N then Some ("The system cannot find the file specified." +:+ CRLF)
  else if (e =? 126)%N then Some ("The specified module could not be found." +:+ CRLF)
  else None.

(** [quiet] is a 64-bit process in which pipes, duplicates and children can
    be created, no file can be opened, no library or module is loaded and
    children write nothing; the other environments change one field of it. *)
Definition quiet : Env :=
  {| env_target := Target64;
     env_FormatMessage := system_message;
     env_CreateFile := fun _ => Fails 2%N;
     env_CreateFileMapping := Ok tt;
     env_MapViewOfFile := Ok tt;
     env_LoadLibrary := fun _ => Fails 126%N;
     env_modules := fun _ => Ok [];
     env_GetProcAddress := fun _ _ => nullptr;
     env_CreatePipe := Ok tt;
     env_DuplicateHandle := fun _ _ => Ok tt;
     env_CreateProcess := fun _ => Ok tt;
     env_child := fun _ _ => [] |}.

(** [n] modules, loaded in the order of their handles [1000], [1001], ...,
    whose exports are given by [exports]. *)
Definition loaded (n : nat) (exports : Z -> string -> Z) : Env :=
  {| env_target := env_target quiet;
     env_FormatMessage := env_FormatMessage quiet;
     env_CreateFile := env_CreateFile quiet;
     env_CreateFileMapping := env_CreateFileMapping quiet;
     env_MapViewOfFile := env_MapViewOfFile quiet;
     env_LoadLibrary := env_LoadLibrary quiet;
     env_modules := fun _ => Ok ((fun i => 1000 + Z.of_nat i) <$> seq 0 n);
     env_GetProcAddress := exports;
     env_CreatePipe := env_CreatePipe quiet;
     env_DuplicateHandle := env_DuplicateHandle quiet;
     env_CreateProcess := env_CreateProcess quiet;
     env_child := env_child quiet |}.

(** Two modules export ["S"]: the fourth one loaded, at address [77], and the
    last of 130, at address [88]. *)
Definition exports_twice (h : Z) (name : string) : Z :=
  if bool_decide (name = "S") then
    if h =? 1003 then 77 else if h =? 1129 then 88 else nullptr
  else nullptr.

(** Only the module at index 128 exports ["S"]. *)
Definition exports_at_128 (h : Z) (name : string) : Z :=
  if bool_decide (name = "S") && (h =? 1128) then 88 else nullptr.

(** The calls a computation makes from [boot], the earliest first. *)
Definition trace_of {A} (m : M A) : list Event := reverse (calls (m boot).2).

Definition is_enumeration (e : Event) : bool :=
  match e with EvEnumProcessModulesEx _ _ => true | _ => false end.

Definition searched (e : Event) : option Z :=
  match e with EvGetProcAddress h _ _ => Some h | _ => None end.

(** The first handle of [Its] that exports [Name], as an address. *)
Fixpoint first_export (env : Env) (Name : string) (Its : list Z) : option Z :=
  match Its with
  | [] => None
  | h :: rest =>
      if env_GetProcAddress env h Name =? nullptr
      then first_export env Name rest
      else Some (env_GetProcAddress env h Name)
  end.

(** ** What the runner is expected to capture

    [received l] is what the reads return before the loop stops: the data
    up to the first zero-length write or failed read.  [written l] is
    everything the child wrote. *)
Fixpoint received (l : list Delivery) : list byte :=
  match l with
  | Data (b :: bs) :: rest => (b :: bs) ++ received rest
  | _ => []
  end.


(** With a zero-byte chunk nothing can be read at all. *)
Definition captured (Chunk : nat) (l : list Delivery) : list byte :=
  if (Chunk =? 0)%nat then [] else received l.


(** The loop condition [!Result || !dwRead]. *)
Definition stopped (r : option (list byte)) : bool :=
  negb (bool_decide (is_Some r)) || (length (default [] r) =? 0)%nat.

Definition is_ReadFile (e : Event) : bool :=
  match e with EvReadFile _ _ _ => true | _ => false end.

(** The bytes a call handed to the caller: those a [ReadFile] returned. *)
Definition read_data (e : Event) : list byte :=
  match e with EvReadFile _ _ r => default [] r | _ => [] end.

(** A call that reports a failure to set up the pipe or the child. *)
Definition is_setup_failure (e : Event) : bool :=
  match e with
  | EvCreatePipe None => true
  | EvDuplicateHandle _ _ None => true
  | EvCreateProcess _ _ _ false => true
  | _ => false
  end.

(** ** The paths through [Popen]

    The calls of one run, the earliest first, and the bytes it returns.
    [R], [W] are the ends of the pipe, [E] the duplicate of [W] for the
    child's standard error, [R'] the parent's own read end, [P] and [T] the
    process and thread handles. *)
Definition dup_stderr (RdE : bool) (W E : Z) : list Event :=
  if RdE then [EvDuplicateHandle W true (Some E)] else [].

Definition close_stderr (RdE : bool) (E : Z) : list Event :=
  if RdE then [EvCloseHandle E true] else [].

Inductive PopenPath (env : Env) (Cmd : string) (RdE : bool) (Chunk : nat)
  : list Event -> list byte -> Prop :=
| path_no_pipe e :
    env_CreatePipe env = Fails e ->
    PopenPath env Cmd RdE Chunk [EvCreatePipe None] []
| path_no_stderr R W e :
    RdE = true ->
    env_DuplicateHandle env W true = Fails e ->
    PopenPath env Cmd RdE Chunk
      [EvCreatePipe (Some (R, W)); EvDuplicateHandle W true None;
       EvCloseHandle R true; EvCloseHandle W true] []
| path_no_read_end R W E e :
    env_DuplicateHandle env R false = Fails e ->
    PopenPath env Cmd RdE Chunk
      (EvCreatePipe (Some (R, W)) :: dup_stderr RdE W E ++
       [EvDuplicateHandle R false None; EvCloseHandle R true;
        EvCloseHandle W true] ++ close_stderr RdE E) []
| path_no_child R W E R' e :
    env_CreateProcess env Cmd = Fails e ->
    PopenPath env Cmd RdE Chunk
      (EvCreatePipe (Some (R, W)) :: dup_stderr RdE W E ++
       [EvDuplicateHandle R false (Some R'); EvCloseHandle R true;
        EvCreateProcess Cmd W (if RdE then E else NULL) false;
        EvCloseHandle W true] ++ close_stderr RdE E ++
       [EvCloseHandle R' true]) []
| path_child R W E R' P T reads u :
    env_CreateProcess env Cmd = Ok u ->
    Forall is_ReadFile reads ->
    PopenPath env Cmd RdE Chunk
      (EvCreatePipe (Some (R, W)) :: dup_stderr RdE W E ++
       [EvDuplicateHandle R false (Some R'); EvCloseHandle R true;
        EvCreateProcess Cmd W (if RdE then E else NULL) true;
        EvCloseHandle W true] ++ close_stderr RdE E ++ reads ++
       [EvCloseHandle P true; EvCloseHandle T true; EvCloseHandle R' true])
      (captured Chunk (env_child env Cmd RdE)).

(** ** What [IsDLL] computes

    Handles are positive in a well-formed handle table. *)
Definition valid_handles (s : OS) : Prop :=
  forall k, is_Some (handles s !! k) -> 0 < k.

Definition classify (env : Env) (Path : string) : Outcome bool :=
  match env_CreateFile env Path with
  | Fails _ => Returned false
  | Ok content =>
      match content, env_CreateFileMapping env, env_MapViewOfFile env with
      | _ :: _, Ok _, Ok _ =>
          match platform.inspect_headers content with
          | Some isDLL => Returned isDLL
          | None => Crashed
          end
      | _, _, _ => Returned false
      end
  end.

(** ** More sample environments *)

(** [quiet], with every command writing [out] to the pipe. *)
Definition talking (out : list Delivery) : Env :=
  {| env_target := env_target quiet;
     env_FormatMessage := env_FormatMessage quiet;
     env_CreateFile := env_CreateFile quiet;
     env_CreateFileMapping := env_CreateFileMapping quiet;
     env_MapViewOfFile := env_MapViewOfFile quiet;
     env_LoadLibrary := env_LoadLibrary quiet;
     env_modules := env_modules quiet;
     env_GetProcAddress := env_GetProcAddress quiet;
     env_CreatePipe := env_CreatePipe quiet;
     env_DuplicateHandle := env_DuplicateHandle quiet;
     env_CreateProcess := env_CreateProcess quiet;
     env_child := fun _ _ => out |}.

(** [quiet], with no process to be created. *)
Definition no_spawn : Env :=
  {| env_target := env_target quiet;
     env_FormatMessage := env_FormatMessage quiet;
     env_CreateFile := env_CreateFile quiet;
     env_CreateFileMapping := env_CreateFileMapping quiet;
     env_MapViewOfFile := env_MapViewOfFile quiet;
     env_LoadLibrary := env_LoadLibrary quiet;
     env_modules := env_modules quiet;
     env_GetProcAddress := env_GetProcAddress quiet;
     env_CreatePipe := env_CreatePipe quiet;
     env_DuplicateHandle := env_DuplicateHandle quiet;
     env_CreateProcess := fun _ => Fails 2%N;
     env_child := env_child quiet |}.

(** [quiet], with every path naming a file of the given content. *)
Definition with_file (content : list byte) : Env :=
  {| env_target := env_target quiet;
     env_FormatMessage := env_FormatMessage quiet;
     env_CreateFile := fun _ => Ok content;
     env_CreateFileMapping := env_CreateFileMapping quiet;
     env_MapViewOfFile := env_MapViewOfFile quiet;
     env_LoadLibrary := env_LoadLibrary quiet;
     env_modules := env_modules quiet;
     env_GetProcAddress := env_GetProcAddress quiet;
     env_CreatePipe := env_CreatePipe quiet;
     env_DuplicateHandle := env_DuplicateHandle quiet;
     env_CreateProcess := env_CreateProcess quiet;
     env_child := env_child quiet |}.

(** Sixty-four bytes: the magic number [MZ], and an [e_lfanew] of
    [0x00100000], a megabyte past the start of the view. *)
Definition stray_header : list byte :=
  [x4d; x5a] ++ replicate 58 x00 ++ [x00; x00; x10; x00].

(** A well-formed DLL header: [MZ], [e_lfanew = 64], [PE\0\0], and
    [IMAGE_FILE_DLL] set in the characteristics. *)
Definition dll_header : list byte :=
  [x4d; x5a] ++ replicate 58 x00 ++ [x40; x00; x00; x00]
  ++ [x50; x45; x00; x00] ++ replicate 18 x00 ++ [x02; x20].



(** Ten bytes written at once, then one more. *)
Definition eleven_bytes : list Delivery :=
  [Data [x30; x31; x32; x33; x34; x35; x36; x37; x38; x39]; Data [x0a]].

(** ** Strings

    [std::string], and the functions of [<cstring>] and [<cctype>] the file
    calls.  A [const char*] is the text before its terminating NUL; a
    pointer into it is an offset, or the text from there on. *)
Module Str.

Definition empty (s : string) : bool :=
  match s with EmptyString => true | String _ _ => false end.

Fixpoint back (s : string) : option Ascii.ascii :=
  match s with
  | EmptyString => None
  | String c r => match r with EmptyString => Some c | String _ _ => back r end
  end.

Fixpoint pop_back (s : string) : string :=
  match s with
  | EmptyString => EmptyString
  | String c r =>
      match r with EmptyString => EmptyString | String _ _ => String c (pop_back r) end
  end.

(** [std::string(p, p + n)] and [p + n]. *)
Fixpoint take (n : nat) (s : string) : string :=
  match n, s with
  | S n', String c r => String c (take n' r)
  | _, _ => EmptyString
  end.

Fixpoint drop (n : nat) (s : string) : string :=
  match n, s with
  | S n', String _ r => drop n' r
  | _, _ => s
  end.

(** [s.c_str()] read as a C string: the text before the first NUL. *)
Fixpoint c_str (s : string) : string :=
  match s with
  | EmptyString => EmptyString
  | String c r => if Ascii.eqb c Ascii.zero then EmptyString else String c (c_str r)
  end.

(** [strncmp(a, b, n) == 0]. *)
Fixpoint strncmp (a b : string) (n : nat) {struct n} : bool :=
  match n with
  | O => true
  | S n' =>
      match a, b with
      | EmptyString, EmptyString => true
      | String x a', String y b' => Ascii.eqb x y && strncmp a' b' n'
      | _, _ => false
      end
  end.

(** Whether [Sub] is found at the very start of [s]. *)
Fixpoint starts_with (Sub s : string) : bool :=
  match Sub, s with
  | EmptyString, _ => true
  | String x Sub', String y s' => Ascii.eqb x y && starts_with Sub' s'
  | String _ _, EmptyString => false
  end.

(** [strstr(Value, Sub)]: the offset of the first occurrence, if any. *)
Fixpoint strstr (Value Sub : string) : option nat :=
  if starts_with Sub Value then Some O
  else
    match Value with
    | EmptyString => None
    | String _ r => S <$> strstr r Sub
    end.

(** [isdigit(c)] for a [char] [c]: the argument has to be representable as
    an [unsigned char]; on a byte above 127, a negative [char], the call is
    undefined ([None]). *)
Definition isdigit (c : Ascii.ascii) : option bool :=
  let n := Ascii.nat_of_ascii c in
  if (n <? 128)%nat then Some ((48 <=? n) && (n <=? 57))%nat else None.

End Str.

Definition kSep : Ascii.ascii := Ascii.ascii_of_nat 92.
Definition MAX_PATHC : nat := 261.

(** ** The registry, the environment and the file system

    A registry key is named by one of the predefined roots and the sub-key
    names given to [RegOpenKeyExA] on the way to it. *)
Inductive HKEY_root :=
| HKEY_CLASSES_ROOT
| HKEY_USERS
| HKEY_LOCAL_MACHINE
| HKEY_CURRENT_USER.

Definition RegPath : Type := HKEY_root * list (option string).

#[global] Instance HKEY_root_eq_dec : EqDecision HKEY_root.
Proof. solve_decision. Defined.

(** A key handle: a predefined one, or one [RegOpenKeyExA] returned. *)
Inductive HKEY :=
| Predefined (r : HKEY_root)
| Opened (h : Z).

Definition ERROR_SUCCESS : N := 0%N.
Definition ERROR_MORE_DATA : N := 234%N.
Definition ERROR_NO_MORE_ITEMS : N := 259%N.
Definition REG_SZ : N := 1%N.
Definition S_OK : Z := 0.
Definition CSIDL_FLAG_CREATE : Z := 0x8000.
Definition CSIDL_SYSTEM : Z := 0x25.
Definition CSIDL_WINDOWS : Z := 0x24.

(** What the machine the process runs on, and the libraries the file calls,
    decide.  Wide strings are lists of 16-bit units.  [host_strtod] is the
    [double] that [strtod] parses, as a rational: only the order of these
    values is looked at. *)
Record Host := {
  host_MSC_VER : Z;                                  (* _MSC_VER *)
  host_getenv : string -> option string;
  host_SHGetFolderPath : Z -> Z * string;            (* the HRESULT, and Buf *)
  (* llvm::sys::fs and llvm::sys::path *)
  host_directory : string -> list string;            (* the entries' paths *)
  host_is_directory : string -> bool;
  host_path_append : string -> string -> string;
  host_path_filename : string -> string;
  (* llvm/Support/ConvertUTF.h *)
  host_ConvertUTF8toWide : string -> option (list N);
  host_convertWideToUTF8 : list N -> bool * string;
  host_strtod : string -> Q;
  (* the registry *)
  host_RegOpenKey : RegPath -> Res unit;
  host_RegEnumKey : RegPath -> list string;          (* the sub-keys, by index *)
  host_RegQuerySize : RegPath -> list N -> Res (N * N);  (* type, bytes *)
  host_RegQueryData : RegPath -> list N -> Res (list N)
}.

(** The process, and the registry keys it holds open. *)
Record Sys := {
  os : OS;
  keys : gmap Z RegPath
}.

Definition with_os (f : OS -> OS) (s : Sys) : Sys :=
  {| os := f (os s); keys := keys s |}.
Definition with_keys (f : gmap Z RegPath -> gmap Z RegPath) (s : Sys) : Sys :=
  {| os := os s; keys := f (keys s) |}.

Definition start : Sys := {| os := boot; keys := ∅ |}.

Definition MS (A : Type) : Type := Sys -> A * Sys.

Definition retS {A} (a : A) : MS A := fun s => (a, s).
Definition bindS {A B} (m : MS A) (k : A -> MS B) : MS B :=
  fun s => let (a, s') := m s in k a s'.
(** A computation on the process alone. *)
Definition in_os {A} (m : M A) : MS A :=
  fun s => let (a, o) := m (os s) in (a, with_os (fun _ => o) s).
(** Carrying on after a call that may not return. *)
Definition bindO {A B} (m : MS (Outcome A)) (k : A -> MS (Outcome B))
  : MS (Outcome B) :=
  bindS m (fun r => match r with Returned a => k a | Crashed => retS Crashed end).

Notation "'do!' x ':=' m 'in' k" := (bindS m (fun x => k))
  (at level 10, x pattern, m at level 100, k at level 200,
   format "'[v' 'do!'  x  ':='  m  'in' '/' k ']'").
Notation "'try!' x ':=' m 'in' k" := (bindO m (fun x => k))
  (at level 10, x pattern, m at level 100, k at level 200,
   format "'[v' 'try!'  x  ':='  m  'in' '/' k ']'").

Definition whenS (b : bool) (m : MS unit) : MS unit := if b then m else retS tt.

(** Registry calls return their error code; none of them sets the last
    error of the thread. *)
Module Reg.
Section Calls.
Variable host : Host.

Definition key_of (hKey : HKEY) (s : Sys) : option RegPath :=
  match hKey with
  | Predefined r => Some (r, [])
  | Opened h => keys s !! h
  end.

Definition RegOpenKeyExA (hKey : HKEY) (lpSubKey : option string)
  : MS (Res HKEY) :=
  fun s =>
    match key_of hKey s with
    | Some (r, p) =>
        match host_RegOpenKey host (r, p ++ [lpSubKey]) with
        | Ok _ =>
            let h := Win32.fresh_key (keys s) in
            (Ok (Opened h), with_keys <[h := (r, p ++ [lpSubKey])]> s)
        | Fails e => (Fails e, s)
        end
    | None => (Fails ERROR_INVALID_HANDLE, s)
    end.

Definition RegCloseKey (hKey : HKEY) : MS unit :=
  fun s =>
    match hKey with
    | Predefined _ => (tt, s)
    | Opened h => (tt, with_keys (delete h) s)
    end.

(** [RegEnumKeyExA(hKey, index, keyName, &size, ...)]: the name of the
    sub-key at [index], when it fits with its NUL in [size] characters. *)
Definition RegEnumKeyExA (hKey : HKEY) (index size : nat) : MS (Res string) :=
  fun s =>
    match key_of hKey s with
    | Some p =>
        match host_RegEnumKey host p !! index with
        | Some name =>
            if (String.length name <? size)%nat then (Ok name, s)
            else (Fails ERROR_MORE_DATA, s)
        | None => (Fails ERROR_NO_MORE_ITEMS, s)
        end
    | None => (Fails ERROR_INVALID_HANDLE, s)
    end.

(** [RegQueryValueExW] asked for the type and the size of a value. *)
Definition RegQueryValueExW_size (hKey : HKEY) (name : list N)
  : MS (Res (N * N)) :=
  fun s =>
    match key_of hKey s with
    | Some p => (host_RegQuerySize host p name, s)
    | None => (Fails ERROR_INVALID_HANDLE, s)
    end.

(** [RegQueryValueExW] asked for the data, into a buffer of [cb] bytes. *)
Definition RegQueryValueExW_data (hKey : HKEY) (name : list N) (cb : N)
  : MS (Res (list N)) :=
  fun s =>
    match key_of hKey s with
    | Some p =>
        match host_RegQueryData host p name with
        | Ok data =>
            if (cb <? 2 * N.of_nat (length data))%N then (Fails ERROR_MORE_DATA, s)
            else (Ok data, s)
        | Fails e => (Fails e, s)
        end
    | None => (Fails ERROR_INVALID_HANDLE, s)
    end.

End Calls.
End Reg.

(** ** inline namespace windows: finding Visual Studio and the SDKs

    Where a function may run into undefined behaviour (a write past the end
    of a fixed-size buffer, [isdigit] on a negative [char]), [Crashed] stands
    for that. *)
Module windows.
Section Windows.
Variable env : Env.
Variable host : Host.

(** [while (!buffer.empty() && buffer.back() == 0) buffer.pop_back()]; the
    loop cannot take more rounds than the buffer has elements. *)
Fixpoint pop_zeros (rounds : nat) (buffer : SmallVector.t N) : SmallVector.t N :=
  match rounds with
  | O => buffer
  | S rounds' =>
      if negb (SmallVector.empty buffer)
         && bool_decide (last (SmallVector.elems buffer) = Some 0%N)
      then pop_zeros rounds'
             (SmallVector.mk
                (take (SmallVector.size buffer - 1) (SmallVector.elems buffer))
                (SmallVector.capacity buffer))
      else buffer
  end.

Definition readFullStringValue (hkey : HKEY) (valueName : option string)
    (value : string) : MS (bool * string) :=
  let converted :=
    match valueName with
    | Some name => host_ConvertUTF8toWide host name
    | None => Some []
    end in
  match converted with
  | None => retS (false, value)
  | Some WideValueName =>
      do! result := Reg.RegQueryValueExW_size host hkey WideValueName in
      match result with
      | Ok (type, valueSize) =>
          if negb (type =? REG_SZ)%N || (valueSize =? 0)%N then retS (false, value)
          else
            let buffer := SmallVector.mk [] MAX_PATHC in
            let buffer := SmallVector.resize 0%N (N.to_nat (valueSize / 2)) buffer in
            do! result := Reg.RegQueryValueExW_data host hkey WideValueName valueSize in
            match result with
            | Ok data =>
                let buffer := SmallVector.store 0 data buffer in
                let buffer := pop_zeros (SmallVector.size buffer) buffer in
                let WideValue := SmallVector.elems buffer in
                retS (host_convertWideToUTF8 host WideValue)
            | Fails result =>
                do! _ := in_os (platform.ReportError env result (Some "RegQueryValueEx")) in
                retS (false, value)
            end
      | Fails result =>
          do! _ := in_os (platform.ReportError env result (Some "RegQueryValueEx")) in
          retS (false, value)
      end
  end.

Definition logSearch (Name Value : string) (Found : option string) : MS unit :=
  in_os (modify (with_errs (fun out =>
    match Found with
    | Some F =>
        out +:+ "Found " +:+ Name +:+ " '" +:+ Value +:+ "' that matches "
            +:+ F +:+ " version" +:+ endl
    | None => out +:+ Name +:+ " '" +:+ Value +:+ "' not found." +:+ endl
    end))).

Definition trimString (Value Sub : string) : string :=
  match Str.strstr Value Sub with
  | Some End => Str.take End Value
  | None => Value
  end.

(** *** The highest-version search of [GetSystemRegistryString] *)

(** [while ((keyEnd > subKey) && ( *keyEnd != '\\')) keyEnd--], on offsets. *)
Fixpoint key_end (subKey : string) (keyEnd : nat) : nat :=
  match keyEnd with
  | O => O
  | S keyEnd' =>
      if bool_decide (String.get keyEnd subKey = Some kSep) then keyEnd
      else key_end subKey keyEnd'
  end.

(** [while ( *nextKey && ( *nextKey != '\\')) nextKey++]. *)
Fixpoint next_key (nextKey : string) : string :=
  match nextKey with
  | EmptyString => EmptyString
  | String c r => if Ascii.eqb c kSep then nextKey else next_key r
  end.

(** [while ( *sp && !isdigit( *sp)) sp++]. *)
Fixpoint skip_to_digit (sp : string) : option string :=
  match sp with
  | EmptyString => Some sp
  | String c r =>
      match Str.isdigit c with
      | Some true => Some sp
      | Some false => skip_to_digit r
      | None => None
      end
  end.

(** [while ( *ep && (isdigit( *ep) || ( *ep == '.'))) ep++]. *)
Fixpoint skip_number (ep : string) : option string :=
  match ep with
  | EmptyString => Some ep
  | String c r =>
      match Str.isdigit c with
      | Some d => if d || Ascii.eqb c (Ascii.ascii_of_nat 46) then skip_number r else Some ep
      | None => None
      end
  end.

(** [a > b] on the values of [strtod]. *)
Definition greater (a b : Q) : bool := negb (Qle_bool a b).

(** The [for] loop over the sub-keys of [hTopKey].  [size] is what the
    previous call left in the variable of that name.  The loop ends when
    [RegEnumKeyExA] fails, which it does at the latest when [index] has
    passed the last sub-key: [fuel] bounds the rounds from above. *)
Fixpoint enum_loop (fuel : nat) (hTopKey : HKEY) (nextKey : string)
    (valueName : option string) (index size : nat) (bestValue : Q)
    (returnValue : bool) (outValue : string) : MS (Outcome (bool * string)) :=
  match fuel with
  | O => retS (Returned (returnValue, outValue))
  | S fuel' =>
      do! r := Reg.RegEnumKeyExA host hTopKey index size in
      match r with
      | Fails _ => retS (Returned (returnValue, outValue))
      | Ok keyName =>
          match skip_to_digit keyName with
          | None => retS Crashed
          | Some EmptyString =>
              (* continue: size stays at the length of this name *)
              enum_loop fuel' hTopKey nextKey valueName (S index)
                (String.length keyName) bestValue returnValue outValue
          | Some (String d ep as sp) =>
              match skip_number ep with
              | None => retS Crashed
              | Some _ =>
                  let numBuf := Str.take 31 sp in
                  let dvalue := host_strtod host numBuf in
                  if greater dvalue bestValue then
                    (* strcpy, then strncat of at most 255 characters and a
                       NUL, into bestName[256] *)
                    if (256 <? String.length keyName
                              + Nat.min (String.length nextKey) 255 + 1)%nat
                    then retS Crashed
                    else
                      let bestName := keyName +:+ nextKey in
                      do! r := Reg.RegOpenKeyExA host hTopKey (Some bestName) in
                      match r with
                      | Ok hKey =>
                          do! r := readFullStringValue hKey valueName outValue in
                          do! _ := Reg.RegCloseKey hKey in
                          enum_loop fuel' hTopKey nextKey valueName (S index) 255
                            (if fst r then dvalue else bestValue)
                            (fst r || returnValue) (snd r)
                      | Fails _ =>
                          enum_loop fuel' hTopKey nextKey valueName (S index) 255
                            bestValue returnValue outValue
                      end
                  else
                    enum_loop fuel' hTopKey nextKey valueName (S index) 255
                      bestValue returnValue outValue
              end
          end
      end
  end.

(** [size_t], as wide as a pointer. *)
Definition size_t_bits : Z := 8 * Z.of_nat (sizeof_HMODULE (env_target env)).

Definition version_search (hRootKey : HKEY_root) (subKey : string)
    (placeHolder : nat) (valueName : option string) (outValue : string)
  : MS (Outcome (bool * string)) :=
  let keyEnd : Z :=
    match placeHolder with
    | O => -1
    | S before => Z.of_nat (key_end subKey before)
    end in
  let nextKey := next_key (Str.drop placeHolder subKey) in
  let partialKeyLength := keyEnd mod 2 ^ size_t_bits in
  let partialKeyLength := if 256 <? partialKeyLength then 256 else partialKeyLength in
  (* partialKey[partialKeyLength] = '\0' in char partialKey[256] *)
  if 256 <=? partialKeyLength then retS Crashed
  else
    let partialKey := Str.take (Z.to_nat partialKeyLength) subKey in
    do! r := Reg.RegOpenKeyExA host (Predefined hRootKey) (Some partialKey) in
    match r with
    | Ok hTopKey =>
        let subkeys := host_RegEnumKey host (hRootKey, [Some partialKey]) in
        try! r := enum_loop (S (length subkeys)) hTopKey nextKey valueName
                    0 255 0%Q false outValue in
        do! _ := Reg.RegCloseKey hTopKey in
        retS (Returned r)
    | Fails lResult =>
        do! _ := in_os (platform.ReportError env lResult (Some "RegOpenKeyEx")) in
        retS (Returned (false, outValue))
    end.

Definition GetSystemRegistryString (keyPath : string) (valueName : option string)
    (outValue : string) : MS (Outcome (bool * string)) :=
  let root :=
    if Str.strncmp keyPath "HKEY_CLASSES_ROOT" 17
    then Some (HKEY_CLASSES_ROOT, Str.drop 17 keyPath)
    else if Str.strncmp keyPath "HKEY_USERS" 10
    then Some (HKEY_USERS, Str.drop 10 keyPath)
    else if Str.strncmp keyPath "HKEY_LOCAL_MACHINE" 18
    then Some (HKEY_LOCAL_MACHINE, Str.drop 18 keyPath)
    else if Str.strncmp keyPath "HKEY_CURRENT_USER" 17
    then Some (HKEY_CURRENT_USER, Str.drop 17 keyPath)
    else None in
  match root with
  | None => retS (Returned (false, outValue))
  | Some (hRootKey, subKey) =>
      let skipped :=
        match subKey with
        | String c r => if Ascii.eqb c kSep then Some r else None
        | EmptyString => Some subKey
        end in
      match skipped with
      | None => retS (Returned (false, outValue))
      | Some subKey =>
          match Str.strstr subKey "$VERSION" with
          | Some placeHolder =>
              version_search hRootKey subKey placeHolder valueName outValue
          | None =>
              let '(subKey, valueName) :=
                if Str.empty subKey then (valueName, None)
                else (Some subKey, valueName) in
              do! r := Reg.RegOpenKeyExA host (Predefined hRootKey) subKey in
              match r with
              | Ok hKey =>
                  do! returnValue := readFullStringValue hKey valueName outValue in
                  do! _ := Reg.RegCloseKey hKey in
                  retS (Returned returnValue)
              | Fails lResult =>
                  do! _ := in_os (platform.ReportError env lResult (Some "RegOpenKeyEx")) in
                  retS (Returned (false, outValue))
              end
          end
      end
  end.

Definition getVSRegistryString (Product : string) (VSVersion : Z) (Path : string)
    (Verbose : option string) : MS (Outcome (bool * string)) :=
  let Key := "HKEY_LOCAL_MACHINE\SOFTWARE\Microsoft\" +:+ Product +:+ "\"
               +:+ pretty VSVersion +:+ ".0" in
  try! r := GetSystemRegistryString Key (Some "InstallDir") "" in
  let '(found, IDEInstallDir) := r in
  if negb found || Str.empty IDEInstallDir then
    do! _ := whenS (bool_decide (is_Some Verbose)) (logSearch "Registry" Key None) in
    retS (Returned (false, Path))
  else
    let Path := trimString (Str.c_str IDEInstallDir) "\Common7\IDE" in
    do! _ := whenS (bool_decide (is_Some Verbose)) (logSearch "Registry" Key Verbose) in
    retS (Returned (true, Path)).

Definition getVSEnvironmentString (VSVersion : Z) (Path : string)
    (Verbose : option string) : MS (bool * string) :=
  let Key := "VS" +:+ pretty (VSVersion * 10) +:+ "COMNTOOLS" in
  match host_getenv host Key with
  | None =>
      do! _ := whenS (bool_decide (is_Some Verbose)) (logSearch "Environment" Key None) in
      retS (false, Path)
  | Some Tools =>
      let Path := trimString Tools "\Common7\Tools" in
      do! _ := whenS (bool_decide (is_Some Verbose)) (logSearch "Environment" Key Verbose) in
      retS (true, Path)
  end.

Definition getVisualStudioVer (VSVersion : Z) (Path : string)
    (Verbose : option string) : MS (Outcome (bool * string)) :=
  try! r := getVSRegistryString "VisualStudio" VSVersion Path Verbose in
  if fst r then retS (Returned (true, snd r))
  else
    try! r := getVSRegistryString "VCExpress" VSVersion (snd r) Verbose in
    if fst r then retS (Returned (true, snd r))
    else
      do! r := getVSEnvironmentString VSVersion (snd r) Verbose in
      if fst r then retS (Returned (true, snd r))
      else retS (Returned (false, snd r)).

(** The body of the loop over the entries of the [Include] directory: the
    entries still to visit, the version to match, and [SDKPath] and
    [SDKVersion] as they are by now.  The first component of the result
    tells whether the loop was left by [return true]. *)
Fixpoint scan_include (entries : list string) (UcrtCompiledVers : string)
    (SDKPath SDKVersion : string) : bool * (string * string) :=
  match entries with
  | [] => (false, (SDKPath, SDKVersion))
  | path :: rest =>
      if negb (host_is_directory host path)
      then scan_include rest UcrtCompiledVers SDKPath SDKVersion
      else
        let Candidate := host_path_filename host path in
        let Match := String.eqb Candidate UcrtCompiledVers in
        if Match || (String.prefix "10." Candidate
                     && bool_decide (String.compare Candidate SDKVersion = Gt))
        then
          if Match then (true, (path, Candidate))
          else scan_include rest UcrtCompiledVers path Candidate
        else scan_include rest UcrtCompiledVers SDKPath SDKVersion
  end.

Definition getWindows10SDKVersion (SDKPath SDKVersion : string)
  : bool * (string * string) :=
  let UcrtCompiledVers := SDKVersion in
  let SDKVersion := EmptyString in
  let IncludePath := host_path_append host SDKPath "Include" in
  let '(matched, (SDKPath, SDKVersion)) :=
    scan_include (host_directory host IncludePath) UcrtCompiledVers
      SDKPath SDKVersion in
  if matched then (true, (SDKPath, SDKVersion))
  else (negb (Str.empty SDKVersion), (SDKPath, SDKVersion)).

Definition getUniversalCRTSdkDir (Path UCRTVersion : string)
  : MS (Outcome (bool * (string * string))) :=
  try! r := GetSystemRegistryString
              "HKEY_LOCAL_MACHINE\SOFTWARE\Microsoft\Windows Kits\Installed Roots"
              (Some "KitsRoot10") Path in
  if negb (fst r) then retS (Returned (false, (snd r, UCRTVersion)))
  else retS (Returned (getWindows10SDKVersion (snd r) UCRTVersion)).

Definition getWindowsSDKDir (WindowsSDK : string) : MS (Outcome (bool * string)) :=
  GetSystemRegistryString
    "HKEY_LOCAL_MACHINE\SOFTWARE\Microsoft\Microsoft SDKs\Windows\$VERSION"
    (Some "InstallationFolder") WindowsSDK.

Definition GetVisualStudioVersionCompiledWith : Z :=
  let _MSC_VER := host_MSC_VER host in
  if _MSC_VER <? 1900 then _MSC_VER / 100 - 6
  else if _MSC_VER <? 1910 then 14
  else 15.

(** [while (!Path.empty() && Path.back() == kSep) Path.pop_back()]; the
    loop cannot take more rounds than the path has characters. *)
Fixpoint strip_separators (rounds : nat) (Path : string) : string :=
  match rounds with
  | O => Path
  | S rounds' =>
      if negb (Str.empty Path) && bool_decide (Str.back Path = Some kSep)
      then strip_separators rounds' (Str.pop_back Path)
      else Path
  end.

Definition fixupPath (Path : string) (Append : option string) : string :=
  match Append with
  | Some Append =>
      if Str.empty Path then Path
      else
        let Path :=
          if negb (bool_decide (Str.back Path = Some kSep))
          then Path +:+ String kSep EmptyString else Path in
        Path +:+ Append
  | None => strip_separators (String.length Path) Path
  end.

(** [for (unsigned i = 0; Versions[i]; ++i)], on the versions before the
    terminating zero. *)
Fixpoint try_versions (Versions : list Z) (VSVersion : Z) (Path : string)
    (Msg : option string) : MS (Outcome (bool * string)) :=
  match Versions with
  | [] => retS (Returned (false, Path))
  | v :: rest =>
      if negb (v =? VSVersion) then
        try! r := getVisualStudioVer v Path Msg in
        if fst r then retS (Returned (true, fixupPath (snd r) None))
        else try_versions rest VSVersion (snd r) Msg
      else try_versions rest VSVersion Path Msg
  end.

Definition errs_out (text : string) : MS unit :=
  in_os (modify (with_errs (fun out => out +:+ text))).

Definition GetVisualStudioDirs (Path : string) (WinSDK UniversalSDK : option string)
    (Verbose : bool)
  : MS (Outcome (bool * string * option string * option string)) :=
  try! WinSDK :=
    match WinSDK with
    | Some sdk =>
        try! r := getWindowsSDKDir sdk in
        if negb (fst r) then
          do! _ := whenS Verbose (errs_out ("Could not get Windows SDK path" +:+ endl)) in
          retS (Returned (Some EmptyString))
        else retS (Returned (Some (fixupPath (snd r) None)))
    | None => retS (Returned None)
    end in
  try! UniversalSDK :=
    match UniversalSDK with
    | Some UCRTVersion =>
        try! r := getUniversalCRTSdkDir EmptyString UCRTVersion in
        if negb (fst r) then
          do! _ := whenS Verbose (errs_out ("Could not get Universal SDK path" +:+ endl)) in
          retS (Returned (Some EmptyString))
        else retS (Returned (Some (fixupPath (fst (snd r)) (Some "ucrt"))))
    | None => retS (Returned None)
    end in
  let Msg := if Verbose then Some "compiled" else None in
  let VSVersion := GetVisualStudioVersionCompiledWith in
  try! r := getVisualStudioVer VSVersion Path Msg in
  if fst r then
    retS (Returned (true, fixupPath (snd r) None, WinSDK, UniversalSDK))
  else
    let Path := snd r in
    match host_getenv host "VCINSTALLDIR" with
    | Some VCInstall =>
        let Path := trimString VCInstall "\VC" in
        do! _ := whenS Verbose
                   (errs_out ("Using VCINSTALLDIR '" +:+ VCInstall +:+ "'" +:+ endl)) in
        retS (Returned (true, Path, WinSDK, UniversalSDK))
    | None =>
        let Msg := if Verbose then Some "highest" else None in
        try! r := try_versions [14; 12; 11; 10; 9; 8] VSVersion Path Msg in
        retS (Returned (fst r, snd r, WinSDK, UniversalSDK))
    end.

Definition GetSystemLibraryPaths (Paths : list string) : MS (bool * list string) :=
  let '(result, Buf) :=
    host_SHGetFolderPath host (Z.lor CSIDL_FLAG_CREATE CSIDL_SYSTEM) in
  if negb (result =? S_OK) then
    do! _ := in_os (platform.ReportError env (Z.to_N (result mod 2 ^ 32))
                      (Some "SHGetFolderPathA")) in
    retS (false, Paths)
  else
    let Paths := Paths ++ [Buf] in
    let '(result, Buf) :=
      host_SHGetFolderPath host (Z.lor CSIDL_FLAG_CREATE CSIDL_WINDOWS) in
    if negb (result =? S_OK) then
      do! _ := in_os (platform.ReportError env (Z.to_N (result mod 2 ^ 32))
                        (Some "SHGetFolderPathA")) in
      retS (false, Paths)
    else retS (true, Paths ++ [Buf]).

End Windows.
End windows.

(** ** What the path helpers are expected to do *)

(** [n] path separators. *)
Fixpoint separators (n : nat) : string :=
  match n with O => EmptyString | S n' => String kSep (separators n') end.

(** [Sub] occurs in [Value] at offset [i]. *)
Definition occurs_at (Sub Value : string) (i : nat) : Prop :=
  exists before after,
    Value = before +:+ Sub +:+ after /\ String.length before = i.

(** ** What the SDK search is expected to find

    The names of the sub-directories of the [Include] directory that look
    like a Windows 10 SDK version, in the order the directory lists them. *)
Definition sdk_versions (host : Host) (entries : list string) : list string :=
  filter (fun name => String.prefix "10." name = true)
    (host_path_filename host <$> filter (fun p => host_is_directory host p = true) entries).

(** The entries of the [Include] directory that are directories of the
    given name. *)
Definition named (host : Host) (name : string) (entries : list string)
  : list string :=
  filter (fun p => host_is_directory host p = true /\ host_path_filename host p = name)
    entries.

(** ** Sample hosts

    [bare] is a machine without registry keys, environment variables or
    directories, built with Visual Studio 2015; text is converted between
    UTF-8 and UTF-16 byte by byte, and [strtod] reads nothing. *)
Definition widen (s : string) : list N :=
  (fun c => Ascii.N_of_ascii c) <$> String.list_ascii_of_string s.
Definition narrow (w : list N) : string :=
  String.string_of_list_ascii ((fun n => Ascii.ascii_of_N n) <$> w).

Definition bare : Host :=
  {| host_MSC_VER := 1900;
     host_getenv := fun _ => None;
     host_SHGetFolderPath := fun _ => (0x80004005, "");
     host_directory := fun _ => [];
     host_is_directory := fun _ => true;
     host_path_append := fun a b => a +:+ "\" +:+ b;
     host_path_filename := fun p => p;
     host_ConvertUTF8toWide := fun s => Some (widen s);
     host_convertWideToUTF8 := fun w => (true, narrow w);
     host_strtod := fun _ => 0%Q;
     host_RegOpenKey := fun _ => Fails 2%N;
     host_RegEnumKey := fun _ => [];
     host_RegQuerySize := fun _ _ => Fails 2%N;
     host_RegQueryData := fun _ _ => Fails 2%N |}.

(** [bare], with the given entries in every directory. *)
Definition with_directory (entries : list string) : Host :=
  {| host_MSC_VER := host_MSC_VER bare;
     host_getenv := host_getenv bare;
     host_SHGetFolderPath := host_SHGetFolderPath bare;
     host_directory := fun _ => entries;
     host_is_directory := host_is_directory bare;
     host_path_append := host_path_append bare;
     host_path_filename := host_path_filename bare;
     host_ConvertUTF8toWide := host_ConvertUTF8toWide bare;
     host_convertWideToUTF8 := host_convertWideToUTF8 bare;
     host_strtod := host_strtod bare;
     host_RegOpenKey := host_RegOpenKey bare;
     host_RegEnumKey := host_RegEnumKey bare;
     host_RegQuerySize := host_RegQuerySize bare;
     host_RegQueryData := host_RegQueryData bare |}.

(** ** What a search may change

    The searches write to [llvm::errs()]; they leave everything else,
    the handles of the process and its open registry keys, as it was. *)
Definition only_logs (s s' : Sys) : Prop :=
  exists text, s' = with_os (with_errs (fun out => out +:+ text)) s.

(** A computation that only logs, and one that only logs if it returns. *)
Definition logs_only {A} (m : MS A) : Prop :=
  forall s, only_logs s (m s).2.
Definition logs_only_if_it_returns {A} (m : MS (Outcome A)) : Prop :=
  forall s,
    match (m s).1 with
    | Returned _ => only_logs s (m s).2
    | Crashed => True
    end.

(** The names of the predefined keys. *)
Definition root_name (r : HKEY_root) : string :=
  match r with
  | HKEY_CLASSES_ROOT => "HKEY_CLASSES_ROOT"
  | HKEY_USERS => "HKEY_USERS"
  | HKEY_LOCAL_MACHINE => "HKEY_LOCAL_MACHINE"
  | HKEY_CURRENT_USER => "HKEY_CURRENT_USER"
  end.

(** [bare], with one key in the registry, which holds one string value:
    [data] is what is stored, terminators included. *)
Definition with_value (key : RegPath) (name : string) (data : list N) : Host :=
  {| host_MSC_VER := host_MSC_VER bare;
     host_getenv := host_getenv bare;
     host_SHGetFolderPath := host_SHGetFolderPath bare;
     host_directory := host_directory bare;
     host_is_directory := host_is_directory bare;
     host_path_append := host_path_append bare;
     host_path_filename := host_path_filename bare;
     host_ConvertUTF8toWide := host_ConvertUTF8toWide bare;
     host_convertWideToUTF8 := host_convertWideToUTF8 bare;
     host_strtod := host_strtod bare;
     host_RegOpenKey := fun p => if bool_decide (p = key) then Ok tt else Fails 2%N;
     host_RegEnumKey := host_RegEnumKey bare;
     host_RegQuerySize := fun p n =>
       if bool_decide (p = key /\ n = widen name)
       then Ok (REG_SZ, (2 * N.of_nat (length data))%N) else Fails 2%N;
     host_RegQueryData := fun p n =>
       if bool_decide (p = key /\ n = widen name) then Ok data else Fails 2%N |}.

(** Visual Studio 2015 as its installer registers it. *)
Definition vs2015 : Host :=
  with_value (HKEY_LOCAL_MACHINE, [Some "SOFTWARE\Microsoft\VisualStudio\14.0"])
    "InstallDir" (widen "C:\VS14\Common7\IDE\" ++ [0%N]).

(** ** What the highest-version search is expected to find *)

(** The key that holds the Windows SDKs, one sub-key for each version. *)
Definition sdk_key : RegPath :=
  (HKEY_LOCAL_MACHINE, [Some "SOFTWARE\Microsoft\Microsoft SDKs\Windows"]).

(** The decimal digits, and text made of characters of the ASCII set. *)
Definition decimal_digit (c : Ascii.ascii) : Prop :=
  c ∈ String.list_ascii_of_string "0123456789".


(** The name of a sub-key from its first decimal digit on; empty when it
    has none. *)
Fixpoint from_first_digit (keyName : string) : string :=
  match keyName with
  | EmptyString => EmptyString
  | String c r =>
      if bool_decide (decimal_digit c) then keyName else from_first_digit r
  end.

(** The text of the version number of a sub-key: its name from the first
    digit on, 31 characters of it at most; and the number, as [strtod]
    reads that text. *)
Definition version_text (keyName : string) : string :=
  String.substring 0 31 (from_first_digit keyName).

Definition version_number (host : Host) (keyName : string) : Q :=
  host_strtod host (version_text keyName).


(** What [readFullStringValue] returns for a handle of the key [p]. *)
Definition read_at (env : Env) (host : Host) (p : RegPath)
    (valueName : option string) : bool * string :=
  (windows.readFullStringValue env host (Opened 0) valueName ""
     {| os := boot; keys := {[ 0 := p ]} |}).1.

(** The sub-keys of [top] among [names] that the search can use, each with
    its version number and the value read under it: those whose name has a
    digit and a version number above zero, that can be opened and hold the
    value. *)
Definition usable (env : Env) (host : Host) (top : RegPath) (nextKey : string)
    (valueName : option string) (names : list string) : list (Q * string) :=
  omap (fun name =>
    let p := (top.1, top.2 ++ [Some (name +:+ nextKey)]) in
    if decide (from_first_digit name = EmptyString) then None
    else
      match host_RegOpenKey host p with
      | Ok _ =>
          if (read_at env host p valueName).1 then
            if Qlt_le_dec 0 (version_number host name)
            then Some (version_number host name, (read_at env host p valueName).2)
            else None
          else None
      | Fails _ => None
      end) names.



(** ** A C library's [strtod], for the sample machines

    [strtod] skips white space, takes a sign, and reads the longest text
    that is a number: decimal digits with at most one point, and an
    exponent after [e]; or, after [0x], hexadecimal digits with at most one
    point, and a binary exponent after [p].  It returns the [double]
    nearest to that number, a tie going to the even one, and zero when
    there is no number to read.  A number too large for a [double] gives
    [HUGE_VAL], which is infinity: [2^1024] stands for it, above every
    [double] as infinity is.  The spellings of infinity and of NaN are left
    out; they do not start with a digit, as the text of a version does. *)
Module libc.

(** The rest of [s] after its first character, if that is one of [codes]. *)
Definition after (codes : list N) (s : string) : option string :=
  match s with
  | String c r => if bool_decide (Ascii.N_of_ascii c ∈ codes) then Some r else None
  | EmptyString => None
  end.

Definition digit (base : N) (c : Ascii.ascii) : option N :=
  let n := Ascii.N_of_ascii c in
  if (48 <=? n)%N && (n <=? 57)%N then Some (n - 48)%N
  else if (base =? 16)%N && (97 <=? n)%N && (n <=? 102)%N then Some (n - 87)%N
  else if (base =? 16)%N && (65 <=? n)%N && (n <=? 70)%N then Some (n - 55)%N
  else None.

(** The digits [s] starts with: their value, read after [acc], how many
    they are, counted from [count], and the rest of [s]. *)
Fixpoint digits (base : N) (s : string) (acc : N) (count : nat)
  : N * nat * string :=
  match s with
  | String c r =>
      match digit base c with
      | Some d => digits base r (base * acc + d)%N (S count)
      | None => (acc, count, s)
      end
  | EmptyString => (acc, count, s)
  end.

(** The digits of a number and the point among them: the integer the
    digits spell, how many of them follow the point, and the rest of the
    text.  There has to be a digit. *)
Definition mantissa (base : N) (s : string) : option (N * nat * string) :=
  let '(i, ni, r) := digits base s 0 0 in
  match after [46%N] r with
  | Some r' =>
      let '(f, nf, r'') := digits base r' i 0 in
      if (ni + nf =? 0)%nat then None else Some (f, nf, r'')
  | None => if (ni =? 0)%nat then None else Some (i, 0%nat, r)
  end.

(** The exponent after one of [marks]: a sign and decimal digits.  Without
    a digit there is no exponent. *)
Definition exponent (marks : list N) (s : string) : Z :=
  match after marks s with
  | Some r =>
      let '(e, n, _) := digits 10 (default r (after [43%N; 45%N] r)) 0 0 in
      if (n =? 0)%nat then 0
      else if bool_decide (is_Some (after [45%N] r)) then - Z.of_N e else Z.of_N e
  | None => 0
  end.

Definition HUGE_VAL : Q := inject_Z (2 ^ 1024).

(** [n / d] to the nearest integer, a tie going to the even one. *)
Definition round_half_even (n d : Z) : Z :=
  let q := n / d in
  let r := n mod d in
  if 2 * r <? d then q
  else if d <? 2 * r then q + 1
  else if Z.even q then q else q + 1.

(** [n / d / 2^e] as a fraction. *)
Definition shifted (n d e : Z) : Z * Z :=
  if 0 <=? e then (n, d * 2 ^ e) else (n * 2 ^ (- e), d).

(** The [double] nearest to [n / d], for [0 <= n] and [0 < d]: 53 bits from
    the leading one on, and no bit below [2^-1074]. *)
Definition nearest_double (n d : Z) : Q :=
  if n =? 0 then 0%Q
  else
    let e0 := Z.log2 n - Z.log2 d in
    let e := if (shifted n d e0).2 <=? (shifted n d e0).1 then e0 else e0 - 1 in
    let q := Z.max (e - 52) (-1074) in
    let m := round_half_even (shifted n d q).1 (shifted n d q).2 in
    if 0 <=? q
    then if 2 ^ 1024 <=? m * 2 ^ q then HUGE_VAL else inject_Z (m * 2 ^ q)
    else Qmake m (Z.to_pos (2 ^ (- q))).

(** The [double] nearest to [m * base^x].  Beyond [limit] the power is not
    computed: the number is then too large for a [double], or less than
    half the least of them. *)
Definition scaled (base : Z) (limit : Z) (m : N) (x : Z) : Q :=
  if (m =? 0)%N then 0%Q
  else if limit <? x then HUGE_VAL
  else if x <? - (limit + Z.log2 (Z.of_N m) + 1) then 0%Q
  else if 0 <=? x then nearest_double (Z.of_N m * base ^ x) 1
  else nearest_double (Z.of_N m) (base ^ (- x)).

Definition hexadecimal (s : string) : option Q :=
  match after [48%N] s with
  | Some r =>
      match after [120%N; 88%N] r with
      | Some r' =>
          match mantissa 16 r' with
          | Some (m, nf, r'') =>
              Some (scaled 2 1100 m (exponent [112%N; 80%N] r'' - 4 * Z.of_nat nf))
          | None => None
          end
      | None => None
      end
  | None => None
  end.

Definition decimal (s : string) : Q :=
  match mantissa 10 s with
  | Some (m, nf, r) => scaled 10 400 m (exponent [101%N; 69%N] r - Z.of_nat nf)
  | None => 0%Q
  end.

Fixpoint skip_space (s : string) : string :=
  match s with
  | String c r =>
      if bool_decide (Ascii.N_of_ascii c ∈ [32%N; 9%N; 10%N; 11%N; 12%N; 13%N])
      then skip_space r else s
  | EmptyString => s
  end.

Definition unsigned (s : string) : Q := default (decimal s) (hexadecimal s).

Definition strtod (s : string) : Q :=
  let s := skip_space s in
  match after [45%N] s with
  | Some r => (- unsigned r)%Q
  | None => unsigned (default s (after [43%N] s))
  end.

End libc.

(** A machine with Windows SDKs: the key [sdk_key] has the sub-keys
    [names], and each of [installed] holds an [InstallationFolder].  Its
    [strtod] is that of [libc]. *)
Definition with_sdks (names : list string) (installed : list (string * string))
  : Host :=
  {| host_MSC_VER := host_MSC_VER bare;
     host_getenv := host_getenv bare;
     host_SHGetFolderPath := host_SHGetFolderPath bare;
     host_directory := host_directory bare;
     host_is_directory := host_is_directory bare;
     host_path_append := host_path_append bare;
     host_path_filename := host_path_filename bare;
     host_ConvertUTF8toWide := host_ConvertUTF8toWide bare;
     host_convertWideToUTF8 := host_convertWideToUTF8 bare;
     host_strtod := libc.strtod;
     host_RegOpenKey := fun p =>
       if bool_decide (p = sdk_key) then Ok tt
       else if bool_decide
                 (p ∈ (fun i : string * string =>
                         (sdk_key.1, sdk_key.2 ++ [Some i.1])) <$> installed)
       then Ok tt else Fails 2%N;
     host_RegEnumKey := fun p => if bool_decide (p = sdk_key) then names else [];
     host_RegQuerySize := fun p n =>
       match list_find (fun i : string * string =>
                          p = (sdk_key.1, sdk_key.2 ++ [Some i.1])) installed with
       | Some (_, i) =>
           if bool_decide (n = widen "InstallationFolder")
           then Ok (REG_SZ, (2 * N.of_nat (S (String.length i.2)))%N)
           else Fails 2%N
       | None => Fails 2%N
       end;
     host_RegQueryData := fun p n =>
       match list_find (fun i : string * string =>
                          p = (sdk_key.1, sdk_key.2 ++ [Some i.1])) installed with
       | Some (_, i) =>
           if bool_decide (n = widen "InstallationFolder")
           then Ok (widen i.2 ++ [0%N]) else Fails 2%N
       | None => Fails 2%N
       end |}.

(** The SDKs 6.0A and 7.1A installed, and a third sub-key without a value. *)
Definition two_sdks : Host :=
  with_sdks ["v6.0A"; "v7.1A"; "v7.0"]
    [("v7.1A", "C:\SDK\7.1A\"); ("v6.0A", "C:\SDK\6.0A\")].

(** The SDK 7.1A installed, listed after a sub-key named [Help]. *)
Definition sdk_after_help : Host :=
  with_sdks ["Help"; "v7.1A"] [("v7.1A", "C:\SDK\7.1A\")].

(** The SDKs 6.0A and 7.1A installed, with a sub-key named [Help] listed
    between them. *)
Definition sdks_around_help : Host :=
  with_sdks ["v6.0A"; "Help"; "v7.1A"]
    [("v6.0A", "C:\SDK\6.0A\"); ("v7.1A", "C:\SDK\7.1A\")].

(** The key under which an edition of Visual Studio registers a version. *)
Definition vs_key (Product : string) (VSVersion : Z) : RegPath :=
  (HKEY_LOCAL_MACHINE,
   [Some ("SOFTWARE\Microsoft\" +:+ Product +:+ "\" +:+ pretty VSVersion +:+ ".0")]).

(** [bare], with the given environment variables. *)
Definition with_env (vars : list (string * string)) : Host :=
  {| host_MSC_VER := host_MSC_VER bare;
     host_getenv := fun name =>
       snd <$> (snd <$> list_find (fun v : string * string => v.1 = name) vars);
     host_SHGetFolderPath := host_SHGetFolderPath bare;
     host_directory := host_directory bare;
     host_is_directory := host_is_directory bare;
     host_path_append := host_path_append bare;
     host_path_filename := host_path_filename bare;
     host_ConvertUTF8toWide := host_ConvertUTF8toWide bare;
     host_convertWideToUTF8 := host_convertWideToUTF8 bare;
     host_strtod := host_strtod bare;
     host_RegOpenKey := host_RegOpenKey bare;
     host_RegEnumKey := host_RegEnumKey bare;
     host_RegQuerySize := host_RegQuerySize bare;
     host_RegQueryData := host_RegQueryData bare |}.

(** A command prompt set up for Visual C++ on a machine where Visual
    Studio is not registered. *)
Definition vc_prompt : Host := with_env [("VCINSTALLDIR", "C:\VS\VC\")].


(** The command prompt of Visual Studio 2015, on a machine where it is not
    registered; an older Visual C++ is named as well. *)
Definition vs_shell : Host :=
  with_env [("VS140COMNTOOLS", "C:\VS14\Common7\Tools\");
            ("VCINSTALLDIR", "C:\VS12\VC\")].

(** * Properties *)

(** ** Vectors *)
Section VectorFacts.
Context {T : Type}.
Implicit Types (v : SmallVector.t T) (z : T).

Lemma size_resize z n v : SmallVector.size (SmallVector.resize z n v) = n.
Proof.
  unfold SmallVector.resize, SmallVector.size.
  destruct (Nat.leb_spec n (length (SmallVector.elems v))); simpl.
  - rewrite length_take. lia.
  - rewrite length_app, length_replicate. lia.
Qed.

Lemma size_store pos src v :
  (pos <= SmallVector.size v)%nat ->
  SmallVector.size (SmallVector.store pos src v) = SmallVector.size v.
Proof.
  unfold SmallVector.store, SmallVector.size. simpl. intros Hpos.
  rewrite length_take, !length_app, length_take, length_drop. lia.
Qed.

Lemma elems_resize z n v :
  SmallVector.elems (SmallVector.resize z n v)
  = take n (SmallVector.elems v ++ replicate (n - SmallVector.size v) z).
Proof.
  unfold SmallVector.resize, SmallVector.size.
  destruct (Nat.leb_spec n (length (SmallVector.elems v))); simpl.
  - by rewrite take_app_le.
  - rewrite take_ge; [done|]. rewrite length_app, length_replicate. lia.
Qed.

Lemma resize_0 z v :
  SmallVector.resize z 0 v = SmallVector.mk [] (SmallVector.capacity v).
Proof. unfold SmallVector.resize. simpl. by rewrite take_0. Qed.

(** The buffer once [ReadFile] has stored [bs] behind the old contents. *)
Lemma elems_after_read z v bs Chunk :
  (length bs <= Chunk)%nat ->
  SmallVector.elems
    (SmallVector.store (SmallVector.size v) bs
       (SmallVector.resize z (SmallVector.size v + Chunk) v))
  = SmallVector.elems v ++ bs ++ replicate (Chunk - length bs) z.
Proof.
  intros Hle. unfold SmallVector.store. cbn [SmallVector.elems].
  unfold SmallVector.size at 1. rewrite !elems_resize.
  unfold SmallVector.size.
  set (es := SmallVector.elems v).
  replace (length es + Chunk - length es)%nat with Chunk by lia.
  rewrite (take_ge (es ++ _)) by (rewrite length_app, length_replicate; lia).
  rewrite take_app_length, drop_app_ge by lia.
  rewrite drop_replicate, length_app, length_replicate.
  replace (length es + length bs - length es)%nat with (length bs) by lia.
  rewrite take_ge; [done|]. rewrite !length_app, length_replicate. lia.
Qed.

(** ... and once it is trimmed to the old size plus [k] of the new bytes. *)
Lemma elems_trimmed z v bs Chunk n k :
  (length bs <= Chunk)%nat -> (k <= length bs)%nat ->
  n = (SmallVector.size v + k)%nat ->
  SmallVector.elems
    (SmallVector.resize z n
       (SmallVector.store (SmallVector.size v) bs
          (SmallVector.resize z (SmallVector.size v + Chunk) v)))
  = SmallVector.elems v ++ take k bs.
Proof.
  intros Hle Hk ->. rewrite elems_resize, elems_after_read by done.
  unfold SmallVector.size at 1.
  rewrite take_app_le.
  2:{ rewrite !length_app. unfold SmallVector.size. lia. }
  rewrite take_app_ge by (unfold SmallVector.size; lia).
  unfold SmallVector.size.
  replace (length (SmallVector.elems v) + k - length (SmallVector.elems v))%nat
    with k by lia.
  by rewrite take_app_le by lia.
Qed.
End VectorFacts.

(** ** Fresh handles *)
Lemma foldr_max_ge (l : list Z) x : x ∈ l -> x <= foldr Z.max 0 l.
Proof.
  induction l as [|y l IH]; [by intros ?%elem_of_nil|].
  intros [->|Hx]%elem_of_cons; simpl; [lia|]. specialize (IH Hx). lia.
Qed.

Lemma foldr_max_nonneg (l : list Z) : 0 <= foldr Z.max 0 l.
Proof. induction l; simpl; lia. Qed.

Lemma fresh_key_gt {V} (m : gmap Z V) k :
  is_Some (m !! k) -> k < Win32.fresh_key m.
Proof.
  intros Hk%elem_of_dom%elem_of_elements%foldr_max_ge.
  unfold Win32.fresh_key. lia.
Qed.

Lemma fresh_key_le_None {V} (m : gmap Z V) k :
  Win32.fresh_key m <= k -> m !! k = None.
Proof.
  intros Hle. destruct (m !! k) eqn:Hk; [|done].
  pose proof (fresh_key_gt m k (mk_is_Some _ _ Hk)). lia.
Qed.

Lemma fresh_key_lookup {V} (m : gmap Z V) : m !! Win32.fresh_key m = None.
Proof. apply fresh_key_le_None. lia. Qed.

Lemma fresh_key_pos {V} (m : gmap Z V) : 0 < Win32.fresh_key m.
Proof.
  unfold Win32.fresh_key. pose proof (foldr_max_nonneg (elements (dom m))). lia.
Qed.

(** ** Running a computation step by step *)
Lemma bind_eq {A B} (m : M A) (k : A -> M B) s :
  bind m k s = k (m s).1 (m s).2.
Proof. unfold bind. by destruct (m s). Qed.

Ltac os_simpl :=
  unfold Win32.GetLastError, get, ret, modify, when, Win32.fail,
    with_handles, with_views, with_last_error, with_errs, with_call,
    with_incoming, with_enum_calls;
  cbn [handles views last_error errs calls incoming enum_calls fst snd].

Ltac key_neq := unfold NULL, INVALID_HANDLE_VALUE in *; lia.

Ltac lookup_tac :=
  os_simpl;
  repeat first
    [ rewrite lookup_insert_eq
    | rewrite lookup_delete_eq
    | rewrite lookup_insert_ne by key_neq
    | rewrite lookup_delete_ne by key_neq ];
  try done.

Ltac step_with lem :=
  rewrite ?bind_eq; rewrite lem by (done || lookup_tac); cbv zeta; os_simpl.

Ltac fresh_lt := apply fresh_key_gt; lookup_tac.

Ltac not_eqb :=
  match goal with |- context [?a =? ?b] =>
    replace (a =? b) with false by (symmetry; apply Z.eqb_neq; key_neq)
  end.

(** The handle table is back to [H] once every handle opened above it has
    been closed. *)
Ltac handles_restored :=
  apply map_eq; intros ?k;
  repeat first [rewrite lookup_delete | rewrite lookup_insert];
  repeat case_decide; try lia; try done;
  symmetry; apply fresh_key_le_None; lia.

(** ** Symbol resolution *)
Section SymbolResolver.
Variable env : Env.

Lemma sizeof_HMODULE_pos : (0 < sizeof_HMODULE (env_target env))%nat.
Proof. destruct (env_target env); simpl; lia. Qed.

Lemma GetProcAddress_run h Name s :
  exists s', Win32.GetProcAddress env h Name s = (env_GetProcAddress env h Name, s')
    /\ enum_calls s' = enum_calls s.
Proof.
  unfold Win32.GetProcAddress.
  destruct (env_GetProcAddress env h Name =? 0) eqn:E.
  - apply Z.eqb_eq in E. rewrite E. by eexists.
  - by eexists.
Qed.

(** The reverse search returns the first export met and makes no
    enumeration of its own. *)
Lemma search_reverse_run Its Name s :
  exists s', platform.search_reverse env Its Name s = (first_export env Name Its, s')
    /\ enum_calls s' = enum_calls s.
Proof.
  revert s. induction Its as [|h rest IH]; intros s; [by eexists|].
  cbn [platform.search_reverse first_export]. rewrite bind_eq.
  destruct (GetProcAddress_run h Name s) as (s1 & -> & Hs1). cbn [fst snd].
  destruct (env_GetProcAddress env h Name =? nullptr).
  - destruct (IH s1) as (s' & -> & Hs'). eexists; split; [done|congruence].
  - by eexists.
Qed.

Lemma first_export_none Name Its :
  (forall h, h ∈ Its -> env_GetProcAddress env h Name = nullptr) ->
  first_export env Name Its = None.
Proof.
  induction Its as [|h rest IH]; intros H; [reflexivity|]. simpl.
  rewrite (H h) by left. rewrite Z.eqb_refl. apply IH.
  intros h' Hh'. apply H. by right.
Qed.

(** The last exporter of a list is the first one met from its end. *)
Lemma first_export_last Name pre h post :
  env_GetProcAddress env h Name <> nullptr ->
  (forall h', h' ∈ post -> env_GetProcAddress env h' Name = nullptr) ->
  first_export env Name (reverse (pre ++ h :: post))
  = Some (env_GetProcAddress env h Name).
Proof.
  intros Hh Hpost. rewrite reverse_app, reverse_cons, <- app_assoc.
  assert (forall l, (forall h', h' ∈ l -> env_GetProcAddress env h' Name = nullptr) ->
            forall l', first_export env Name (l ++ l') = first_export env Name l')
    as Hskip.
  { induction l as [|x l IH]; intros Hl l'; [done|]. simpl.
    rewrite (Hl x) by left. rewrite Z.eqb_refl. apply IH.
    intros h' ?. apply Hl. by right. }
  rewrite Hskip.
  - simpl. by apply Z.eqb_neq in Hh as ->.
  - intros h' Hin. apply Hpost. by apply elem_of_reverse.
Qed.

Lemma search_down_run Modules Name NumFirst i s :
  exists r s', platform.search_down env Modules Name NumFirst i s = (r, s')
    /\ enum_calls s' = enum_calls s
    /\ ((i < SmallVector.size Modules)%nat ->
        (forall h, env_GetProcAddress env h Name = nullptr) ->
        r = Returned None).
Proof.
  revert s. induction i as [|i IH]; intros s; [by eexists _, _|].
  cbn [platform.search_down]. destruct (NumFirst <? S i)%nat; [|by eexists _, _].
  destruct (SmallVector.elems Modules !! S i) as [h|] eqn:Hh.
  - rewrite bind_eq. destruct (GetProcAddress_run h Name s) as (s1 & -> & Hs1).
    cbn [fst snd]. destruct (env_GetProcAddress env h Name =? nullptr) eqn:E.
    + destruct (IH s1) as (r & s' & -> & Hs' & Hr). eexists _, _.
      split; [done|]. split; [congruence|]. intros ? ?. apply Hr; [lia|done].
    + eexists _, _. split; [done|]. split; [done|]. intros _ Hnone.
      rewrite Hnone, Z.eqb_refl in E. done.
  - eexists _, _. split; [done|]. split; [done|]. intros Hi _.
    apply lookup_ge_None in Hh. unfold SmallVector.size in Hi. lia.
Qed.

Lemma EnumProcessModulesEx_run buf cb s :
  exists r s', Win32.EnumProcessModulesEx env buf cb s = (r, s')
    /\ enum_calls s' = S (enum_calls s)
    /\ (forall v n, r = Some (v, n) -> SmallVector.size v = SmallVector.size buf).
Proof.
  unfold Win32.EnumProcessModulesEx.
  destruct (env_modules env (enum_calls s)); eexists _, _; (split; [done|]).
  - split; [done|]. intros v n [= <- _]. apply size_store. lia.
  - split; [done|]. intros ? ? [=].
Qed.

Lemma note_last_error_run Err Prefix s :
  exists Err', platform.note_last_error env Err Prefix s = (Err', s).
Proof.
  destruct Err as [ErrStr|]; [|by eexists]. cbn [platform.note_last_error].
  rewrite bind_eq. unfold platform.GetLastErrorAsString. rewrite bind_eq.
  os_simpl. destruct (last_error s =? 0)%N; by eexists.
Qed.

(** What the first enumeration leaves in the 128-element buffer. *)
Lemma first_capture_elems mods :
  let sz := sizeof_HMODULE (env_target env) in
  let Modules := SmallVector.resize NULL platform.Modules_inline
                   (SmallVector.mk [] platform.Modules_inline) in
  SmallVector.elems
    (SmallVector.store 0 (take (SmallVector.capacity Modules * sz / sz) mods) Modules)
  = take platform.Modules_inline mods
    ++ replicate (platform.Modules_inline - length mods) NULL.
Proof.
  intros sz Modules.
  pose proof sizeof_HMODULE_pos as Hsz. fold sz in Hsz.
  change (SmallVector.capacity Modules) with platform.Modules_inline.
  rewrite Nat.div_mul by lia.
  etrans.
  { apply (elems_after_read NULL (SmallVector.mk (@nil Z) platform.Modules_inline)
             (take platform.Modules_inline mods) platform.Modules_inline).
    rewrite length_take. lia. }
  cbn [SmallVector.elems app]. rewrite length_take. f_equal. f_equal. lia.
Qed.

(** The module list of a process with at most 128 modules is captured
    whole by the first enumeration. *)
Lemma first_capture mods :
  (length mods <= platform.Modules_inline)%nat ->
  let sz := sizeof_HMODULE (env_target env) in
  let Modules := SmallVector.resize NULL platform.Modules_inline
                   (SmallVector.mk [] platform.Modules_inline) in
  let Captured :=
    SmallVector.store 0 (take (SmallVector.capacity Modules * sz / sz) mods) Modules in
  SmallVector.elems
    (if ((sz * length mods) / sz <? SmallVector.size Captured)%nat
     then SmallVector.resize NULL ((sz * length mods) / sz) Captured
     else Captured) = mods
  /\ (SmallVector.size Captured <? (sz * length mods) / sz)%nat = false.
Proof.
  intros Hlen sz Modules Captured.
  pose proof sizeof_HMODULE_pos as Hsz. fold sz in Hsz.
  pose proof (first_capture_elems mods) as HC. cbv zeta in HC.
  fold sz Modules Captured in HC. rewrite (take_ge mods) in HC by done.
  assert (SmallVector.size Captured = platform.Modules_inline) as HS.
  { unfold SmallVector.size. rewrite HC, length_app, length_replicate. lia. }
  rewrite HS, (Nat.mul_comm sz), Nat.div_mul by lia. split.
  - destruct (Nat.ltb_spec (length mods) platform.Modules_inline).
    + rewrite elems_resize, HC, HS.
      replace (length mods - platform.Modules_inline)%nat with 0%nat by lia.
      simpl. rewrite app_nil_r. by rewrite take_app_length.
    + rewrite HC. replace (platform.Modules_inline - length mods)%nat with 0%nat by lia.
      simpl. by rewrite app_nil_r.
  - apply Nat.ltb_ge. lia.
Qed.

(** Beyond the inline capacity, an export among the first 128 modules is
    returned whatever the later modules export. *)
Lemma DLSym_first_128_shadow_the_rest Name Err s mods Addr :
  env_modules env (enum_calls s) = Ok mods ->
  (platform.Modules_inline < length mods)%nat ->
  first_export env Name (reverse (take platform.Modules_inline mods)) = Some Addr ->
  (platform.DLSym env Name Err s).1 = (Returned Addr, Err).
Proof.
  intros Hmods Hlen Hfound. unfold platform.DLSym. rewrite bind_eq.
  unfold Win32.EnumProcessModulesEx at 1 2. rewrite Hmods. cbn [fst snd].
  pose proof sizeof_HMODULE_pos as Hsz.
  pose proof (first_capture_elems mods) as HC. cbv zeta in HC.
  replace (platform.Modules_inline - length mods)%nat with 0%nat in HC by lia.
  cbn [replicate] in HC. rewrite app_nil_r in HC.
  change (SmallVector.capacity (SmallVector.mk (@nil Z) platform.Modules_inline))
    with platform.Modules_inline in *.
  match goal with |- context [SmallVector.size ?v] =>
    assert (SmallVector.size v = platform.Modules_inline) as HS
      by (unfold SmallVector.size; rewrite HC, length_take; lia) end.
  rewrite HS, (Nat.mul_comm (sizeof_HMODULE _)), Nat.div_mul by lia.
  replace (length mods <? platform.Modules_inline)%nat with false
    by (symmetry; apply Nat.ltb_ge; lia).
  rewrite HC, bind_eq.
  match goal with |- context [platform.search_reverse env ?l Name ?st] =>
    destruct (search_reverse_run l Name st) as (s' & -> & _) end.
  cbn [fst snd]. by rewrite Hfound.
Qed.

(** The second search never reads the handles at index [NumFirst] or
    below: two buffers that agree above [NumFirst] give the same run. *)
Lemma search_down_ignores_NumFirst Modules1 Modules2 Name NumFirst i s :
  (forall j, (NumFirst < j)%nat ->
     SmallVector.elems Modules1 !! j = SmallVector.elems Modules2 !! j) ->
  platform.search_down env Modules1 Name NumFirst i s
  = platform.search_down env Modules2 Name NumFirst i s.
Proof.
  intros Hagree. revert s. induction i as [|i IH]; intros s; [done|].
  cbn [platform.search_down]. destruct (Nat.ltb_spec NumFirst (S i)); [|done].
  rewrite (Hagree (S i)) by done.
  destruct (SmallVector.elems Modules2 !! S i); [|done].
  unfold bind. destruct (Win32.GetProcAddress env _ Name s) as [Addr s1].
  by destruct (Addr =? nullptr).
Qed.

(** Within the inline capacity, [DLSym] returns the first export met from
    the end of the module list, or [nullptr]. *)
Lemma DLSym_within_capacity Name Err s mods :
  env_modules env (enum_calls s) = Ok mods ->
  (length mods <= platform.Modules_inline)%nat ->
  (platform.DLSym env Name Err s).1
  = (Returned (default nullptr (first_export env Name (reverse mods))), Err).
Proof.
  intros Hmods Hlen. unfold platform.DLSym. rewrite bind_eq.
  unfold Win32.EnumProcessModulesEx at 1 2. rewrite Hmods. cbn [fst snd].
  destruct (first_capture mods Hlen) as [HC HN]. cbv zeta in HC, HN.
  change (SmallVector.capacity (SmallVector.mk (@nil Z) platform.Modules_inline))
    with platform.Modules_inline.
  rewrite HC, HN. rewrite bind_eq.
  match goal with |- context [platform.search_reverse env ?l Name ?st] =>
    destruct (search_reverse_run l Name st) as (s' & -> & _) end.
  cbn [fst snd]. by destruct (first_export env Name (reverse mods)).
Qed.

(** The nearby statement of last-loaded-wins: it holds for a process with
    at most 128 modules. *)
Lemma DLSym_last_loaded_wins_within_capacity Name Err s pre h post :
  env_modules env (enum_calls s) = Ok (pre ++ h :: post) ->
  (length (pre ++ h :: post) <= platform.Modules_inline)%nat ->
  env_GetProcAddress env h Name <> nullptr ->
  (forall h', h' ∈ post -> env_GetProcAddress env h' Name = nullptr) ->
  (platform.DLSym env Name Err s).1.1 = Returned (env_GetProcAddress env h Name).
Proof.
  intros Hmods Hlen Hh Hpost.
  rewrite (DLSym_within_capacity Name Err s _ Hmods Hlen).
  by rewrite first_export_last.
Qed.

(** [DLSym] enumerates the modules once or twice. *)
Lemma DLSym_enumerates_once_or_twice Name Err s :
  let n := enum_calls (platform.DLSym env Name Err s).2 in
  n = S (enum_calls s) \/ n = S (S (enum_calls s)).
Proof.
  unfold platform.DLSym. rewrite bind_eq.
  match goal with |- context [Win32.EnumProcessModulesEx env ?b ?c s] =>
    destruct (EnumProcessModulesEx_run b c s) as (r & s1 & -> & H1 & _) end.
  cbn [fst snd]. destruct r as [[Modules Bytes]|].
  2:{ rewrite bind_eq. destruct (note_last_error_run Err "EnumProcessModulesEx" s1) as (? & ->).
      left. done. }
  rewrite bind_eq.
  match goal with |- context [platform.search_reverse env ?l Name s1] =>
    destruct (search_reverse_run l Name s1) as (s2 & -> & H2) end.
  cbn [fst snd]. destruct (first_export env Name _); [left; cbn; congruence|].
  match goal with |- context [if ?c then _ else _] => destruct c end.
  2:{ left. cbn. congruence. }
  rewrite bind_eq.
  match goal with |- context [Win32.EnumProcessModulesEx env ?b ?c s2] =>
    destruct (EnumProcessModulesEx_run b c s2) as (r & s3 & -> & H3 & _) end.
  cbn [fst snd]. destruct r as [[Modules2 Bytes2]|].
  2:{ rewrite bind_eq. destruct (note_last_error_run Err "EnumProcessModulesEx" s3) as (? & ->).
      right. cbn. congruence. }
  rewrite bind_eq.
  match goal with |- context [platform.search_down env ?m Name ?a ?b s3] =>
    destruct (search_down_run m Name a b s3) as (r & s4 & -> & H4 & _) end.
  cbn [fst snd]. right. destruct r as [[?|]|]; cbn; congruence.
Qed.

(** C6 (as amended).  For a name that no module handle resolves, [DLSym]
    returns normally, whatever the number of modules and whatever the two
    enumerations report, and what it returns is the null pointer: the
    absence of the symbol is told by [nullptr] itself, not by a separate
    indicator. *)
Theorem DLSym_unresolved_returns_nullptr Name Err s :
  (forall h, env_GetProcAddress env h Name = nullptr) ->
  (platform.DLSym env Name Err s).1.1 = Returned nullptr.
Proof.
  intros Hnone. unfold platform.DLSym. rewrite bind_eq.
  match goal with |- context [Win32.EnumProcessModulesEx env ?b ?c s] =>
    destruct (EnumProcessModulesEx_run b c s) as (r & s1 & -> & _ & _) end.
  cbn [fst snd]. destruct r as [[Modules Bytes]|].
  2:{ rewrite bind_eq.
      by destruct (note_last_error_run Err "EnumProcessModulesEx" s1) as (? & ->). }
  set (NumNeeded := (Bytes / sizeof_HMODULE (env_target env))%nat).
  set (NumFirst := SmallVector.size Modules).
  rewrite bind_eq.
  match goal with |- context [platform.search_reverse env ?l Name s1] =>
    destruct (search_reverse_run l Name s1) as (s2 & -> & _);
    rewrite (first_export_none Name l) by auto end.
  cbn [fst snd]. destruct (NumFirst <? NumNeeded)%nat eqn:Hmore; [|done].
  apply Nat.ltb_lt in Hmore. rewrite bind_eq.
  match goal with |- context [Win32.EnumProcessModulesEx env ?b ?c s2] =>
    destruct (EnumProcessModulesEx_run b c s2) as (r & s3 & -> & _ & Hsize) end.
  cbn [fst snd]. destruct r as [[Modules2 Bytes2]|].
  2:{ rewrite bind_eq.
      by destruct (note_last_error_run Err "EnumProcessModulesEx" s3) as (? & ->). }
  specialize (Hsize _ _ eq_refl). rewrite size_resize in Hsize.
  rewrite bind_eq.
  destruct (search_down_run Modules2 Name NumFirst (NumNeeded - 1) s3)
    as (r & s4 & -> & _ & Hr).
  cbn [fst snd]. rewrite Hr; [done| |done]. rewrite Hsize. lia.
Qed.

End SymbolResolver.

(** A witness of C6: no module of [loaded 200 _] exports anything. *)
Lemma DLSym_unresolved_returns_nullptr_witness :
  (forall h, env_GetProcAddress (loaded 200 (fun _ _ => nullptr)) h "S" = nullptr)
  /\ (platform.DLSym (loaded 200 (fun _ _ => nullptr)) "S" None boot).1.1
     = Returned nullptr.
Proof.
  split; [reflexivity|].
  apply (DLSym_unresolved_returns_nullptr (loaded 200 (fun _ _ => nullptr))).
  reflexivity.
Defined.

(** C6, as first stated, fails: the result for a symbol that is nowhere is
    not a separate absence indicator but the null pointer, the value 0. *)
Lemma DLSym_not_found_is_the_null_pointer :
  (forall h, env_GetProcAddress quiet h "S" = nullptr)
  /\ (platform.DLSym quiet "S" None boot).1.1 = Returned 0.
Proof. split; [reflexivity|]. vm_compute. reflexivity. Qed.

(** C1.  With 130 modules loaded, of which the fourth (address 77) and the
    last (address 88) export ["S"], [DLSym] returns 77: the first 128
    modules are searched, from index 127 down, before the later ones are
    even captured, so the earlier-loaded module wins. *)
Theorem DLSym_earlier_module_wins_beyond_capacity :
  env_GetProcAddress (loaded 130 exports_twice) 1003 "S" = 77
  /\ env_GetProcAddress (loaded 130 exports_twice) 1129 "S" = 88
  /\ (platform.DLSym (loaded 130 exports_twice) "S" None boot).1.1 = Returned 77
  /\ (head (omap searched
               (trace_of (platform.DLSym (loaded 130 exports_twice) "S" None)))
      = Some 1127).
Proof. vm_compute. repeat split; reflexivity. Qed.

(** C2.  With 129 modules loaded, of which only the last, at index 128,
    exports ["S"], [DLSym] enumerates twice and still returns [nullptr]: the
    second search runs from index [NumNeeded-1] down while [i > NumFirst],
    so the module at index [NumFirst = 128] is never asked.  And when the
    name is found among the first 128 of 130 modules, no second
    enumeration is made at all. *)
Theorem DLSym_skips_module_at_index_128 :
  env_GetProcAddress (loaded 129 exports_at_128) 1128 "S" = 88
  /\ (platform.DLSym (loaded 129 exports_at_128) "S" None boot).1.1 = Returned nullptr
  /\ (1128 ∉ omap searched
                (trace_of (platform.DLSym (loaded 129 exports_at_128) "S" None)))
  /\ (length (filter is_enumeration
                (trace_of (platform.DLSym (loaded 129 exports_at_128) "S" None)))
      = 2%nat)
  /\ (length (filter is_enumeration
                (trace_of (platform.DLSym (loaded 130 exports_twice) "S" None)))
      = 1%nat).
Proof.
  split; [reflexivity|]. split; [vm_compute; reflexivity|]. split.
  - apply (bool_decide_unpack _). vm_compute. exact I.
  - split; vm_compute; reflexivity.
Qed.

(** ** The process runner *)
Lemma received_data bs rest :
  (0 < length bs)%nat -> received (Data bs :: rest) = bs ++ received rest.
Proof. destruct bs; simpl; [lia|done]. Qed.


Lemma captured_nil Chunk : captured Chunk [] = [].
Proof. unfold captured. by destruct (Chunk =? 0)%nat. Qed.

Section Runner.
Variable env : Env.

Lemma ReadFile_spec h len s :
  exists r s', Win32.ReadFile h len s = (r, s')
    /\ handles s' = handles s
    /\ views s' = views s
    /\ calls s' = EvReadFile h len r :: calls s
    /\ (length (default [] r) <= len)%nat
    /\ (stopped r = false ->
        (platform.pipe_weight (incoming s') < platform.pipe_weight (incoming s))%nat)
    /\ ((0 < len)%nat -> handles s !! h = Some PipeRead ->
        received (incoming s)
        = if stopped r then [] else default [] r ++ received (incoming s')).
Proof.
  unfold Win32.ReadFile, Win32.fail.
  destruct (handles s !! h) as [[]|] eqn:Hh;
    try (eexists _, _; split; [reflexivity|]; simpl; repeat split; (lia || done)).
  destruct (incoming s) as [|[bs|e] rest] eqn:Hin.
  - eexists _, _; split; [reflexivity|]. simpl. repeat split; (lia || done).
  - destruct (Nat.leb_spec (length bs) len).
    + eexists _, _; split; [reflexivity|]. simpl.
      repeat split; try (lia || done).
      all: try (intros _; unfold platform.pipe_weight; simpl; lia).
      intros _ _. unfold stopped. simpl. by destruct bs.
    + eexists _, _; split; [reflexivity|]. simpl.
      repeat split; try (lia || done).
      all: try (rewrite length_take; lia).
      { intros Hs. unfold stopped in Hs. simpl in Hs. rewrite length_take in Hs.
        apply Nat.eqb_neq in Hs. rewrite length_drop. lia. }
      intros Hlen _.
      change (received (Data bs :: rest)
              = if stopped (Some (take len bs)) then []
                else take len bs ++ received (Data (drop len bs) :: rest)).
      unfold stopped. simpl negb. rewrite orb_false_l. simpl default.
      rewrite length_take. replace (len `min` length bs)%nat with len by lia.
      destruct (Nat.eqb_spec len 0); [lia|].
      rewrite !received_data by (try rewrite length_drop; lia).
      by rewrite app_assoc, take_drop.
  - eexists _, _; split; [reflexivity|]. simpl. repeat split; (lia || done).
Qed.

(** The loop ends within the fuel [Popen] gives it, leaves the handle table
    alone, makes only [ReadFile] calls, and appends to the buffer exactly
    what those calls returned. *)
Lemma read_loop_spec fuel h Chunk Buf s :
  (platform.pipe_weight (incoming s) < fuel)%nat ->
  exists out evs s', platform.read_loop env fuel h Chunk Buf s = (Some out, s')
    /\ handles s' = handles s
    /\ views s' = views s
    /\ calls s' = evs ++ calls s
    /\ Forall is_ReadFile evs
    /\ SmallVector.elems out
       = SmallVector.elems Buf ++ flat_map read_data (reverse evs)
    /\ (handles s !! h = Some PipeRead ->
        SmallVector.elems out
        = SmallVector.elems Buf ++ captured Chunk (incoming s)).
Proof.
  revert Buf s. induction fuel as [|fuel IH]; intros Buf s Hfuel; [lia|].
  cbn [platform.read_loop]. unfold bind.
  destruct (ReadFile_spec h Chunk s)
    as (r & s1 & -> & Hh & Hv & Hc & Hlen & Hw & Hrecv).
  change (negb (bool_decide (is_Some r)) || (length (default [] r) =? 0)%nat)
    with (stopped r).
  destruct (stopped r) eqn:Hstop.
  - unfold Win32.GetLastError, get, when, platform.ReportError, modify, ret.
    destruct (negb _); (eexists _, [EvReadFile h Chunk r], _; split; [reflexivity|]).
    all: assert (default [] r = []) as Hnil
           by (unfold stopped in Hstop; destruct r as [[|]|]; done).
    all: simpl; rewrite ?Hh, ?Hc, ?Hv; repeat split; auto.
    all: try (constructor; [done|constructor]).
    all: try intros HP; rewrite (elems_trimmed _ _ _ Chunk _ 0), take_0 by (lia || done).
    all: f_equal; try (by rewrite Hnil).
    all: unfold captured; destruct (Nat.eqb_spec Chunk 0); [done|].
    all: rewrite Hrecv by (lia || done); done.
  - specialize (Hw eq_refl).
    assert (0 < Chunk)%nat as HChunk.
    { destruct Chunk; [|lia]. unfold stopped in Hstop.
      replace (length (default [] r)) with 0%nat in Hstop by lia.
      by rewrite orb_true_r in Hstop. }
    match goal with |- context [platform.read_loop env fuel h Chunk ?B s1] =>
      destruct (IH B s1) as (out & evs & s' & -> & Hh' & Hv' & Hc' & Hev & Hdata & Hel);
        [lia|];
      assert (SmallVector.elems B = SmallVector.elems Buf ++ default [] r) as HB
    end.
    { destruct (Nat.ltb_spec (length (default [] r)) Chunk).
      - by rewrite (elems_trimmed _ _ _ Chunk _ (length (default [] r))), firstn_all
          by (lia || done).
      - rewrite elems_after_read by done.
        replace (Chunk - length (default [] r))%nat with 0%nat by lia.
        simpl. by rewrite app_nil_r. }
    eexists out, (evs ++ [EvReadFile h Chunk r]), s'. split; [reflexivity|].
    repeat split.
    + congruence.
    + congruence.
    + rewrite Hc', Hc. by rewrite <- app_assoc.
    + apply Forall_app. split; [done|]. by constructor.
    + rewrite Hdata, HB, reverse_app, <- app_assoc. reflexivity.
    + intros HP. rewrite Hel, HB by congruence. unfold captured.
      destruct (Nat.eqb_spec Chunk 0); [lia|].
      rewrite (Hrecv HChunk HP). by rewrite app_assoc.
Qed.

Lemma Win32_CloseHandle_open h o s :
  handles s !! h = Some o ->
  Win32.CloseHandle h s
  = (true, with_call (EvCloseHandle h true) (with_handles (delete h) s)).
Proof. intros H. unfold Win32.CloseHandle. by rewrite H. Qed.

Lemma Win32_CloseHandle_closed h s :
  handles s !! h = None ->
  Win32.CloseHandle h s
  = (false, with_call (EvCloseHandle h false)
              (with_last_error ERROR_INVALID_HANDLE s)).
Proof. intros H. unfold Win32.CloseHandle. by rewrite H. Qed.

Lemma CloseHandle_open h o s :
  handles s !! h = Some o ->
  platform.CloseHandle env h s
  = (tt, with_call (EvCloseHandle h true) (with_handles (delete h) s)).
Proof.
  intros H. unfold platform.CloseHandle.
  by rewrite bind_eq, (Win32_CloseHandle_open h o).
Qed.

Lemma CreatePipe_ok u s :
  env_CreatePipe env = Ok u ->
  Win32.CreatePipe env s
  = let R := Win32.fresh_key (handles s) in
    let W := Win32.fresh_key (<[R := PipeRead]> (handles s)) in
    (Some (R, W),
     with_call (EvCreatePipe (Some (R, W)))
       (with_handles
          (fun _ => <[W := PipeWrite]> (<[R := PipeRead]> (handles s))) s)).
Proof. intros H. unfold Win32.CreatePipe. by rewrite H. Qed.

Lemma CreatePipe_fails e s :
  env_CreatePipe env = Fails e ->
  Win32.CreatePipe env s
  = (None, with_call (EvCreatePipe None) (with_last_error e s)).
Proof. intros H. unfold Win32.CreatePipe. by rewrite H. Qed.

Lemma DuplicateHandle_ok src inherit o u s :
  handles s !! src = Some o ->
  env_DuplicateHandle env src inherit = Ok u ->
  Win32.DuplicateHandle env src inherit s
  = (Some (Win32.fresh_key (handles s)),
     with_call
       (EvDuplicateHandle src inherit (Some (Win32.fresh_key (handles s))))
       (with_handles <[Win32.fresh_key (handles s) := o]> s)).
Proof. intros H1 H2. unfold Win32.DuplicateHandle. by rewrite H1, H2. Qed.

Lemma DuplicateHandle_fails src inherit o e s :
  handles s !! src = Some o ->
  env_DuplicateHandle env src inherit = Fails e ->
  Win32.DuplicateHandle env src inherit s
  = (None, with_call (EvDuplicateHandle src inherit None) (with_last_error e s)).
Proof. intros H1 H2. unfold Win32.DuplicateHandle. by rewrite H1, H2. Qed.

Lemma CreateProcessA_ok cmd o e u s :
  env_CreateProcess env cmd = Ok u ->
  Win32.CreateProcessA env cmd o e s
  = let P := Win32.fresh_key (handles s) in
    let T := Win32.fresh_key (<[P := ProcessObj]> (handles s)) in
    (Some (P, T),
     with_call (EvCreateProcess cmd o e true)
       (with_incoming (env_child env cmd (negb (e =? NULL)))
          (with_handles
             (fun _ => <[T := ThreadObj]> (<[P := ProcessObj]> (handles s))) s))).
Proof. intros H. unfold Win32.CreateProcessA. by rewrite H. Qed.

Lemma CreateProcessA_fails cmd o e err s :
  env_CreateProcess env cmd = Fails err ->
  Win32.CreateProcessA env cmd o e s
  = (None, with_call (EvCreateProcess cmd o e false) (with_last_error err s)).
Proof. intros H. unfold Win32.CreateProcessA. by rewrite H. Qed.

(** Reporting writes to [llvm::errs()] and nothing else. *)
Lemma ReportLastError_errs Prefix s :
  exists b out, platform.ReportLastError env Prefix s = (b, with_errs (fun _ => out) s).
Proof.
  unfold platform.ReportLastError. rewrite bind_eq. os_simpl.
  destruct (last_error s =? 0)%N.
  - exists false, (errs s). by destruct s.
  - eexists true, _. rewrite bind_eq. reflexivity.
Qed.

Lemma ReportError_run Err Prefix s :
  platform.ReportError env Err Prefix s
  = (tt, with_errs (fun out => out +:+ pretty Err +:+ endl) s).
Proof. reflexivity. Qed.

Ltac report :=
  rewrite ?bind_eq;
  match goal with |- context [platform.ReportLastError env ?p ?st] =>
    let b := fresh "b" in let out := fresh "out" in let E := fresh "E" in
    destruct (ReportLastError_errs p st) as (b & out & E); rewrite E; clear E
  end; os_simpl.

Ltac finish_run out tr :=
  exists out, tr; eexists; split; [reflexivity|]; os_simpl;
  split; [try done; handles_restored|]; split; [done|]; split;
  [ cbn [dup_stderr close_stderr app];
    repeat first
      [ rewrite reverse_app | rewrite reverse_cons | rewrite reverse_nil
      | rewrite reverse_involutive | rewrite <- app_assoc ];
    cbn [app]; reflexivity | ];
  split;
  [ cbn [dup_stderr close_stderr app];
    repeat first
      [ rewrite flat_map_app
      | progress cbn [flat_map read_data app SmallVector.elems default]
      | rewrite app_nil_r ];
    try done | ].

(** Every run of [Popen] returns, restores the handle table, and follows
    one of the five paths. *)
Lemma Popen_runs Cmd Buf RdE s :
  exists out tr s',
    platform.Popen env Cmd Buf RdE s
    = (Some (negb (SmallVector.empty out), out), s')
    /\ handles s' = handles s
    /\ views s' = views s
    /\ calls s' = reverse tr ++ calls s
    /\ SmallVector.elems out = flat_map read_data tr
    /\ PopenPath env Cmd RdE (SmallVector.capacity Buf) tr (SmallVector.elems out).
Proof.
  destruct s as [H V le er cs inc ec].
  unfold platform.Popen. rewrite resize_0.
  destruct (env_CreatePipe env) as [[]|e] eqn:HP.
  2:{ step_with (CreatePipe_fails e).
      finish_run (SmallVector.mk (@nil byte) (SmallVector.capacity Buf)) [EvCreatePipe None]. by eapply path_no_pipe. }
  step_with (CreatePipe_ok ()).
  set (R := Win32.fresh_key H).
  set (W := Win32.fresh_key (<[R:=PipeRead]> H)).
  assert (R < W) by fresh_lt.
  pose proof (fresh_key_pos H) as HR. fold R in HR.
  destruct RdE.
  - destruct (env_DuplicateHandle env W true) as [[]|e] eqn:HDE.
    2:{ step_with (DuplicateHandle_fails W true PipeWrite e). report.
        step_with (Win32_CloseHandle_open R PipeRead).
        step_with (Win32_CloseHandle_open W PipeWrite).
        finish_run (SmallVector.mk (@nil byte) (SmallVector.capacity Buf)) [EvCreatePipe (Some (R, W)); EvDuplicateHandle W true None;
                    EvCloseHandle R true; EvCloseHandle W true].
        by eapply path_no_stderr. }
    step_with (DuplicateHandle_ok W true PipeWrite ()).
    set (E := Win32.fresh_key (<[W:=_]> _)).
    assert (W < E) by fresh_lt.
    destruct (env_DuplicateHandle env R false) as [[]|e] eqn:HDR.
    2:{ step_with (DuplicateHandle_fails R false PipeRead e). report.
        step_with (Win32_CloseHandle_open R PipeRead).
        step_with (Win32_CloseHandle_open W PipeWrite).
        step_with (Win32_CloseHandle_open E PipeWrite).
        finish_run (SmallVector.mk (@nil byte) (SmallVector.capacity Buf)) (EvCreatePipe (Some (R, W)) :: dup_stderr true W E ++
                    [EvDuplicateHandle R false None; EvCloseHandle R true;
                     EvCloseHandle W true] ++ close_stderr true E).
        by eapply path_no_read_end. }
    step_with (DuplicateHandle_ok R false PipeRead ()).
    set (R' := Win32.fresh_key (<[E:=_]> _)).
    assert (E < R') by fresh_lt.
    step_with (CloseHandle_open R PipeRead).
    destruct (env_CreateProcess env Cmd) as [[]|e] eqn:HC.
    2:{ step_with (CreateProcessA_fails Cmd W E e).
        step_with (CloseHandle_open W PipeWrite).
        step_with (CloseHandle_open E PipeWrite).
        step_with ReportError_run.
        step_with (CloseHandle_open R' PipeRead).
        cbn [fmap option_fmap option_map SmallVector.empty SmallVector.elems negb].
        finish_run (SmallVector.mk (@nil byte) (SmallVector.capacity Buf)) (EvCreatePipe (Some (R, W)) :: dup_stderr true W E ++
                    [EvDuplicateHandle R false (Some R'); EvCloseHandle R true;
                     EvCreateProcess Cmd W E false; EvCloseHandle W true]
                    ++ close_stderr true E ++ [EvCloseHandle R' true]).
        by eapply (path_no_child env Cmd true). }
    step_with (CreateProcessA_ok Cmd W E ()).
    set (P := Win32.fresh_key (delete R _)).
    assert (R' < P) by fresh_lt.
    set (T := Win32.fresh_key (<[P:=_]> _)).
    assert (P < T) by fresh_lt.
    step_with (CloseHandle_open W PipeWrite).
    step_with (CloseHandle_open E PipeWrite).
    rewrite ?bind_eq; os_simpl.
    match goal with |- context [platform.read_loop env ?f ?h ?c ?b ?st] =>
      destruct (read_loop_spec f h c b st)
        as (out & evs & s' & -> & Hh & Hv & Hc & Hev & Hdata & Hel); [os_simpl; lia|]
    end.
    destruct s' as [H' V' le' er' cs' inc' ec'].
    cbn [handles views calls incoming SmallVector.elems SmallVector.capacity app]
      in Hh, Hv, Hc, Hdata, Hel.
    subst H' V' cs'. os_simpl.
    step_with (CloseHandle_open P ProcessObj).
    step_with (CloseHandle_open T ThreadObj).
    step_with (CloseHandle_open R' PipeRead).
    cbn [fmap option_fmap option_map].
    finish_run out (EvCreatePipe (Some (R, W)) :: dup_stderr true W E ++
                [EvDuplicateHandle R false (Some R'); EvCloseHandle R true;
                 EvCreateProcess Cmd W E true; EvCloseHandle W true]
                ++ close_stderr true E ++ reverse evs ++
                [EvCloseHandle P true; EvCloseHandle T true; EvCloseHandle R' true]).
    rewrite Hel by lookup_tac.
    replace (negb (E =? NULL)) with true
      by (symmetry; apply negb_true_iff, Z.eqb_neq; key_neq).
    eapply (path_child env Cmd true); [done|]. by apply Forall_reverse.
  - rewrite ?bind_eq; os_simpl.
    destruct (env_DuplicateHandle env R false) as [[]|e] eqn:HDR.
    2:{ step_with (DuplicateHandle_fails R false PipeRead e). report.
        step_with (Win32_CloseHandle_open R PipeRead).
        step_with (Win32_CloseHandle_open W PipeWrite).
        finish_run (SmallVector.mk (@nil byte) (SmallVector.capacity Buf))
                   (EvCreatePipe (Some (R, W)) :: dup_stderr false W NULL ++
                    [EvDuplicateHandle R false None; EvCloseHandle R true;
                     EvCloseHandle W true] ++ close_stderr false NULL).
        by eapply path_no_read_end. }
    step_with (DuplicateHandle_ok R false PipeRead ()).
    set (R' := Win32.fresh_key (<[W:=_]> _)).
    assert (W < R') by fresh_lt.
    step_with (CloseHandle_open R PipeRead).
    destruct (env_CreateProcess env Cmd) as [[]|e] eqn:HC.
    2:{ step_with (CreateProcessA_fails Cmd W NULL e).
        step_with (CloseHandle_open W PipeWrite).
        step_with ReportError_run.
        step_with (CloseHandle_open R' PipeRead).
        cbn [fmap option_fmap option_map SmallVector.empty SmallVector.elems negb].
        finish_run (SmallVector.mk (@nil byte) (SmallVector.capacity Buf))
                   (EvCreatePipe (Some (R, W)) :: dup_stderr false W NULL ++
                    [EvDuplicateHandle R false (Some R'); EvCloseHandle R true;
                     EvCreateProcess Cmd W NULL false; EvCloseHandle W true]
                    ++ close_stderr false NULL ++ [EvCloseHandle R' true]).
        by eapply (path_no_child env Cmd false). }
    step_with (CreateProcessA_ok Cmd W NULL ()).
    set (P := Win32.fresh_key (delete R _)).
    assert (R' < P) by fresh_lt.
    set (T := Win32.fresh_key (<[P:=_]> _)).
    assert (P < T) by fresh_lt.
    step_with (CloseHandle_open W PipeWrite).
    rewrite ?bind_eq; os_simpl.
    match goal with |- context [platform.read_loop env ?f ?h ?c ?b ?st] =>
      destruct (read_loop_spec f h c b st)
        as (out & evs & s' & -> & Hh & Hv & Hc & Hev & Hdata & Hel); [os_simpl; lia|]
    end.
    destruct s' as [H' V' le' er' cs' inc' ec'].
    cbn [handles views calls incoming SmallVector.elems SmallVector.capacity app]
      in Hh, Hv, Hc, Hdata, Hel.
    subst H' V' cs'. os_simpl.
    step_with (CloseHandle_open P ProcessObj).
    step_with (CloseHandle_open T ThreadObj).
    step_with (CloseHandle_open R' PipeRead).
    cbn [fmap option_fmap option_map].
    finish_run out (EvCreatePipe (Some (R, W)) :: dup_stderr false W NULL ++
                [EvDuplicateHandle R false (Some R'); EvCloseHandle R true;
                 EvCreateProcess Cmd W NULL true; EvCloseHandle W true]
                ++ close_stderr false NULL ++ reverse evs ++
                [EvCloseHandle P true; EvCloseHandle T true; EvCloseHandle R' true]).
    rewrite Hel by lookup_tac.
    eapply (path_child env Cmd false); [done|]. by apply Forall_reverse.
Qed.


Lemma empty_elems {T} (v : SmallVector.t T) :
  SmallVector.empty v = true <-> SmallVector.elems v = [].
Proof. unfold SmallVector.empty. by destruct (SmallVector.elems v). Qed.

Lemma read_is_no_setup_failure e : is_ReadFile e -> ~ is_setup_failure e.
Proof. destruct e; cbn; tauto. Qed.

(** A read that occurs in [l1 ++ l2], when [l1] holds no read, occurs after
    all of [l1]. *)
Lemma read_after_prefix (l1 l2 pre post : list Event) x :
  l1 ++ l2 = pre ++ x :: post ->
  is_ReadFile x ->
  Forall (fun e => ~ is_ReadFile e) l1 ->
  exists mid, pre = l1 ++ mid.
Proof.
  revert pre. induction l1 as [|a l1 IH]; intros pre Heq Hx Hl1; [by exists pre|].
  apply Forall_cons in Hl1 as [Ha Hl1]. destruct pre as [|b pre]; simpl in Heq.
  - injection Heq as -> _. contradiction.
  - injection Heq as -> Heq. destruct (IH pre Heq Hx Hl1) as [mid ->]. by exists mid.
Qed.


(** C4.  Every call of [Popen] returns (the child exits); the boolean is
    true exactly when the returned bytes are not empty; a run in which
    [CreatePipe], [DuplicateHandle] or [CreateProcess] failed returns no
    byte and false; so does a run whose child wrote nothing. *)
Theorem Popen_true_iff_output Cmd Buf RdE s :
  exists b out tr s',
    platform.Popen env Cmd Buf RdE s = (Some (b, out), s')
    /\ calls s' = reverse tr ++ calls s
    /\ (b = true <-> SmallVector.elems out <> [])
    /\ (Exists is_setup_failure tr -> SmallVector.elems out = [] /\ b = false)
    /\ (env_child env Cmd RdE = [] -> SmallVector.elems out = [] /\ b = false).
Proof.
  destruct (Popen_runs Cmd Buf RdE s)
    as (out & tr & s' & Hrun & _ & _ & Hc & _ & Hpath).
  exists (negb (SmallVector.empty out)), out, tr, s'. split; [done|]. split; [done|].
  assert (SmallVector.elems out = [] -> negb (SmallVector.empty out) = false) as Hfalse.
  { intros Hnil. apply negb_false_iff. by apply empty_elems. }
  split; [|split].
  - rewrite negb_true_iff, <- not_true_iff_false. by rewrite empty_elems.
  - intros Hfail. enough (SmallVector.elems out = []) by auto.
    inversion Hpath as [| | | |R W E R' P T reads u Hspawn Hreads Htr Hout];
      subst; try done.
    exfalso. revert Hfail.
    rewrite Exists_cons, !Exists_app, !Exists_cons, !Exists_nil.
    assert (~ Exists is_setup_failure reads) as Hno.
    { rewrite Exists_exists. intros (e & He & Hf).
      rewrite Forall_forall in Hreads. by apply (read_is_no_setup_failure e); auto. }
    destruct RdE; cbn; rewrite ?Exists_cons, ?Exists_nil; tauto.
  - intros Hquiet. enough (SmallVector.elems out = []) by auto.
    inversion Hpath; subst; try done. rewrite Hquiet. apply captured_nil.
Qed.

(** C5.  In every run of [Popen], each [ReadFile] comes after the pipe was
    created and after the parent has closed its write end [W], and, when
    standard error is captured too, after it has closed the duplicate [E]
    of [W] as well. *)
Theorem Popen_closes_write_ends_before_reading Cmd Buf RdE s :
  exists tr,
    calls (platform.Popen env Cmd Buf RdE s).2 = reverse tr ++ calls s
    /\ forall pre h len r post,
        tr = pre ++ EvReadFile h len r :: post ->
        exists R W,
          EvCreatePipe (Some (R, W)) ∈ pre
          /\ EvCloseHandle W true ∈ pre
          /\ (RdE = true ->
              exists E, EvDuplicateHandle W true (Some E) ∈ pre
                        /\ EvCloseHandle E true ∈ pre).
Proof.
  destruct (Popen_runs Cmd Buf RdE s)
    as (out & tr & s' & Hrun & _ & _ & Hc & _ & Hpath).
  exists tr. rewrite Hrun. split; [done|].
  inversion Hpath as [| | | |R W E R' P T reads u Hspawn Hreads Heq Hout]; subst tr;
    intros pre h len r post Htr.
  1-4: exfalso;
       assert (EvReadFile h len r ∈ pre ++ EvReadFile h len r :: post) as Hin
         by (apply elem_of_app; right; left);
       rewrite <- Htr in Hin; revert Hin;
       destruct RdE; cbn [dup_stderr close_stderr app];
       repeat first [rewrite elem_of_cons | rewrite elem_of_app | rewrite elem_of_nil];
       intuition congruence.
  exists R, W. destruct RdE; cbn [dup_stderr close_stderr app] in Htr.
  - change (?a :: ?b :: ?c :: ?d :: ?e :: ?f :: ?g :: reads ++ ?t)
      with ([a; b; c; d; e; f; g] ++ reads ++ t) in Htr.
    apply read_after_prefix in Htr as [mid ->]; [|done|repeat constructor; auto].
    split; [set_solver|]. split; [set_solver|]. intros _. exists E. set_solver.
  - change (?a :: ?b :: ?c :: ?d :: ?e :: reads ++ ?t)
      with ([a; b; c; d; e] ++ reads ++ t) in Htr.
    apply read_after_prefix in Htr as [mid ->]; [|done|repeat constructor; auto].
    split; [set_solver|]. split; [set_solver|]. done.
Qed.




End Runner.

(** ** The image inspector *)
Section Inspector.
Variable env : Env.

Lemma CreateFileA_ok path content s :
  env_CreateFile env path = Ok content ->
  Win32.CreateFileA env path s
  = let h := Win32.fresh_key (handles s) in
    (h, with_call (EvCreateFile path h) (with_handles <[h := FileObj content]> s)).
Proof. intros H. unfold Win32.CreateFileA. by rewrite H. Qed.

Lemma CreateFileA_fails path e s :
  env_CreateFile env path = Fails e ->
  Win32.CreateFileA env path s
  = (INVALID_HANDLE_VALUE,
     with_call (EvCreateFile path INVALID_HANDLE_VALUE) (with_last_error e s)).
Proof. intros H. unfold Win32.CreateFileA. by rewrite H. Qed.

Lemma CreateFileMapping_empty hFile s :
  handles s !! hFile = Some (FileObj []) ->
  Win32.CreateFileMapping env hFile s
  = (NULL, with_call (EvCreateFileMapping hFile NULL)
             (with_last_error ERROR_FILE_INVALID s)).
Proof. intros H. unfold Win32.CreateFileMapping. by rewrite H. Qed.

Lemma CreateFileMapping_fails hFile b bs e s :
  handles s !! hFile = Some (FileObj (b :: bs)) ->
  env_CreateFileMapping env = Fails e ->
  Win32.CreateFileMapping env hFile s
  = (NULL, with_call (EvCreateFileMapping hFile NULL) (with_last_error e s)).
Proof. intros H1 H2. unfold Win32.CreateFileMapping. by rewrite H1, H2. Qed.

Lemma CreateFileMapping_ok hFile b bs u s :
  handles s !! hFile = Some (FileObj (b :: bs)) ->
  env_CreateFileMapping env = Ok u ->
  Win32.CreateFileMapping env hFile s
  = let h := Win32.fresh_key (handles s) in
    (h, with_call (EvCreateFileMapping hFile h)
          (with_handles <[h := MappingObj (b :: bs)]> s)).
Proof. intros H1 H2. unfold Win32.CreateFileMapping. by rewrite H1, H2. Qed.

Lemma MapViewOfFile_invalid h s :
  handles s !! h = None ->
  Win32.MapViewOfFile env h s
  = (NULL, with_call (EvMapViewOfFile h NULL)
             (with_last_error ERROR_INVALID_HANDLE s)).
Proof. intros H. unfold Win32.MapViewOfFile. by rewrite H. Qed.

Lemma MapViewOfFile_fails h content e s :
  handles s !! h = Some (MappingObj content) ->
  env_MapViewOfFile env = Fails e ->
  Win32.MapViewOfFile env h s
  = (NULL, with_call (EvMapViewOfFile h NULL) (with_last_error e s)).
Proof. intros H1 H2. unfold Win32.MapViewOfFile. by rewrite H1, H2. Qed.

Lemma MapViewOfFile_ok h content u s :
  handles s !! h = Some (MappingObj content) ->
  env_MapViewOfFile env = Ok u ->
  Win32.MapViewOfFile env h s
  = let base := Win32.fresh_key (views s) in
    (base, with_call (EvMapViewOfFile h base) (with_views <[base := content]> s)).
Proof. intros H1 H2. unfold Win32.MapViewOfFile. by rewrite H1, H2. Qed.

Lemma UnmapViewOfFile_mapped base content s :
  views s !! base = Some content ->
  Win32.UnmapViewOfFile base s
  = (true, with_call (EvUnmapViewOfFile base true) (with_views (delete base) s)).
Proof. intros H. unfold Win32.UnmapViewOfFile. by rewrite H. Qed.

Ltac report :=
  rewrite ?bind_eq;
  match goal with |- context [platform.ReportLastError env ?p ?st] =>
    let b := fresh "b" in let out := fresh "out" in let E := fresh "E" in
    destruct (ReportLastError_errs env p st) as (b & out & E); rewrite E; clear E
  end; os_simpl.

(** What is left to do once no view could be mapped: [MapViewOfFile] is
    given the [NULL] that [CreateFileMapping] returned. *)
Ltac nomap_tail hFile content :=
  step_with (MapViewOfFile_invalid NULL);
  rewrite Z.eqb_refl; report;
  step_with (Win32_CloseHandle_closed NULL);
  step_with (Win32_CloseHandle_open hFile (FileObj content));
  eexists; split; [reflexivity|]; os_simpl; intros _; split; [|done];
  rewrite delete_insert_eq, delete_id; [done|apply fresh_key_lookup].

(** [IsDLL] computes [classify]; unless it faults, it leaves the handle
    table and the mapped views as it found them. *)
Lemma IsDLL_run Path s :
  valid_handles s ->
  exists s', platform.IsDLL env Path s = (classify env Path, s')
    /\ (classify env Path <> Crashed ->
        handles s' = handles s /\ views s' = views s).
Proof.
  intros Hvalid. destruct s as [H V le er cs inc ec].
  unfold valid_handles in Hvalid. cbn [handles] in Hvalid.
  assert (H !! NULL = None) as HNULL.
  { destruct (H !! NULL) eqn:E; [|done].
    specialize (Hvalid NULL (mk_is_Some _ _ E)). unfold NULL in Hvalid. lia. }
  unfold platform.IsDLL, classify.
  destruct (env_CreateFile env Path) as [content|e] eqn:HF.
  2:{ step_with (CreateFileA_fails Path e). rewrite Z.eqb_refl. report.
      eexists; split; [reflexivity|]. intros _. by os_simpl. }
  step_with (CreateFileA_ok Path content).
  set (hFile := Win32.fresh_key H).
  pose proof (fresh_key_pos H) as HhFile. fold hFile in HhFile.
  not_eqb.
  destruct content as [|b bs].
  { step_with CreateFileMapping_empty. not_eqb. nomap_tail hFile (@nil byte). }
  destruct (env_CreateFileMapping env) as [[]|e] eqn:HM.
  2:{ step_with (CreateFileMapping_fails hFile b bs e). not_eqb.
      nomap_tail hFile (b :: bs). }
  step_with (CreateFileMapping_ok hFile b bs ()).
  set (hMap := Win32.fresh_key (<[hFile:=_]> H)).
  assert (hFile < hMap) by fresh_lt.
  not_eqb.
  destruct (env_MapViewOfFile env) as [[]|e] eqn:HV.
  2:{ step_with (MapViewOfFile_fails hMap (b :: bs) e). rewrite Z.eqb_refl. report.
      step_with (Win32_CloseHandle_open hMap (MappingObj (b :: bs))).
      step_with (Win32_CloseHandle_open hFile (FileObj (b :: bs))).
      eexists; split; [reflexivity|]. os_simpl. intros _. split; [|done].
      handles_restored. }
  step_with (MapViewOfFile_ok hMap (b :: bs) ()).
  set (base := Win32.fresh_key V).
  pose proof (fresh_key_pos V) as Hbase. fold base in Hbase.
  not_eqb. rewrite ?bind_eq. os_simpl. rewrite lookup_insert_eq.
  cbn [mbind option_bind].
  destruct (platform.inspect_headers (b :: bs)) as [isDLL|].
  2:{ eexists; split; [reflexivity|]. done. }
  step_with (UnmapViewOfFile_mapped base (b :: bs)).
  step_with (Win32_CloseHandle_open hMap (MappingObj (b :: bs))).
  step_with (Win32_CloseHandle_open hFile (FileObj (b :: bs))).
  eexists; split; [reflexivity|]. os_simpl. intros _. split.
  - handles_restored.
  - rewrite delete_insert_eq, delete_id; [done|apply fresh_key_lookup].
Qed.

(** The cases in which [IsDLL] answers [false]. *)
Lemma IsDLL_false_for_unopenable_file Path s e :
  valid_handles s -> env_CreateFile env Path = Fails e ->
  (platform.IsDLL env Path s).1 = Returned false.
Proof.
  intros Hv HF. destruct (IsDLL_run Path s Hv) as (s' & -> & _).
  unfold classify. by rewrite HF.
Qed.

Lemma IsDLL_false_for_empty_file Path s :
  valid_handles s -> env_CreateFile env Path = Ok [] ->
  (platform.IsDLL env Path s).1 = Returned false.
Proof.
  intros Hv HF. destruct (IsDLL_run Path s Hv) as (s' & -> & _).
  unfold classify. by rewrite HF.
Qed.

Lemma IsDLL_false_when_not_mapped Path s content :
  valid_handles s -> env_CreateFile env Path = Ok content ->
  (exists e, env_CreateFileMapping env = Fails e)
  \/ (exists e, env_MapViewOfFile env = Fails e) ->
  (platform.IsDLL env Path s).1 = Returned false.
Proof.
  intros Hv HF Hfail. destruct (IsDLL_run Path s Hv) as (s' & -> & _).
  unfold classify. rewrite HF. cbn [fst].
  destruct content; [done|].
  destruct Hfail as [[e ->]|[e ->]]; [done|].
  by destruct (env_CreateFileMapping env).
Qed.

Lemma view_size_pos b bs : (PAGE_SIZE <= view_size (b :: bs))%nat.
Proof.
  unfold view_size, PAGE_SIZE. cbn [length].
  assert (1 <= (S (length bs) + 4096 - 1) / 4096)%nat.
  { apply Nat.div_le_lower_bound; lia. }
  lia.
Qed.

(** A file whose first two bytes are not [MZ]. *)
Lemma IsDLL_false_for_bad_magic Path s b bs :
  valid_handles s -> env_CreateFile env Path = Ok (b :: bs) ->
  load16 (b :: bs) 0 <> Some IMAGE_DOS_SIGNATURE ->
  (platform.IsDLL env Path s).1 = Returned false.
Proof.
  intros Hv HF Hmagic. destruct (IsDLL_run Path s Hv) as (s' & -> & _).
  unfold classify. rewrite HF. cbn [fst].
  destruct (env_CreateFileMapping env); [|done].
  destruct (env_MapViewOfFile env); [|done].
  unfold platform.inspect_headers.
  pose proof (view_size_pos b bs) as Hsize. unfold PAGE_SIZE in Hsize.
  assert (exists v, load16 (b :: bs) 0 = Some v) as [v Hv16].
  { unfold load16, load8.
    replace ((0 <=? 0) && (0 <? Z.of_nat (view_size (b :: bs)))) with true
      by (symmetry; apply andb_true_iff; split; [done|apply Z.ltb_lt; lia]).
    replace ((0 <=? 0 + 1) && (0 + 1 <? Z.of_nat (view_size (b :: bs)))) with true
      by (symmetry; apply andb_true_iff; split; [done|apply Z.ltb_lt; lia]).
    cbn [mbind option_bind]. by eexists. }
  rewrite Hv16 in *. cbn [mbind option_bind].
  destruct (Z.eqb_spec v IMAGE_DOS_SIGNATURE); [congruence|done].
Qed.

(** C7.  Every call of [Popen], on each of its paths, and, from a
    well-formed handle table, every call of [IsDLL] that returns, leaves the
    handle table and the set of mapped views exactly as it found them: each
    handle and view it acquired has been released. *)
Theorem Popen_and_IsDLL_release_what_they_acquire s :
  (forall Cmd Buf RdE,
      handles (platform.Popen env Cmd Buf RdE s).2 = handles s
      /\ views (platform.Popen env Cmd Buf RdE s).2 = views s)
  /\ (valid_handles s ->
      forall Path b,
        (platform.IsDLL env Path s).1 = Returned b ->
        handles (platform.IsDLL env Path s).2 = handles s
        /\ views (platform.IsDLL env Path s).2 = views s).
Proof.
  split.
  - intros Cmd Buf RdE.
    by destruct (Popen_runs env Cmd Buf RdE s) as (out & tr & s' & -> & ? & ? & _).
  - intros Hvalid Path b. destruct (IsDLL_run Path s Hvalid) as (s' & -> & Hs').
    cbn [fst snd]. intros Hret. apply Hs'. by rewrite Hret.
Qed.

End Inspector.

(** ** Error reporting and library loading *)
Section Diagnostics.
Variable env : Env.

(** What [ReportError] writes does not depend on the message it built. *)
Lemma ReportError_errs Err Prefix s :
  errs (platform.ReportError env Err Prefix s).2 = errs s +:+ pretty Err +:+ endl.
Proof. reflexivity. Qed.

(** The error text of [DLOpen] on a failed load carries the system's
    message. *)
Lemma DLOpen_error_text Path ErrStr s e c m :
  env_LoadLibrary env Path = Fails e ->
  e <> 0%N ->
  env_FormatMessage env e = Some (String c m) ->
  (platform.DLOpen env Path (Some ErrStr) s).1
  = (NULL, Some (rtrim ((ErrStr +:+ "LoadLibrary" +:+ ": returned " +:+ pretty e
                          +:+ " ") +:+ String c m))).
Proof.
  intros HL He HM. unfold platform.DLOpen. rewrite bind_eq.
  unfold Win32.LoadLibraryA. rewrite HL. os_simpl. rewrite Z.eqb_refl.
  rewrite bind_eq. unfold platform.GetLastErrorAsString. rewrite bind_eq. os_simpl.
  apply N.eqb_neq in He. rewrite He. cbn [fst snd].
  unfold platform.GetErrorAsString. by rewrite HM.
Qed.
End Diagnostics.

(** ** The claims on sample runs *)

Lemma valid_handles_boot : valid_handles boot.
Proof. intros k [o Ho]. cbn in Ho. by rewrite lookup_empty in Ho. Qed.





(** A witness of C7: a run of [Popen] and a run of [IsDLL] on a DLL, from
    [boot]. *)
Lemma Popen_and_IsDLL_release_what_they_acquire_witness :
  (handles (platform.Popen (talking eleven_bytes) "cmd" (SmallVector.mk [] 4) true boot).2
   = handles boot
   /\ views (platform.Popen (talking eleven_bytes) "cmd" (SmallVector.mk [] 4) true boot).2
      = views boot)
  /\ (platform.IsDLL (with_file dll_header) "a.dll" boot).1 = Returned true
  /\ (handles (platform.IsDLL (with_file dll_header) "a.dll" boot).2 = handles boot
      /\ views (platform.IsDLL (with_file dll_header) "a.dll" boot).2 = views boot).
Proof.
  split; [|split].
  - exact (proj1 (Popen_and_IsDLL_release_what_they_acquire (talking eleven_bytes) boot)
             "cmd" (SmallVector.mk [] 4) true).
  - vm_compute. reflexivity.
  - refine (proj2 (Popen_and_IsDLL_release_what_they_acquire (with_file dll_header) boot)
              valid_handles_boot "a.dll" true _).
    vm_compute. reflexivity.
Defined.

(** C8.  When [IsDLL] cannot open a file, the system has a message for the
    error, and [GetErrorAsString] builds it, yet what [ReportError] writes to
    [llvm::errs()] is the error number alone: [Message] is never written. *)
Theorem ReportError_writes_the_code_not_the_message :
  env_FormatMessage quiet 2%N
  = Some ("The system cannot find the file specified." +:+ CRLF)
  /\ platform.GetErrorAsString quiet 2%N "" (Some "CreateFile")
     = "CreateFile: returned 2 The system cannot find the file specified."
  /\ errs (platform.ReportError quiet 2%N (Some "CreateFile") boot).2 = "2" +:+ endl
  /\ errs (platform.IsDLL quiet "missing.dll" boot).2 = "2" +:+ endl.
Proof. vm_compute. repeat split; reflexivity. Qed.

(** C9.  On a file that starts with [MZ] and whose [e_lfanew] points a
    megabyte past its 64 bytes, [IsDLL] reads the NT signature outside the
    mapped view: it faults instead of returning a boolean. *)
Theorem IsDLL_faults_on_stray_e_lfanew :
  load16 stray_header 0 = Some IMAGE_DOS_SIGNATURE
  /\ to_LONG <$> load32 stray_header e_lfanew_offset = Some 0x100000
  /\ load32 stray_header 0x100000 = None
  /\ (platform.IsDLL (with_file stray_header) "stray.dll" boot).1 = Crashed.
Proof. vm_compute. repeat split; reflexivity. Qed.

(** ** Sample runs of the runner *)

(** Eleven bytes read in chunks of four: three full chunks' worth arrive as
    reads of 4, 4, 2 and 1 bytes, and the buffer holds them all. *)
Example Popen_eleven_bytes :
  (fun r => (r.1, SmallVector.elems r.2))
    <$> (platform.Popen (talking eleven_bytes) "cmd" (SmallVector.mk [x41] 4) true boot).1
  = Some (true, [x30; x31; x32; x33; x34; x35; x36; x37; x38; x39; x0a]).
Proof. vm_compute. reflexivity. Qed.

(** No child, no output. *)
Example Popen_without_child :
  (platform.Popen no_spawn "cmd" (SmallVector.mk [x41] 4) true boot).1
  = Some (false, SmallVector.mk [] 4).
Proof. vm_compute. reflexivity. Qed.

(** The loop stops on [dwRead = 0]: what follows a zero-length write is not
    read. *)
Example Popen_stops_at_zero_length_write :
  (fun r => (r.1, SmallVector.elems r.2))
    <$> (platform.Popen (talking [Data [x30]; Data []; Data [x31]]) "cmd"
           (SmallVector.mk [] 4) false boot).1
  = Some (true, [x30]).
Proof. vm_compute. reflexivity. Qed.

(** * More of the file: paths, the registry and the tool chain *)

(** ** Strings *)

Lemma str_app_cons c s t : String c s +:+ t = String c (s +:+ t).
Proof. reflexivity. Qed.

Lemma str_app_nil_l s : "" +:+ s = s.
Proof. reflexivity. Qed.

Lemma str_app_nil_r s : s +:+ "" = s.
Proof. induction s as [|c s IH]; [done|]. by rewrite str_app_cons, IH. Qed.

Lemma str_app_assoc (s t u : string) : (s +:+ t) +:+ u = s +:+ t +:+ u.
Proof. induction s as [|c s IH]; [done|]. by rewrite !str_app_cons, IH. Qed.

Lemma str_length_app (s t : string) :
  String.length (s +:+ t) = (String.length s + String.length t)%nat.
Proof. induction s as [|c s IH]; [done|]. rewrite str_app_cons. simpl. by rewrite IH. Qed.

Lemma back_snoc s c : Str.back (s +:+ String c "") = Some c.
Proof.
  induction s as [|a s IH]; [done|].
  rewrite str_app_cons. simpl. rewrite IH.
  destruct s; reflexivity.
Qed.

Lemma pop_back_snoc s c : Str.pop_back (s +:+ String c "") = s.
Proof.
  induction s as [|a s IH]; [done|].
  rewrite str_app_cons. simpl. rewrite IH.
  destruct s; reflexivity.
Qed.

Lemma back_pop_back s c :
  Str.back s = Some c -> s = Str.pop_back s +:+ String c "".
Proof.
  induction s as [|a s IH]; [done|].
  simpl. destruct s as [|b s]; [by intros [= ->]|].
  intros H. rewrite str_app_cons. f_equal. by apply IH.
Qed.

Lemma back_None s : Str.back s = None -> s = "".
Proof.
  induction s as [|a s IH]; [done|].
  simpl. destruct s; [done|]. intros H. by specialize (IH H).
Qed.

Lemma separators_snoc n : String kSep (separators n) = separators n +:+ String kSep "".
Proof. induction n as [|n IH]; [done|]. simpl. rewrite str_app_cons. by rewrite <- IH. Qed.

Lemma strip_separators_spec n Path :
  (String.length Path <= n)%nat ->
  exists k,
    Path = windows.strip_separators n Path +:+ separators k
    /\ Str.back (windows.strip_separators n Path) <> Some kSep.
Proof.
  revert Path. induction n as [|n IH]; intros Path Hn.
  - destruct Path; [|simpl in Hn; lia]. by exists 0%nat.
  - simpl. destruct (Str.empty Path) eqn:He; cbn [negb andb].
    { destruct Path; [|done]. by exists 0%nat. }
    case_bool_decide as Hb.
    + pose proof (back_pop_back _ _ Hb) as Hs.
      destruct (IH (Str.pop_back Path)) as (k & Hk & Hne).
      { assert (String.length Path = S (String.length (Str.pop_back Path))) as HL.
        { rewrite Hs at 1. rewrite str_length_app. simpl. lia. }
        lia. }
      exists (S k). split; [|done].
      rewrite Hs at 1. rewrite Hk at 1.
      rewrite str_app_assoc. f_equal. simpl. by rewrite <- separators_snoc.
    + exists 0%nat. by rewrite str_app_nil_r.
Qed.

Lemma strip_separators_done n Path :
  Str.back Path <> Some kSep -> windows.strip_separators n Path = Path.
Proof.
  intros H. destruct n; [done|]. simpl.
  rewrite bool_decide_eq_false_2 by done. by rewrite andb_false_r.
Qed.

(** X1. Called without [Append], [fixupPath] removes the separators that
    end the path, all of them and nothing else: the path is the result
    followed by separators only, and the result does not end in one.  A
    second call changes nothing. *)
Theorem fixupPath_strips_the_trailing_separators (Path : string) :
  (exists k, Path = windows.fixupPath Path None +:+ separators k)
  /\ Str.back (windows.fixupPath Path None) <> Some kSep
  /\ windows.fixupPath (windows.fixupPath Path None) None
     = windows.fixupPath Path None.
Proof.
  unfold windows.fixupPath.
  destruct (strip_separators_spec (String.length Path) Path) as (k & Hk & Hne);
    [lia|].
  split; [by exists k|]. split; [done|].
  by apply strip_separators_done.
Qed.

(** X2. Called with [Append], [fixupPath] leaves an empty path empty; to
    any other path it appends [Append] with exactly one separator in
    between, adding the separator only when the path does not end in one. *)
Theorem fixupPath_appends_with_one_separator (Path Append : string) :
  windows.fixupPath "" (Some Append) = ""
  /\ (Path <> "" ->
      exists stem,
        windows.fixupPath Path (Some Append)
        = stem +:+ String kSep "" +:+ Append
        /\ (Path = stem \/ Path = stem +:+ String kSep "")
        /\ (Path = stem -> Str.back Path <> Some kSep)).
Proof.
  split; [done|]. intros HP. unfold windows.fixupPath.
  destruct (Str.empty Path) eqn:He; [by destruct Path|].
  case_bool_decide as Hb; cbn [negb].
  - exists (Str.pop_back Path). pose proof (back_pop_back _ _ Hb) as Hs.
    split; [|split].
    + rewrite Hs at 1. by rewrite str_app_assoc.
    + by right.
    + intros Heq. rewrite Heq in Hs at 1.
      assert (String.length (Str.pop_back Path)
              = String.length (Str.pop_back Path +:+ String kSep "")) as HL
        by (by rewrite <- Hs).
      rewrite str_length_app in HL. simpl in HL. lia.
  - exists Path. split; [by rewrite str_app_assoc|]. split; [by left|done].
Qed.

Lemma starts_with_app Sub s : Str.starts_with Sub (Sub +:+ s) = true.
Proof.
  induction Sub as [|c Sub IH]; [done|].
  rewrite str_app_cons. simpl. rewrite IH. by rewrite Ascii.eqb_refl.
Qed.

Lemma starts_with_inv Sub s :
  Str.starts_with Sub s = true -> exists after, s = Sub +:+ after.
Proof.
  revert s. induction Sub as [|c Sub IH]; intros s H.
  - by exists s.
  - destruct s as [|d s]; [done|]. simpl in H.
    apply andb_prop in H as [Hc Hs]. apply Ascii.eqb_eq in Hc as ->.
    destruct (IH _ Hs) as [after ->]. by exists after.
Qed.

Lemma str_take_app_length s t : Str.take (String.length s) (s +:+ t) = s.
Proof. induction s as [|c s IH]; [by destruct t|]. rewrite str_app_cons. simpl. by rewrite IH. Qed.

Lemma strstr_Some Value Sub i :
  Str.strstr Value Sub = Some i ->
  (exists after, Value = Str.take i Value +:+ Sub +:+ after)
  /\ String.length (Str.take i Value) = i
  /\ forall j, occurs_at Sub Value j -> (i <= j)%nat.
Proof.
  revert i. induction Value as [|c V IH]; intros i.
  - simpl. destruct (Str.starts_with Sub "") eqn:E; [|done].
    intros [= <-]. split; [|split; [done|intros; lia]].
    destruct (starts_with_inv _ _ E) as [after Ha]. exists after. done.
  - cbn [Str.strstr]. destruct (Str.starts_with Sub (String c V)) eqn:E.
    + intros [= <-]. split; [|split; [done|intros; lia]].
      destruct (starts_with_inv _ _ E) as [after Ha]. exists after. done.
    + destruct (Str.strstr V Sub) as [i'|] eqn:E'; [|done].
      simpl. intros [= <-]. destruct (IH i' eq_refl) as ((after & Ha) & HL & Hmin).
      split; [|split].
      * exists after. simpl. rewrite str_app_cons. by rewrite <- Ha.
      * simpl. by rewrite HL.
      * intros j (before & after' & Hv & Hlen).
        destruct before as [|b before].
        { rewrite str_app_nil_l in Hv. rewrite Hv in E. by rewrite starts_with_app in E. }
        rewrite str_app_cons in Hv. injection Hv as -> Hv.
        simpl in Hlen. subst j.
        assert (i' <= String.length before)%nat; [|lia].
        apply Hmin. by exists before, after'.
Qed.

Lemma strstr_None Value Sub :
  Str.strstr Value Sub = None -> forall j, ~ occurs_at Sub Value j.
Proof.
  induction Value as [|c V IH].
  - simpl. destruct (Str.starts_with Sub "") eqn:E; [done|].
    intros _ j (before & after & Hv & _).
    destruct before; [|done]. rewrite str_app_nil_l in Hv. rewrite Hv in E.
    by rewrite starts_with_app in E.
  - cbn [Str.strstr]. destruct (Str.starts_with Sub (String c V)) eqn:E; [done|].
    destruct (Str.strstr V Sub) eqn:E'; [done|]. intros _ j (before & after & Hv & _).
    destruct before as [|b before].
    { rewrite str_app_nil_l in Hv. rewrite Hv in E. by rewrite starts_with_app in E. }
    rewrite str_app_cons in Hv. injection Hv as -> Hv.
    apply (IH eq_refl (String.length before)). by exists before, after.
Qed.

(** X3. [trimString] cuts [Value] at the first occurrence of [Sub]: if
    [Sub] occurs, [Out] is the text before its first occurrence, so that
    [Value] is [Out], then [Sub], then the rest, and [Sub] occurs nowhere
    earlier; if [Sub] does not occur, [Out] is [Value]. *)
Theorem trimString_cuts_at_the_first_occurrence (Value Sub : string) :
  let Out := windows.trimString Value Sub in
  ((exists after, Value = Out +:+ Sub +:+ after)
   /\ forall j, occurs_at Sub Value j -> (String.length Out <= j)%nat)
  \/ (Out = Value /\ forall j, ~ occurs_at Sub Value j).
Proof.
  unfold windows.trimString.
  destruct (Str.strstr Value Sub) as [i|] eqn:E; cbv zeta.
  - left. destruct (strstr_Some _ _ _ E) as (Ha & HL & Hmin).
    split; [done|]. intros j Hj. rewrite HL. by apply Hmin.
  - right. split; [done|]. by apply strstr_None.
Qed.

(** ** The error text of a failed load *)

Lemma rtrim_app a b : rtrim b <> "" -> rtrim (a +:+ b) = a +:+ rtrim b.
Proof.
  intros Hb. induction a as [|c a IH]; [done|].
  rewrite !str_app_cons. simpl. rewrite IH.
  destruct (a +:+ rtrim b) eqn:E; [|done].
  destruct a; [|done]. by rewrite str_app_nil_l in E.
Qed.

(** X4. When the library cannot be loaded and [Err] is given, [DLOpen]
    returns the null pointer and appends to [Err] the text
    [LoadLibrary: returned <code> <message>], where the message is the one
    the system has for the code, without the line end that follows it. *)
Theorem DLOpen_failure_appends_the_system_message
    (env : Env) (Path ErrStr : string) (s : OS) (e : N) (msg : string) :
  env_LoadLibrary env Path = Fails e ->
  e <> 0%N ->
  env_FormatMessage env e = Some msg ->
  rtrim msg <> "" ->
  (platform.DLOpen env Path (Some ErrStr) s).1
  = (NULL, Some (ErrStr +:+ "LoadLibrary: returned " +:+ pretty e +:+ " "
                   +:+ rtrim msg)).
Proof.
  intros HL He HM Hmsg. unfold platform.DLOpen. rewrite bind_eq.
  unfold Win32.LoadLibraryA. rewrite HL. os_simpl. rewrite Z.eqb_refl.
  rewrite bind_eq. unfold platform.GetLastErrorAsString. rewrite bind_eq. os_simpl.
  apply N.eqb_neq in He. rewrite He. cbn [fst snd].
  unfold platform.GetErrorAsString. rewrite HM.
  destruct msg as [|c m]; [done|].
  rewrite rtrim_app by done. f_equal. f_equal.
  by rewrite !str_app_assoc.
Qed.

Lemma DLOpen_failure_appends_the_system_message_witness :
  (platform.DLOpen quiet "missing.dll" (Some "cling: ") boot).1
  = (NULL, Some ("cling: LoadLibrary: returned 126 The specified module could not be found.")).
Proof.
  exact (DLOpen_failure_appends_the_system_message quiet "missing.dll" "cling: "
           boot 126%N _ eq_refl ltac:(discriminate) eq_refl ltac:(vm_compute; discriminate)).
Defined.

(** ** The Windows 10 SDK *)

Section SDK.
Variable host : Host.

Lemma compare_Gt_not_le a b : String.compare a b = Gt <-> ~ String.le a b.
Proof.
  unfold String.le, String.leb.
  destruct (String.compare a b); simpl; split; intros H; try done;
    try (exfalso; apply H; exact I).
  intros [].
Qed.

Lemma elem_of_sdk_versions name entries :
  name ∈ sdk_versions host entries <->
  String.prefix "10." name = true
  /\ exists p, p ∈ entries /\ host_is_directory host p = true
               /\ host_path_filename host p = name.
Proof.
  unfold sdk_versions. rewrite list_elem_of_filter, list_elem_of_fmap.
  split.
  - intros (Hp & p & -> & Hin). apply list_elem_of_filter in Hin as [Hd Hin].
    split; [done|]. by exists p.
  - intros (Hp & p & Hin & Hd & <-). split; [done|]. exists p. split; [done|].
    apply list_elem_of_filter. done.
Qed.

(** The loop, when no entry matches the version asked for: it ends with
    the greatest of the starting version and the versions listed. *)
Lemma scan_include_greatest entries Ucrt P0 V0 :
  named host Ucrt entries = [] ->
  exists P best,
    windows.scan_include host entries Ucrt P0 V0 = (false, (P, best))
    /\ String.le V0 best
    /\ (forall c, c ∈ sdk_versions host entries -> String.le c best)
    /\ ((best = V0 /\ P = P0)
        \/ (best ∈ sdk_versions host entries /\ P ∈ entries
            /\ host_is_directory host P = true
            /\ host_path_filename host P = best)).
Proof.
  revert P0 V0. induction entries as [|p entries IH]; intros P0 V0 Hno.
  - exists P0, V0. split; [done|]. split; [done|]. split; [|by left].
    intros c Hc. apply elem_of_sdk_versions in Hc as (_ & q & Hq & _).
    by apply elem_of_nil in Hq.
  - assert (named host Ucrt entries = []
            /\ ~ (host_is_directory host p = true /\ host_path_filename host p = Ucrt))
      as [Hno' Hp].
    { unfold named in *. rewrite filter_cons in Hno.
      destruct (decide _) as [Hd|Hd]; [done|]. done. }
    cbn [windows.scan_include].
    destruct (host_is_directory host p) eqn:Hdir; cbn [negb].
    2:{ destruct (IH P0 V0 Hno') as (P & best & Hrun & Hle & Hmax & Hwhich).
        exists P, best. split; [done|]. split; [done|]. split.
        - intros c Hc. apply Hmax. apply elem_of_sdk_versions in Hc as (Hpre & q & Hq & Hqd & Hqn).
          apply elem_of_sdk_versions. split; [done|]. exists q.
          apply elem_of_cons in Hq as [->|Hq]; [congruence|done].
        - destruct Hwhich as [?|(Hb & HP & HPd & HPn)]; [by left|right].
          split; [|split; [by apply elem_of_cons; right|done]].
          apply elem_of_sdk_versions in Hb as (Hpre & q & Hq & Hqd & Hqn).
          apply elem_of_sdk_versions. split; [done|]. exists q.
          split; [by apply elem_of_cons; right|done]. }
    assert (String.eqb (host_path_filename host p) Ucrt = false) as ->.
    { apply String.eqb_neq. intros Heq. apply Hp. done. }
    cbn [orb].
    destruct (String.prefix "10." (host_path_filename host p)) eqn:Hpre; cbn [andb].
    + case_bool_decide as Hgt.
      * apply compare_Gt_not_le in Hgt.
        destruct (IH p (host_path_filename host p) Hno')
          as (P & best & Hrun & Hle & Hmax & Hwhich).
        exists P, best. split; [done|].
        assert (String.le V0 (host_path_filename host p)) as HV.
        { destruct (total String.le V0 (host_path_filename host p)); [done|].
          by destruct Hgt. }
        split; [by etrans|]. split.
        -- intros c Hc. apply elem_of_sdk_versions in Hc as (Hcp & q & Hq & Hqd & Hqn).
           apply elem_of_cons in Hq as [->|Hq].
           ++ by rewrite <- Hqn.
           ++ apply Hmax. apply elem_of_sdk_versions. split; [done|]. by exists q.
        -- right. destruct Hwhich as [[-> ->]|(Hb & HP & HPd & HPn)].
           ++ split; [|split; [by apply elem_of_cons; left|done]].
              apply elem_of_sdk_versions. split; [done|]. exists p.
              split; [by apply elem_of_cons; left|done].
           ++ split; [|split; [by apply elem_of_cons; right|done]].
              apply elem_of_sdk_versions in Hb as (Hbp & q & Hq & Hqd & Hqn).
              apply elem_of_sdk_versions. split; [done|]. exists q.
              split; [by apply elem_of_cons; right|done].
      * assert (String.le (host_path_filename host p) V0) as HV.
        { destruct (decide (String.le (host_path_filename host p) V0)) as [|Hn];
            [done|]. by apply compare_Gt_not_le in Hn. }
        destruct (IH P0 V0 Hno') as (P & best & Hrun & Hle & Hmax & Hwhich).
        exists P, best. split; [done|]. split; [done|]. split.
        -- intros c Hc. apply elem_of_sdk_versions in Hc as (Hcp & q & Hq & Hqd & Hqn).
           apply elem_of_cons in Hq as [->|Hq].
           ++ rewrite <- Hqn. by etrans.
           ++ apply Hmax. apply elem_of_sdk_versions. split; [done|]. by exists q.
        -- destruct Hwhich as [?|(Hb & HP & HPd & HPn)]; [by left|right].
           split; [|split; [by apply elem_of_cons; right|done]].
           apply elem_of_sdk_versions in Hb as (Hbp & q & Hq & Hqd & Hqn).
           apply elem_of_sdk_versions. split; [done|]. exists q.
           split; [by apply elem_of_cons; right|done].
    + destruct (IH P0 V0 Hno') as (P & best & Hrun & Hle & Hmax & Hwhich).
      exists P, best. split; [done|]. split; [done|]. split.
      * intros c Hc. apply elem_of_sdk_versions in Hc as (Hcp & q & Hq & Hqd & Hqn).
        apply elem_of_cons in Hq as [->|Hq]; [congruence|].
        apply Hmax. apply elem_of_sdk_versions. split; [done|]. by exists q.
      * destruct Hwhich as [?|(Hb & HP & HPd & HPn)]; [by left|right].
        split; [|split; [by apply elem_of_cons; right|done]].
        apply elem_of_sdk_versions in Hb as (Hbp & q & Hq & Hqd & Hqn).
        apply elem_of_sdk_versions. split; [done|]. exists q.
        split; [by apply elem_of_cons; right|done].
Qed.

(** The loop, when an entry matches: it is left at the first such entry,
    whatever was found before. *)
Lemma scan_include_match entries Ucrt P0 V0 p rest :
  named host Ucrt entries = p :: rest ->
  windows.scan_include host entries Ucrt P0 V0 = (true, (p, Ucrt)).
Proof.
  revert P0 V0. induction entries as [|q entries IH]; intros P0 V0 Hn; [done|].
  unfold named in Hn. rewrite filter_cons in Hn.
  cbn [windows.scan_include].
  destruct (decide _) as [[Hd Hf]|Hd].
  - injection Hn as -> _. rewrite Hd. cbn [negb].
    rewrite Hf, String.eqb_refl. done.
  - destruct (host_is_directory host q) eqn:Hdir; cbn [negb]; [|by apply IH].
    assert (String.eqb (host_path_filename host q) Ucrt = false) as ->.
    { apply String.eqb_neq. intros Heq. by apply Hd. }
    cbn [orb]. destruct (_ && _); by apply IH.
Qed.

(** X5. Asked for a version that is there, [getWindows10SDKVersion]
    returns true with that version and the path of the first directory
    entry of that name, whatever other versions the [Include] directory
    holds. *)
Theorem getWindows10SDKVersion_prefers_the_version_asked_for
    (SDKPath SDKVersion p : string) (rest : list string) :
  named host SDKVersion
    (host_directory host (host_path_append host SDKPath "Include")) = p :: rest ->
  windows.getWindows10SDKVersion host SDKPath SDKVersion = (true, (p, SDKVersion)).
Proof.
  intros Hn. unfold windows.getWindows10SDKVersion.
  by rewrite (scan_include_match _ _ _ _ _ _ Hn).
Qed.

(** X6. Asked for a version that is not there, [getWindows10SDKVersion]
    settles for the greatest one: of the sub-directories of [Include] whose
    name starts with [10.] it returns the name that is last in the
    lexicographic order, with the path of an entry of that name, and true;
    if there is no such sub-directory it returns false, an empty
    version and the path it was given. *)
Theorem getWindows10SDKVersion_falls_back_to_the_greatest
    (SDKPath SDKVersion : string) :
  let entries := host_directory host (host_path_append host SDKPath "Include") in
  named host SDKVersion entries = [] ->
  exists P best,
    windows.getWindows10SDKVersion host SDKPath SDKVersion
    = (bool_decide (sdk_versions host entries <> []), (P, best))
    /\ (forall c, c ∈ sdk_versions host entries -> String.le c best)
    /\ (sdk_versions host entries = [] -> best = "" /\ P = SDKPath)
    /\ (sdk_versions host entries <> [] ->
        best ∈ sdk_versions host entries /\ P ∈ entries
        /\ host_is_directory host P = true
        /\ host_path_filename host P = best).
Proof.
  cbv zeta. unfold windows.getWindows10SDKVersion.
  generalize (host_directory host (host_path_append host SDKPath "Include")).
  intros entries Hn.
  destruct (scan_include_greatest entries SDKVersion SDKPath "" Hn)
    as (P & best & -> & _ & Hmax & Hwhich).
  exists P, best. cbn [fst snd].
  assert (forall c, c ∈ sdk_versions host entries -> c <> "") as Hne.
  { intros c Hc ->. by apply elem_of_sdk_versions in Hc as [Hc _]. }
  destruct Hwhich as [[-> ->]|(Hb & HP & HPd & HPn)].
  - assert (sdk_versions host entries = []) as Hnil.
    { destruct (sdk_versions host entries) as [|c l] eqn:E; [done|].
      assert (String.le c "") as Hle by (apply Hmax; rewrite ?E; by left).
      destruct c; [|done]. exfalso. apply (Hne ""); [|done]. rewrite ?E. by left. }
    rewrite Hnil. rewrite bool_decide_eq_false_2 by (intros H; by apply H).
    split; [done|]. split; [by intros c Hc; apply elem_of_nil in Hc|].
    split; [done|]. intros H. by destruct H.
  - assert (sdk_versions host entries <> []) as Hnn.
    { intros E. rewrite E in Hb. by apply elem_of_nil in Hb. }
    rewrite (bool_decide_eq_true_2 _ Hnn).
    assert (Str.empty best = false) as ->.
    { specialize (Hne best Hb). by destruct best. }
    split; [done|]. split; [done|]. split; [done|]. done.
Qed.
End SDK.

Lemma getWindows10SDKVersion_prefers_the_version_asked_for_witness :
  windows.getWindows10SDKVersion
    (with_directory ["10.0.10240.0"; "wdf"; "10.0.14393.0"]) "C:\Kits\10" "10.0.10240.0"
  = (true, ("10.0.10240.0", "10.0.10240.0")).
Proof.
  exact (getWindows10SDKVersion_prefers_the_version_asked_for
           (with_directory ["10.0.10240.0"; "wdf"; "10.0.14393.0"])
           "C:\Kits\10" "10.0.10240.0" "10.0.10240.0" [] eq_refl).
Defined.

Lemma getWindows10SDKVersion_falls_back_to_the_greatest_witness :
  exists P best,
    windows.getWindows10SDKVersion
      (with_directory ["10.0.10240.0"; "wdf"; "10.0.14393.0"]) "C:\Kits\10" "10.0.9.0"
    = (true, (P, best))
    /\ best = "10.0.14393.0".
Proof.
  destruct (getWindows10SDKVersion_falls_back_to_the_greatest
              (with_directory ["10.0.10240.0"; "wdf"; "10.0.14393.0"])
              "C:\Kits\10" "10.0.9.0" eq_refl)
    as (P & best & Hrun & Hmax & _ & Hin).
  exists P, best. split; [exact Hrun|].
  vm_compute in Hrun. by injection Hrun as <- <-.
Defined.

(** ** Running a search step by step *)

Lemma bindS_eq {A B} (m : MS A) (k : A -> MS B) s :
  bindS m k s = k (m s).1 (m s).2.
Proof. unfold bindS. by destruct (m s). Qed.

Lemma only_logs_refl s : only_logs s s.
Proof.
  exists "". destruct s as [[] ?]. unfold with_os, with_errs. cbn.
  by rewrite str_app_nil_r.
Qed.

Lemma only_logs_trans s1 s2 s3 :
  only_logs s1 s2 -> only_logs s2 s3 -> only_logs s1 s3.
Proof.
  intros [t1 ->] [t2 ->]. exists (t1 +:+ t2).
  unfold with_os, with_errs. cbn. by rewrite str_app_assoc.
Qed.

Lemma only_logs_keys s s' : only_logs s s' -> keys s' = keys s.
Proof. by intros [t ->]. Qed.

Lemma logs_only_ret {A} (a : A) : logs_only (retS a).
Proof. intros s. apply only_logs_refl. Qed.

Lemma logs_only_bind {A B} (m : MS A) (k : A -> MS B) :
  logs_only m -> (forall a, logs_only (k a)) -> logs_only (bindS m k).
Proof.
  intros Hm Hk s. rewrite bindS_eq. eapply only_logs_trans; [apply Hm|apply Hk].
Qed.

Lemma returns_ret {A} (r : Outcome A) : logs_only_if_it_returns (retS r).
Proof. intros s. cbn. destruct r; [apply only_logs_refl|done]. Qed.

Lemma returns_bindS {A B} (m : MS A) (k : A -> MS (Outcome B)) :
  logs_only m -> (forall a, logs_only_if_it_returns (k a)) ->
  logs_only_if_it_returns (bindS m k).
Proof.
  intros Hm Hk s. rewrite bindS_eq. specialize (Hk (m s).1 (m s).2).
  destruct (k _ _).1; [|done]. eapply only_logs_trans; [apply Hm|done].
Qed.

Lemma returns_bindO {A B} (m : MS (Outcome A)) (k : A -> MS (Outcome B)) :
  logs_only_if_it_returns m -> (forall a, logs_only_if_it_returns (k a)) ->
  logs_only_if_it_returns (bindO m k).
Proof.
  intros Hm Hk s. unfold bindO. rewrite bindS_eq. specialize (Hm s).
  destruct (m s).1 as [a|]; [|done]. specialize (Hk a (m s).2).
  destruct (k _ _).1; [|done]. by eapply only_logs_trans.
Qed.

Lemma logs_only_errs (f : string) :
  logs_only (in_os (modify (with_errs (fun out => out +:+ f)))).
Proof. intros s. by exists f. Qed.

Lemma logs_only_when b (m : MS unit) : logs_only m -> logs_only (whenS b m).
Proof. intros Hm. destruct b; [done|apply logs_only_ret]. Qed.

Section Registry.
Variable env : Env.
Variable host : Host.

Lemma logs_only_ReportError e p :
  logs_only (in_os (platform.ReportError env e p)).
Proof. intros s. by exists (pretty e +:+ endl). Qed.

Lemma logs_only_logSearch Name Value Found :
  logs_only (windows.logSearch Name Value Found).
Proof.
  intros s. unfold windows.logSearch. destruct Found as [F|].
  - exists ("Found " +:+ Name +:+ " '" +:+ Value +:+ "' that matches "
              +:+ F +:+ " version" +:+ endl). done.
  - exists (Name +:+ " '" +:+ Value +:+ "' not found." +:+ endl). done.
Qed.

(** The calls that look at the registry leave the state alone. *)
Lemma RegEnumKeyExA_state hKey index size s :
  (Reg.RegEnumKeyExA host hKey index size s).2 = s.
Proof. unfold Reg.RegEnumKeyExA. repeat case_match; done. Qed.

Lemma RegQueryValueExW_size_state hKey name s :
  (Reg.RegQueryValueExW_size host hKey name s).2 = s.
Proof. unfold Reg.RegQueryValueExW_size. repeat case_match; done. Qed.

Lemma RegQueryValueExW_data_state hKey name cb s :
  (Reg.RegQueryValueExW_data host hKey name cb s).2 = s.
Proof. unfold Reg.RegQueryValueExW_data. repeat case_match; done. Qed.

Lemma logs_only_readFullStringValue hkey valueName value :
  logs_only (windows.readFullStringValue env host hkey valueName value).
Proof.
  intros s. unfold windows.readFullStringValue.
  destruct (match valueName with Some _ => _ | None => _ end) as [W|];
    [|apply only_logs_refl].
  rewrite bindS_eq, RegQueryValueExW_size_state.
  destruct (Reg.RegQueryValueExW_size _ _ _ _).1 as [[type valueSize]|e].
  - destruct (_ || _); [apply only_logs_refl|].
    rewrite bindS_eq, RegQueryValueExW_data_state.
    destruct (Reg.RegQueryValueExW_data _ _ _ _ _).1 as [data|e].
    + apply only_logs_refl.
    + rewrite bindS_eq. apply logs_only_ReportError.
  - rewrite bindS_eq. apply logs_only_ReportError.
Qed.

(** Opening a key either fails, or adds a handle that was not in use. *)
Lemma RegOpenKeyExA_cases hKey sub s :
  (exists e, Reg.RegOpenKeyExA host hKey sub s = (Fails e, s))
  \/ (exists h p,
        Reg.RegOpenKeyExA host hKey sub s
        = (Ok (Opened h), with_keys <[h := p]> s)
        /\ keys s !! h = None).
Proof.
  unfold Reg.RegOpenKeyExA. destruct (Reg.key_of hKey s) as [[r p]|].
  - destruct (host_RegOpenKey _ _).
    + right. eexists _, _. split; [done|]. apply fresh_key_lookup.
    + left. by eexists.
  - left. by eexists.
Qed.

Lemma RegCloseKey_restores h p s s' :
  keys s !! h = None ->
  only_logs (with_keys <[h := p]> s) s' ->
  only_logs s (Reg.RegCloseKey (Opened h) s').2.
Proof.
  intros Hh [t ->]. exists t. unfold Reg.RegCloseKey, with_keys, with_os. cbn.
  by rewrite delete_insert_id.
Qed.

(** A key opened, read and closed again. *)
Lemma logs_only_read_and_close {A} hKey sub valueName value
    (k : bool * string -> MS A) (other : N -> MS A) :
  (forall r, logs_only (k r)) -> (forall e, logs_only (other e)) ->
  logs_only
    (bindS (Reg.RegOpenKeyExA host hKey sub) (fun r =>
       match r with
       | Ok hKey =>
           bindS (windows.readFullStringValue env host hKey valueName value)
             (fun v => bindS (Reg.RegCloseKey hKey) (fun _ => k v))
       | Fails e => other e
       end)).
Proof.
  intros Hk Ho s. rewrite bindS_eq.
  destruct (RegOpenKeyExA_cases hKey sub s) as [[e ->]|(h & p & -> & Hh)]; cbn [fst snd].
  - apply Ho.
  - rewrite !bindS_eq. eapply only_logs_trans; [|apply Hk].
    eapply RegCloseKey_restores; [done|]. apply logs_only_readFullStringValue.
Qed.

Lemma returns_enum_loop fuel hTopKey nextKey valueName index size bestValue
    returnValue outValue :
  logs_only_if_it_returns
    (windows.enum_loop env host fuel hTopKey nextKey valueName index size
       bestValue returnValue outValue).
Proof.
  revert index size bestValue returnValue outValue.
  induction fuel as [|fuel IH]; intros index size bestValue returnValue outValue.
  { apply returns_ret. }
  cbn [windows.enum_loop]. intros s. rewrite bindS_eq, RegEnumKeyExA_state.
  destruct (Reg.RegEnumKeyExA _ _ _ _ _).1 as [keyName|e]; [|apply returns_ret].
  destruct (windows.skip_to_digit keyName) as [[|d ep]|]; [apply IH| |done].
  destruct (windows.skip_number ep); [|done].
  destruct (windows.greater _ _); [|apply IH].
  destruct (_ <? _)%nat; [done|].
  rewrite bindS_eq.
  destruct (RegOpenKeyExA_cases hTopKey (Some (keyName +:+ nextKey)) s)
    as [[e ->]|(h & p & -> & Hh)]; cbn [fst snd]; [apply IH|].
  rewrite !bindS_eq.
  match goal with |- context [windows.enum_loop env host fuel ?a ?b ?c ?d ?e ?f ?g ?h ?s'] =>
    pose proof (IH d e f g h s') as Hrec;
    destruct (windows.enum_loop env host fuel a b c d e f g h s').1; [|done] end.
  eapply only_logs_trans; [|exact Hrec].
  eapply RegCloseKey_restores; [done|]. apply logs_only_readFullStringValue.
Qed.

Lemma returns_version_search hRootKey subKey placeHolder valueName outValue :
  logs_only_if_it_returns
    (windows.version_search env host hRootKey subKey placeHolder valueName outValue).
Proof.
  unfold windows.version_search. cbv zeta.
  destruct (256 <=? _); [apply returns_ret|].
  intros s. rewrite bindS_eq.
  match goal with |- context [Reg.RegOpenKeyExA host ?k ?sub s] =>
    destruct (RegOpenKeyExA_cases k sub s) as [[e ->]|(h & p & -> & Hh)] end;
    cbn [fst snd].
  - apply (returns_bindS _ _ (logs_only_ReportError _ _) (fun _ => returns_ret _)).
  - unfold bindO. rewrite bindS_eq.
    match goal with |- context [windows.enum_loop env host ?n ?a ?b ?c ?d ?e ?f ?g ?h ?s'] =>
      pose proof (returns_enum_loop n a b c d e f g h s') as Hrec;
      destruct (windows.enum_loop env host n a b c d e f g h s').1; [|done] end.
    rewrite bindS_eq. cbn [retS fst snd].
    eapply RegCloseKey_restores; done.
Qed.

Lemma returns_GetSystemRegistryString keyPath valueName outValue :
  logs_only_if_it_returns
    (windows.GetSystemRegistryString env host keyPath valueName outValue).
Proof.
  unfold windows.GetSystemRegistryString. cbv zeta.
  destruct (if Str.strncmp keyPath _ _ then _ else _) as [[hRootKey subKey]|];
    [|apply returns_ret].
  destruct (match subKey with EmptyString => _ | String _ _ => _ end) as [subKey'|];
    [|apply returns_ret].
  destruct (Str.strstr subKey' _); [apply returns_version_search|].
  destruct (if Str.empty subKey' then _ else _) as [sub name].
  intros s.
  pose proof (logs_only_read_and_close (Predefined hRootKey) sub name outValue
    (fun v => retS (Returned v))
    (fun e => bindS (in_os (platform.ReportError env e (Some "RegOpenKeyEx")))
                (fun _ => retS (Returned (false, outValue))))) as H.
  specialize (H (fun r => logs_only_ret _)
    (fun e => logs_only_bind _ _ (logs_only_ReportError _ _) (fun _ => logs_only_ret _)) s).
  destruct (_ s).1; [exact H|done].
Qed.

Lemma returns_getVSRegistryString Product VSVersion Path Verbose :
  logs_only_if_it_returns
    (windows.getVSRegistryString env host Product VSVersion Path Verbose).
Proof.
  unfold windows.getVSRegistryString. cbv zeta.
  apply returns_bindO; [apply returns_GetSystemRegistryString|].
  intros [found IDE]. destruct (_ || _).
  - apply returns_bindS; [|intros; apply returns_ret].
    apply logs_only_when, logs_only_logSearch.
  - apply returns_bindS; [|intros; apply returns_ret].
    apply logs_only_when, logs_only_logSearch.
Qed.

Lemma logs_only_getVSEnvironmentString VSVersion Path Verbose :
  logs_only (windows.getVSEnvironmentString host VSVersion Path Verbose).
Proof.
  unfold windows.getVSEnvironmentString. cbv zeta.
  destruct (host_getenv host _);
    (apply logs_only_bind; [|intros; apply logs_only_ret]);
    apply logs_only_when, logs_only_logSearch.
Qed.

Lemma returns_getVisualStudioVer VSVersion Path Verbose :
  logs_only_if_it_returns
    (windows.getVisualStudioVer env host VSVersion Path Verbose).
Proof.
  unfold windows.getVisualStudioVer.
  apply returns_bindO; [apply returns_getVSRegistryString|].
  intros r1. destruct r1.1; [apply returns_ret|].
  apply returns_bindO; [apply returns_getVSRegistryString|].
  intros r2. destruct r2.1; [apply returns_ret|].
  apply returns_bindS; [apply logs_only_getVSEnvironmentString|].
  intros r3. destruct r3.1; apply returns_ret.
Qed.

Lemma returns_try_versions Versions VSVersion Path Msg :
  logs_only_if_it_returns
    (windows.try_versions env host Versions VSVersion Path Msg).
Proof.
  revert Path. induction Versions as [|v Versions IH]; intros Path.
  - apply returns_ret.
  - cbn [windows.try_versions]. destruct (negb _); [|apply IH].
    apply returns_bindO; [apply returns_getVisualStudioVer|].
    intros r. destruct r.1; [apply returns_ret|apply IH].
Qed.

Lemma returns_GetVisualStudioDirs Path WinSDK UniversalSDK Verbose :
  logs_only_if_it_returns
    (windows.GetVisualStudioDirs env host Path WinSDK UniversalSDK Verbose).
Proof.
  unfold windows.GetVisualStudioDirs.
  apply returns_bindO.
  { destruct WinSDK as [sdk|]; [|apply returns_ret].
    apply returns_bindO; [apply returns_GetSystemRegistryString|].
    intros r. destruct (negb r.1); [|apply returns_ret].
    apply returns_bindS; [|intros; apply returns_ret].
    apply logs_only_when, logs_only_errs. }
  intros w. apply returns_bindO.
  { destruct UniversalSDK as [v|]; [|apply returns_ret].
    apply returns_bindO.
    - unfold windows.getUniversalCRTSdkDir.
      apply returns_bindO; [apply returns_GetSystemRegistryString|].
      intros r. destruct (negb r.1); apply returns_ret.
    - intros r. destruct (negb r.1); [|apply returns_ret].
      apply returns_bindS; [|intros; apply returns_ret].
      apply logs_only_when, logs_only_errs. }
  intros u. cbv zeta.
  apply returns_bindO; [apply returns_getVisualStudioVer|].
  intros r. destruct r.1; [apply returns_ret|].
  destruct (host_getenv host "VCINSTALLDIR").
  - apply returns_bindS; [|intros; apply returns_ret].
    apply logs_only_when, logs_only_errs.
  - apply returns_bindO; [apply returns_try_versions|].
    intros r'. apply returns_ret.
Qed.

(** X7. The searches close every registry key they open.  Whenever
    [GetSystemRegistryString] or [GetVisualStudioDirs] returns, true or
    false, the keys the process holds open are the ones it held before,
    and nothing else of the process has changed but the text written to
    [llvm::errs()]. *)
Theorem searches_close_the_keys_they_open
    (keyPath : string) (valueName : option string) (outValue Path : string)
    (WinSDK UniversalSDK : option string) (Verbose : bool) (s : Sys) :
  match (windows.GetSystemRegistryString env host keyPath valueName outValue s).1 with
  | Returned _ =>
      only_logs s
        (windows.GetSystemRegistryString env host keyPath valueName outValue s).2
  | Crashed => True
  end
  /\ match (windows.GetVisualStudioDirs env host Path WinSDK UniversalSDK Verbose s).1
     with
     | Returned _ =>
         only_logs s
           (windows.GetVisualStudioDirs env host Path WinSDK UniversalSDK Verbose s).2
     | Crashed => True
     end.
Proof.
  split.
  - apply (returns_GetSystemRegistryString keyPath valueName outValue s).
  - apply (returns_GetVisualStudioDirs Path WinSDK UniversalSDK Verbose s).
Qed.
End Registry.

(** ** Naming a key *)

Lemma strncmp_prefix lit s :
  Str.strncmp s lit (String.length lit) = true <-> exists rest, s = lit +:+ rest.
Proof.
  revert s. induction lit as [|c lit IH]; intros s.
  - split; [by exists s|done].
  - destruct s as [|x s]; cbn [String.length Str.strncmp].
    + split; [done|]. by intros [rest ?].
    + rewrite andb_true_iff, IH. split.
      * intros [->%Ascii.eqb_eq [rest ->]]. by exists rest.
      * intros [rest Hs]. rewrite str_app_cons in Hs. injection Hs as -> ->.
        split; [apply Ascii.eqb_refl|by exists rest].
Qed.

Lemma drop_app_length lit rest n :
  n = String.length lit -> Str.drop n (lit +:+ rest) = rest.
Proof.
  intros ->. induction lit as [|c lit IH]; [by destruct rest|]. by rewrite str_app_cons.
Qed.

Lemma strncmp_app lit rest n :
  n = String.length lit -> Str.strncmp (lit +:+ rest) lit n = true.
Proof. intros ->. apply strncmp_prefix. by exists rest. Qed.

Ltac parsed_cases rest :=
  destruct rest as [|?c ?rest]; [|destruct (Ascii.eqb _ kSep)]; try done;
  destruct (Str.strstr _ _); try done; by destruct (Str.empty _).

Section Naming.
Variable env : Env.
Variable host : Host.

(** X8. A key path has to start with the name of one of the four
    predefined keys the function knows, and the name has to be the whole
    path or be followed by a backslash: for any other path
    [GetSystemRegistryString] returns false without looking at the
    registry, and leaves [outValue] and the state as they are. *)
Theorem GetSystemRegistryString_rejects_other_roots
    (keyPath : string) (valueName : option string) (outValue : string) (s : Sys) :
  (forall r, keyPath <> root_name r) ->
  (forall r rest, keyPath <> root_name r +:+ String kSep rest) ->
  windows.GetSystemRegistryString env host keyPath valueName outValue s
  = (Returned (false, outValue), s).
Proof.
  intros Hwhole Hsub.
  assert (forall r rest, keyPath = root_name r +:+ rest ->
            match rest with
            | String c r' => if Ascii.eqb c kSep then Some r' else None
            | EmptyString => Some rest
            end = None) as Hrest.
  { intros r [|c rest] Hk.
    - rewrite str_app_nil_r in Hk. by destruct (Hwhole r).
    - destruct (Ascii.eqb c kSep) eqn:Hc; [|done].
      apply Ascii.eqb_eq in Hc as ->. by destruct (Hsub r rest). }
  unfold windows.GetSystemRegistryString. cbv zeta.
  destruct (Str.strncmp keyPath "HKEY_CLASSES_ROOT" 17) eqn:E1.
  { apply (strncmp_prefix "HKEY_CLASSES_ROOT") in E1 as [rest E].
    pose proof (Hrest HKEY_CLASSES_ROOT rest E) as Hr. subst keyPath.
    rewrite (drop_app_length "HKEY_CLASSES_ROOT" rest 17%nat eq_refl). by rewrite Hr. }
  destruct (Str.strncmp keyPath "HKEY_USERS" 10) eqn:E2.
  { apply (strncmp_prefix "HKEY_USERS") in E2 as [rest E].
    pose proof (Hrest HKEY_USERS rest E) as Hr. subst keyPath.
    rewrite (drop_app_length "HKEY_USERS" rest 10%nat eq_refl). by rewrite Hr. }
  destruct (Str.strncmp keyPath "HKEY_LOCAL_MACHINE" 18) eqn:E3.
  { apply (strncmp_prefix "HKEY_LOCAL_MACHINE") in E3 as [rest E].
    pose proof (Hrest HKEY_LOCAL_MACHINE rest E) as Hr. subst keyPath.
    rewrite (drop_app_length "HKEY_LOCAL_MACHINE" rest 18%nat eq_refl). by rewrite Hr. }
  destruct (Str.strncmp keyPath "HKEY_CURRENT_USER" 17) eqn:E4.
  { apply (strncmp_prefix "HKEY_CURRENT_USER") in E4 as [rest E].
    pose proof (Hrest HKEY_CURRENT_USER rest E) as Hr. subst keyPath.
    rewrite (drop_app_length "HKEY_CURRENT_USER" rest 17%nat eq_refl). by rewrite Hr. }
  done.
Qed.

(** The root and the sub-key the function reads from a path. *)
Lemma GetSystemRegistryString_parsed r rest valueName outValue s :
  windows.GetSystemRegistryString env host (root_name r +:+ rest) valueName outValue s
  = match match rest with
          | String c r' => if Ascii.eqb c kSep then Some r' else None
          | EmptyString => Some rest
          end with
    | None => (Returned (false, outValue), s)
    | Some subKey =>
        match Str.strstr subKey "$VERSION" with
        | Some placeHolder =>
            windows.version_search env host r subKey placeHolder valueName outValue s
        | None =>
            let '(subKey, valueName) :=
              if Str.empty subKey then (valueName, None)
              else (Some subKey, valueName) in
            bindS (Reg.RegOpenKeyExA host (Predefined r) subKey) (fun k =>
              match k with
              | Ok hKey =>
                  bindS (windows.readFullStringValue env host hKey valueName outValue)
                    (fun v => bindS (Reg.RegCloseKey hKey)
                                (fun _ => retS (Returned v)))
              | Fails lResult =>
                  bindS (in_os (platform.ReportError env lResult (Some "RegOpenKeyEx")))
                    (fun _ => retS (Returned (false, outValue)))
              end) s
        end
    end.
Proof.
  unfold windows.GetSystemRegistryString. cbv zeta.
  destruct r; cbn [root_name].
  - rewrite (strncmp_app "HKEY_CLASSES_ROOT" rest 17%nat eq_refl).
    rewrite (drop_app_length "HKEY_CLASSES_ROOT" rest 17%nat eq_refl). parsed_cases rest.
  - replace (Str.strncmp ("HKEY_USERS" +:+ rest) "HKEY_CLASSES_ROOT" 17) with false
      by done.
    rewrite (strncmp_app "HKEY_USERS" rest 10%nat eq_refl).
    rewrite (drop_app_length "HKEY_USERS" rest 10%nat eq_refl). parsed_cases rest.
  - replace (Str.strncmp ("HKEY_LOCAL_MACHINE" +:+ rest) "HKEY_CLASSES_ROOT" 17)
      with false by done.
    replace (Str.strncmp ("HKEY_LOCAL_MACHINE" +:+ rest) "HKEY_USERS" 10)
      with false by done.
    rewrite (strncmp_app "HKEY_LOCAL_MACHINE" rest 18%nat eq_refl).
    rewrite (drop_app_length "HKEY_LOCAL_MACHINE" rest 18%nat eq_refl). parsed_cases rest.
  - replace (Str.strncmp ("HKEY_CURRENT_USER" +:+ rest) "HKEY_CLASSES_ROOT" 17)
      with false by done.
    replace (Str.strncmp ("HKEY_CURRENT_USER" +:+ rest) "HKEY_USERS" 10)
      with false by done.
    replace (Str.strncmp ("HKEY_CURRENT_USER" +:+ rest) "HKEY_LOCAL_MACHINE" 18)
      with false by done.
    rewrite (strncmp_app "HKEY_CURRENT_USER" rest 17%nat eq_refl).
    rewrite (drop_app_length "HKEY_CURRENT_USER" rest 17%nat eq_refl). parsed_cases rest.
Qed.

(** X9. Given a predefined key alone, with or without a backslash after
    it, [GetSystemRegistryString] takes [valueName] for the name of the
    sub-key and reads the unnamed (default) value of that sub-key: the call
    does what a call with the sub-key in the path and no value name does. *)
Theorem GetSystemRegistryString_root_alone_reads_the_default_value
    (r : HKEY_root) (name outValue : string) (s : Sys) :
  name <> "" ->
  Str.strstr name "$VERSION" = None ->
  windows.GetSystemRegistryString env host (root_name r) (Some name) outValue s
  = windows.GetSystemRegistryString env host
      (root_name r +:+ String kSep name) None outValue s
  /\ windows.GetSystemRegistryString env host
       (root_name r +:+ String kSep "") (Some name) outValue s
     = windows.GetSystemRegistryString env host
         (root_name r +:+ String kSep name) None outValue s.
Proof.
  intros Hne Hno.
  rewrite <- (str_app_nil_r (root_name r)) at 1.
  rewrite !GetSystemRegistryString_parsed.
  rewrite Ascii.eqb_refl, Hno.
  destruct name as [|c name]; [done|]. cbn [Str.empty].
  change (Str.strstr "" "$VERSION") with (@None nat). cbn [Str.empty].
  done.
Qed.
End Naming.

Lemma GetSystemRegistryString_rejects_other_roots_witness :
  windows.GetSystemRegistryString quiet bare "HKLM\SOFTWARE\Microsoft" (Some "InstallDir")
    "unchanged" start
  = (Returned (false, "unchanged"), start).
Proof.
  apply (GetSystemRegistryString_rejects_other_roots quiet bare).
  - intros []; discriminate.
  - intros [] rest; discriminate.
Defined.

Lemma GetSystemRegistryString_root_alone_reads_the_default_value_witness :
  windows.GetSystemRegistryString quiet bare "HKEY_CLASSES_ROOT" (Some ".txt") "" start
  = windows.GetSystemRegistryString quiet bare "HKEY_CLASSES_ROOT\.txt" None "" start
  /\ windows.GetSystemRegistryString quiet bare "HKEY_CLASSES_ROOT\" (Some ".txt") "" start
     = windows.GetSystemRegistryString quiet bare "HKEY_CLASSES_ROOT\.txt" None "" start.
Proof.
  exact (GetSystemRegistryString_root_alone_reads_the_default_value quiet bare
           HKEY_CLASSES_ROOT ".txt" "" start ltac:(discriminate) eq_refl).
Defined.

(** ** Reading a value *)

Lemma pop_zeros_spec j text cap rounds :
  last text <> Some 0%N -> (j <= rounds)%nat ->
  windows.pop_zeros rounds (SmallVector.mk (text ++ replicate j 0%N) cap)
  = SmallVector.mk text cap.
Proof.
  intros Hlast. revert rounds. induction j as [|j IH]; intros rounds Hj.
  - rewrite app_nil_r. destruct rounds as [|rounds]; [done|].
    cbn [windows.pop_zeros]. cbn [SmallVector.elems].
    rewrite bool_decide_eq_false_2 by done. by rewrite andb_false_r.
  - destruct rounds as [|rounds]; [lia|]. cbn [windows.pop_zeros].
    unfold SmallVector.empty, SmallVector.size. cbn [SmallVector.elems SmallVector.capacity].
    rewrite replicate_S_end, app_assoc, last_snoc.
    rewrite bool_decide_eq_true_2 by done.
    destruct ((text ++ replicate j 0%N) ++ [0%N]) eqn:E.
    { by apply app_eq_nil in E as [_ ?]. }
    rewrite <- E. cbn [negb andb].
    replace (take _ _) with (text ++ replicate j 0%N).
    + apply IH. lia.
    + rewrite length_app. cbn [length].
      rewrite take_app_length'; [done|lia].
Qed.

Section Values.
Variable env : Env.
Variable host : Host.

(** X10. [readFullStringValue] returns a string value without the NUL
    characters the registry stores after it: for a value of type [REG_SZ]
    whose data is a text followed by any number of NULs, it returns the
    conversion of the text alone, and changes nothing.  The size reported
    by the first query may be larger than the data. *)
Theorem readFullStringValue_drops_the_terminators
    (hkey : HKEY) (valueName : option string) (value : string) (s : Sys)
    (p : RegPath) (W text : list N) (valueSize : N) (k : nat) :
  Reg.key_of hkey s = Some p ->
  match valueName with
  | Some name => host_ConvertUTF8toWide host name
  | None => Some []
  end = Some W ->
  host_RegQuerySize host p W = Ok (REG_SZ, valueSize) ->
  host_RegQueryData host p W = Ok (text ++ replicate k 0%N) ->
  last text <> Some 0%N ->
  (0 < valueSize)%N ->
  (2 * N.of_nat (length text + k) <= valueSize)%N ->
  windows.readFullStringValue env host hkey valueName value s
  = (host_convertWideToUTF8 host text, s).
Proof.
  intros Hkey HW Hsize Hdata Hlast Hpos Hfit.
  unfold windows.readFullStringValue. rewrite HW. cbv zeta.
  rewrite bindS_eq. unfold Reg.RegQueryValueExW_size. rewrite Hkey, Hsize.
  cbn [fst snd]. rewrite N.eqb_refl. cbn [negb orb].
  replace (valueSize =? 0)%N with false by (symmetry; apply N.eqb_neq; lia).
  rewrite bindS_eq. unfold Reg.RegQueryValueExW_data. rewrite Hkey, Hdata.
  rewrite length_app, length_replicate.
  replace (valueSize <? _)%N with false by (symmetry; apply N.ltb_ge; lia).
  cbn [fst snd].
  set (n := N.to_nat (valueSize / 2)).
  assert (length text + k <= n)%nat as Hn.
  { pose proof (N.div_le_lower_bound valueSize 2 (N.of_nat (length text + k))
                  ltac:(lia) Hfit) as Hq.
    unfold n. revert Hq. generalize (valueSize / 2)%N. intros q Hq. lia. }
  assert (SmallVector.store 0 (text ++ replicate k 0%N)
            (SmallVector.resize 0%N n (SmallVector.mk [] MAX_PATHC))
          = SmallVector.mk (text ++ replicate (n - length text) 0%N)
              (SmallVector.capacity
                 (SmallVector.resize 0%N n (SmallVector.mk [] MAX_PATHC)))) as ->.
  { unfold SmallVector.store. f_equal.
    assert (SmallVector.elems (SmallVector.resize 0%N n (SmallVector.mk [] MAX_PATHC))
            = replicate n 0%N) as He.
    { unfold SmallVector.resize, SmallVector.size. cbn [SmallVector.elems length].
      destruct n; [done|]. cbn. done. }
    unfold SmallVector.size. rewrite He, length_replicate.
    cbn [take app]. rewrite drop_replicate, length_app, length_replicate.
    rewrite <- app_assoc, <- replicate_add.
    replace (k + (n - (0 + (length text + k))))%nat with (n - length text)%nat by lia.
    apply take_ge. rewrite length_app, length_replicate. lia. }
  unfold SmallVector.size at 1. cbn [SmallVector.elems].
  rewrite pop_zeros_spec; [done|done|].
  rewrite length_app, length_replicate. lia.
Qed.
End Values.

Lemma readFullStringValue_drops_the_terminators_witness :
  windows.readFullStringValue quiet
    (with_value (HKEY_USERS, []) "Shell" (widen "cmd.exe" ++ [0; 0]%N))
    (Predefined HKEY_USERS) (Some "Shell") "" start
  = ((true, "cmd.exe"), start).
Proof.
  apply (readFullStringValue_drops_the_terminators quiet
           (with_value (HKEY_USERS, []) "Shell" (widen "cmd.exe" ++ [0; 0]%N))
           (Predefined HKEY_USERS) (Some "Shell") "" start
           (HKEY_USERS, []) (widen "Shell") (widen "cmd.exe") 18%N 2%nat);
    [reflexivity | reflexivity | reflexivity | reflexivity
    | vm_compute; discriminate | reflexivity | vm_compute; discriminate].
Defined.

(** ** Finding Visual Studio *)

Lemma bindO_Returned {A B} (m : MS (Outcome A)) (k : A -> MS (Outcome B)) s r :
  (bindO m k s).1 = Returned r ->
  exists a, (m s).1 = Returned a /\ (k a (m s).2).1 = Returned r.
Proof.
  unfold bindO. rewrite bindS_eq. destruct (m s).1 as [a|]; [|done].
  intros H. by exists a.
Qed.

Lemma fixupPath_stripped Path : Str.back (windows.fixupPath Path None) <> Some kSep.
Proof.
  unfold windows.fixupPath.
  by destruct (strip_separators_spec (String.length Path) Path) as (k & _ & H); [lia|].
Qed.

Section VisualStudio.
Variable env : Env.
Variable host : Host.

Lemma getVSRegistryString_false Product VSVersion Path Verbose s P :
  (windows.getVSRegistryString env host Product VSVersion Path Verbose s).1
  = Returned (false, P) ->
  P = Path.
Proof.
  unfold windows.getVSRegistryString. cbv zeta.
  intros ([found IDE] & _ & H)%bindO_Returned.
  destruct (negb found || Str.empty IDE); rewrite bindS_eq in H; cbn in H; congruence.
Qed.

Lemma getVSEnvironmentString_false VSVersion Path Verbose s P :
  (windows.getVSEnvironmentString host VSVersion Path Verbose s).1 = (false, P) ->
  P = Path.
Proof.
  unfold windows.getVSEnvironmentString. cbv zeta.
  destruct (host_getenv host _); rewrite bindS_eq; cbn; congruence.
Qed.

Lemma getVisualStudioVer_false VSVersion Path Verbose s P :
  (windows.getVisualStudioVer env host VSVersion Path Verbose s).1
  = Returned (false, P) ->
  P = Path.
Proof.
  unfold windows.getVisualStudioVer.
  intros ([b1 p1] & H1 & H)%bindO_Returned. cbn [fst snd] in H.
  destruct b1; [done|]. apply getVSRegistryString_false in H1 as ->.
  apply bindO_Returned in H as ([b2 p2] & H2 & H). cbn [fst snd] in H.
  destruct b2; [done|]. apply getVSRegistryString_false in H2 as ->.
  rewrite bindS_eq in H.
  destruct (windows.getVSEnvironmentString _ _ _ _ _).1 as [b3 p3] eqn:H3.
  cbn [fst snd] in H. destruct b3; [done|].
  apply getVSEnvironmentString_false in H3 as ->. cbn in H. congruence.
Qed.

Lemma try_versions_result Versions VSVersion Path Msg s b P :
  (windows.try_versions env host Versions VSVersion Path Msg s).1
  = Returned (b, P) ->
  if b then Str.back P <> Some kSep else P = Path.
Proof.
  revert Path s. induction Versions as [|v Versions IH]; intros Path s.
  - cbn. intros [= <- <-]. done.
  - cbn [windows.try_versions]. destruct (negb (v =? VSVersion)); [|apply IH].
    intros ([b1 p1] & H1 & H)%bindO_Returned. cbn [fst snd] in H.
    destruct b1.
    + cbn [retS fst snd] in H. injection H as <- <-. apply fixupPath_stripped.
    + apply getVisualStudioVer_false in H1 as ->. by apply IH in H.
Qed.

(** X11. When [GetVisualStudioDirs] returns false it leaves [Path] as it
    was given, and then the environment has no [VCINSTALLDIR]: a directory
    named there is always accepted. *)
Theorem GetVisualStudioDirs_failure_keeps_Path
    (Path : string) (WinSDK UniversalSDK : option string) (Verbose : bool)
    (s : Sys) (P : string) (w u : option string) :
  (windows.GetVisualStudioDirs env host Path WinSDK UniversalSDK Verbose s).1
  = Returned (false, P, w, u) ->
  P = Path /\ host_getenv host "VCINSTALLDIR" = None.
Proof.
  unfold windows.GetVisualStudioDirs.
  intros (w' & _ & H)%bindO_Returned.
  apply bindO_Returned in H as (u' & _ & H). cbv zeta in H.
  apply bindO_Returned in H as ([b p] & Hver & H). cbn [fst snd] in H.
  destruct b; [done|]. apply getVisualStudioVer_false in Hver as ->.
  destruct (host_getenv host "VCINSTALLDIR").
  { rewrite bindS_eq in H. done. }
  apply bindO_Returned in H as ([b p] & Htry & H). cbn in H.
  injection H as -> <- _ _. by apply try_versions_result in Htry.
Qed.

(** X12. Unless it is taken from [VCINSTALLDIR], the Visual Studio
    directory [GetVisualStudioDirs] returns does not end in a path
    separator; the Windows SDK directory never does; and the Universal CRT
    directory is empty or ends in [\ucrt]. *)
Theorem GetVisualStudioDirs_returns_clean_paths
    (Path : string) (WinSDK UniversalSDK : option string) (Verbose : bool)
    (s : Sys) (found : bool) (P : string) (w u : option string) :
  (windows.GetVisualStudioDirs env host Path WinSDK UniversalSDK Verbose s).1
  = Returned (found, P, w, u) ->
  (found = true -> host_getenv host "VCINSTALLDIR" = None ->
   Str.back P <> Some kSep)
  /\ (forall sdk, w = Some sdk -> Str.back sdk <> Some kSep)
  /\ (forall sdk, u = Some sdk ->
        sdk = "" \/ exists stem, sdk = stem +:+ "\ucrt").
Proof.
  unfold windows.GetVisualStudioDirs.
  intros (w' & Hw & H)%bindO_Returned.
  apply bindO_Returned in H as (u' & Hu & H). cbv zeta in H.
  assert (forall sdk, w' = Some sdk -> Str.back sdk <> Some kSep) as Hw'.
  { destruct WinSDK as [sdk0|]; [|by cbn [retS fst snd] in Hw; injection Hw as <-].
    apply bindO_Returned in Hw as ([b p] & _ & Hw). cbn [fst snd] in Hw.
    destruct b; cbn [negb] in Hw.
    - cbn [retS fst snd] in Hw. injection Hw as <-. intros sdk [= <-]. apply fixupPath_stripped.
    - rewrite bindS_eq in Hw. cbn [retS fst snd] in Hw. injection Hw as <-. by intros sdk [= <-]. }
  assert (forall sdk, u' = Some sdk ->
            sdk = "" \/ exists stem, sdk = stem +:+ "\ucrt") as Hu'.
  { destruct UniversalSDK as [v0|]; [|by cbn [retS fst snd] in Hu; injection Hu as <-].
    apply bindO_Returned in Hu as ([b [p v]] & _ & Hu). cbn [fst snd] in Hu.
    destruct b; cbn [negb] in Hu.
    - cbn [retS fst snd] in Hu. injection Hu as <-. intros sdk [= <-].
      unfold windows.fixupPath. destruct (Str.empty p) eqn:He; [left; by destruct p|right].
      case_bool_decide as Hb; cbn [negb].
      + exists (Str.pop_back p). rewrite (back_pop_back _ _ Hb) at 1.
        by rewrite str_app_assoc.
      + exists p. by rewrite str_app_assoc.
    - rewrite bindS_eq in Hu. cbn [retS fst snd] in Hu. injection Hu as <-. intros sdk [= <-].
      by left. }
  apply bindO_Returned in H as ([b p] & Hver & H). cbn [fst snd] in H.
  destruct b.
  { cbn [retS fst snd] in H. injection H as <- <- <- <-. split; [|done].
    intros _ _. apply fixupPath_stripped. }
  destruct (host_getenv host "VCINSTALLDIR") eqn:Henv.
  { rewrite bindS_eq in H. cbn [retS fst snd] in H. injection H as <- <- <- <-. by split. }
  apply bindO_Returned in H as ([b p'] & Htry & H). cbn [retS fst snd] in H.
  injection H as <- <- <- <-. split; [|done].
  intros -> _. by apply try_versions_result in Htry.
Qed.
End VisualStudio.

Lemma GetVisualStudioDirs_failure_keeps_Path_witness :
  "C:\given" = "C:\given" /\ host_getenv bare "VCINSTALLDIR" = None.
Proof.
  apply (GetVisualStudioDirs_failure_keeps_Path quiet bare "C:\given" None None false
           start "C:\given" None None).
  vm_compute. reflexivity.
Defined.

Lemma GetVisualStudioDirs_returns_clean_paths_witness :
  (true = true -> host_getenv vs2015 "VCINSTALLDIR" = None ->
   Str.back "C:\VS14" <> Some kSep)
  /\ (forall sdk, @None string = Some sdk -> Str.back sdk <> Some kSep)
  /\ (forall sdk, @None string = Some sdk ->
        sdk = "" \/ exists stem, sdk = stem +:+ "\ucrt").
Proof.
  apply (GetVisualStudioDirs_returns_clean_paths quiet vs2015 "" None None false
           start true "C:\VS14" None None).
  vm_compute. reflexivity.
Defined.

(** ** The system's library directories *)

Section SystemPaths.
Variable env : Env.
Variable host : Host.

(** X13. [GetSystemLibraryPaths] appends the system directory and then
    the Windows directory to [Paths], keeping what [Paths] held, and
    returns true exactly when the system knows both.  It does not undo a
    first step that worked: when only the Windows directory is unknown it
    returns false and yet leaves the system directory in [Paths].  In any
    case it changes nothing but the text written to [llvm::errs()]. *)
Theorem GetSystemLibraryPaths_keeps_what_it_found (Paths : list string) (s : Sys) :
  let system_dir :=
    host_SHGetFolderPath host (Z.lor CSIDL_FLAG_CREATE CSIDL_SYSTEM) in
  let windows_dir :=
    host_SHGetFolderPath host (Z.lor CSIDL_FLAG_CREATE CSIDL_WINDOWS) in
  let run := windows.GetSystemLibraryPaths env host Paths s in
  (run.1.1 = true <-> system_dir.1 = S_OK /\ windows_dir.1 = S_OK)
  /\ (run.1.1 = true -> run.1.2 = Paths ++ [system_dir.2; windows_dir.2])
  /\ (run.1.1 = false -> system_dir.1 = S_OK -> run.1.2 = Paths ++ [system_dir.2])
  /\ (run.1.1 = false -> system_dir.1 <> S_OK -> run.1.2 = Paths)
  /\ only_logs s run.2.
Proof.
  cbv zeta. unfold windows.GetSystemLibraryPaths.
  destruct (host_SHGetFolderPath host (Z.lor CSIDL_FLAG_CREATE CSIDL_SYSTEM))
    as [r1 b1].
  destruct (host_SHGetFolderPath host (Z.lor CSIDL_FLAG_CREATE CSIDL_WINDOWS))
    as [r2 b2].
  cbn [fst snd].
  destruct (r1 =? S_OK) eqn:E1; cbn [negb].
  - apply Z.eqb_eq in E1. destruct (r2 =? S_OK) eqn:E2; cbn [negb].
    + apply Z.eqb_eq in E2. cbn [retS fst snd].
      rewrite <- app_assoc. repeat split; try done. apply only_logs_refl.
    + apply Z.eqb_neq in E2. rewrite bindS_eq. cbn [retS fst snd].
      repeat split; try done; try (by intros [_ ?]).
      apply logs_only_ReportError.
  - apply Z.eqb_neq in E1. rewrite bindS_eq. cbn [retS fst snd].
    repeat split; try done; try (by intros [? _]).
    apply logs_only_ReportError.
Qed.
End SystemPaths.

(** ** The highest-version search *)

Section VersionSearch.
Variable env : Env.
Variable host : Host.
(** The conversion to UTF-8 accepts every text the registry holds. *)
Hypothesis convertible : forall w, (host_convertWideToUTF8 host w).1 = true.












Variable hTopKey : HKEY.
Variable top : RegPath.
Variable nextKey : string.
Variable valueName : option string.
Variable given : string.




Lemma key_of_only_logs s s' :
  only_logs s s' -> Reg.key_of hTopKey s' = Reg.key_of hTopKey s.
Proof.
  intros H. unfold Reg.key_of. destruct hTopKey; [done|].
  by rewrite (only_logs_keys _ _ H).
Qed.

End VersionSearch.

Section WindowsSDK.
Variable env : Env.
Variable host : Host.




End WindowsSDK.





(** What the sample [strtod] reads: the number a text starts with, as the
    nearest [double]; an exponent; hexadecimal notation; nothing. *)
Example strtod_reads_the_number_in_front :
  (libc.strtod "6.0A" == 6)%Q
  /\ (libc.strtod "7.1A" == 3996944669291315 # 562949953421312)%Q
  /\ (libc.strtod "10.0.10240.0" == 10)%Q
  /\ (libc.strtod "1e2" == 100)%Q
  /\ (libc.strtod "1e" == 1)%Q
  /\ (libc.strtod "0x1A" == 26)%Q
  /\ (libc.strtod "9007199254740993" == 9007199254740992)%Q
  /\ (libc.strtod "1e999" == libc.HUGE_VAL)%Q
  /\ (libc.strtod "4e-324" == 1 # 2 ^ 1074)%Q
  /\ (libc.strtod "" == 0)%Q.
Proof. vm_compute. repeat split; reflexivity. Qed.

(** On the sample machines: the sub-keys the search can use, and what it
    returns.  With [Help] between them the older SDK is returned, though
    the newer one is installed. *)
Example getWindowsSDKDir_on_the_samples :
  usable quiet two_sdks sdk_key "" (Some "InstallationFolder")
    (host_RegEnumKey two_sdks sdk_key)
  = [(libc.strtod "6.0A", "C:\SDK\6.0A\"); (libc.strtod "7.1A", "C:\SDK\7.1A\")]
  /\ (windows.getWindowsSDKDir quiet two_sdks "" start).1
     = Returned (true, "C:\SDK\7.1A\")
  /\ usable quiet sdks_around_help sdk_key "" (Some "InstallationFolder") ["v6.0A"]
     = [(libc.strtod "6.0A", "C:\SDK\6.0A\")]
  /\ (windows.getWindowsSDKDir quiet sdks_around_help "" start).1
     = Returned (true, "C:\SDK\6.0A\").
Proof. vm_compute. repeat split; reflexivity. Qed.

(** The sub-key with the SDK is there, and it is missed. *)
Example getWindowsSDKDir_misses_the_sdk_after_help :
  (windows.getWindowsSDKDir quiet sdk_after_help "" start).1 = Returned (false, "")
  /\ (windows.getWindowsSDKDir quiet (with_sdks ["v7.1A"] [("v7.1A", "C:\SDK\7.1A\")])
        "" start).1 = Returned (true, "C:\SDK\7.1A\").
Proof. vm_compute. split; reflexivity. Qed.

(** ** Where Visual Studio is looked for first *)

Ltac in_list := repeat (apply elem_of_cons; first [by left|right]).

Section Precedence.
Variable env : Env.
Variable host : Host.

Lemma readFullStringValue_found hkey valueName value s p :
  Reg.key_of hkey s = Some p ->
  (read_at env host p valueName).1 = true ->
  (windows.readFullStringValue env host hkey valueName value s).1
  = read_at env host p valueName.
Proof.
  intros Hkey. unfold read_at, windows.readFullStringValue.
  destruct (match valueName with Some _ => _ | None => _ end) as [W|]; [|done].
  rewrite !bindS_eq. unfold Reg.RegQueryValueExW_size.
  rewrite Hkey. cbn [Reg.key_of keys]. rewrite lookup_singleton_eq.
  destruct (host_RegQuerySize host p W) as [[type valueSize]|e]; cbn [fst snd].
  - destruct (_ || _); [done|].
    rewrite !bindS_eq. unfold Reg.RegQueryValueExW_data.
    rewrite Hkey. cbn [Reg.key_of keys]. rewrite lookup_singleton_eq.
    destruct (host_RegQueryData host p W) as [data|e]; cbn [fst snd].
    + destruct (_ <? _)%N; cbn [fst snd]; [|done].
      rewrite !bindS_eq. done.
    + rewrite !bindS_eq. done.
  - rewrite !bindS_eq. done.
Qed.

(** The versions [GetVisualStudioVersionCompiledWith] can return. *)
Lemma compiled_versions :
  1400 <= host_MSC_VER host < 1910 ->
  windows.GetVisualStudioVersionCompiledWith host ∈ [8; 9; 10; 11; 12; 14].
Proof.
  intros H. unfold windows.GetVisualStudioVersionCompiledWith. cbv zeta.
  destruct (host_MSC_VER host <? 1900) eqn:E.
  - apply Z.ltb_lt in E.
    assert (host_MSC_VER host / 100 = 14 \/ host_MSC_VER host / 100 = 15
            \/ host_MSC_VER host / 100 = 16 \/ host_MSC_VER host / 100 = 17
            \/ host_MSC_VER host / 100 = 18) as Hq
      by (Z.div_mod_to_equations; lia).
    destruct Hq as [->|[->|[->|[->| ->]]]]; cbn; in_list.
  - replace (host_MSC_VER host <? 1910) with true by (symmetry; apply Z.ltb_lt; lia).
    in_list.
Qed.

(** What [GetSystemRegistryString] does with the key of a version of
    Visual Studio. *)
Lemma GetSystemRegistryString_vs_key Product v valueName outValue s :
  Product ∈ ["VisualStudio"; "VCExpress"] ->
  v ∈ [8; 9; 10; 11; 12; 14] ->
  windows.GetSystemRegistryString env host
    ("HKEY_LOCAL_MACHINE\SOFTWARE\Microsoft\" +:+ Product +:+ "\"
       +:+ pretty v +:+ ".0") (Some valueName) outValue s
  = bindS (Reg.RegOpenKeyExA host (Predefined HKEY_LOCAL_MACHINE)
             (Some ("SOFTWARE\Microsoft\" +:+ Product +:+ "\" +:+ pretty v +:+ ".0")))
      (fun k =>
         match k with
         | Ok hKey =>
             bindS (windows.readFullStringValue env host hKey (Some valueName) outValue)
               (fun r => bindS (Reg.RegCloseKey hKey) (fun _ => retS (Returned r)))
         | Fails lResult =>
             bindS (in_os (platform.ReportError env lResult (Some "RegOpenKeyEx")))
               (fun _ => retS (Returned (false, outValue)))
         end) s.
Proof.
  intros HP Hv.
  repeat (apply elem_of_cons in HP as [->|HP]); [| |by apply elem_of_nil in HP];
    (repeat (apply elem_of_cons in Hv as [->|Hv]); [..|by apply elem_of_nil in Hv]);
    reflexivity.
Qed.

Lemma getVSRegistryString_found Product v Path Verbose s u dir :
  Product ∈ ["VisualStudio"; "VCExpress"] ->
  v ∈ [8; 9; 10; 11; 12; 14] ->
  host_RegOpenKey host (vs_key Product v) = Ok u ->
  read_at env host (vs_key Product v) (Some "InstallDir") = (true, dir) ->
  dir <> "" ->
  exists s',
    windows.getVSRegistryString env host Product v Path Verbose s
    = (Returned (true, windows.trimString (Str.c_str dir) "\Common7\IDE"), s')
    /\ only_logs s s'.
Proof.
  intros HP Hv Hopen Hread Hdir. unfold windows.getVSRegistryString. cbv zeta.
  unfold bindO. rewrite bindS_eq, (GetSystemRegistryString_vs_key _ _ _ _ _ HP Hv).
  rewrite bindS_eq. unfold Reg.RegOpenKeyExA. cbn [Reg.key_of app].
  fold (vs_key Product v). rewrite Hopen. cbn [fst snd].
  set (h := Win32.fresh_key (keys s)).
  rewrite !bindS_eq.
  rewrite (readFullStringValue_found (Opened h) (Some "InstallDir") "" _
             (vs_key Product v));
    [|cbn; apply lookup_insert_eq|by rewrite Hread].
  rewrite Hread. cbn [retS fst snd negb orb].
  replace (Str.empty dir) with false by (by destruct dir).
  rewrite bindS_eq. cbn [retS fst snd].
  eexists. split; [reflexivity|].
  eapply only_logs_trans; [|apply logs_only_when, logs_only_logSearch].
  eapply RegCloseKey_restores; [apply fresh_key_lookup|].
  apply logs_only_readFullStringValue.
Qed.

Lemma getVSRegistryString_not_registered Product v Path Verbose s e :
  Product ∈ ["VisualStudio"; "VCExpress"] ->
  v ∈ [8; 9; 10; 11; 12; 14] ->
  host_RegOpenKey host (vs_key Product v) = Fails e ->
  exists s',
    windows.getVSRegistryString env host Product v Path Verbose s
    = (Returned (false, Path), s')
    /\ only_logs s s'.
Proof.
  intros HP Hv Hopen. unfold windows.getVSRegistryString. cbv zeta.
  unfold bindO. rewrite bindS_eq, (GetSystemRegistryString_vs_key _ _ _ _ _ HP Hv).
  rewrite bindS_eq. unfold Reg.RegOpenKeyExA. cbn [Reg.key_of app].
  fold (vs_key Product v). rewrite Hopen. cbn [fst snd].
  rewrite !bindS_eq. cbn [retS fst snd negb orb].
  rewrite bindS_eq. cbn [retS fst snd].
  eexists. split; [reflexivity|].
  eapply only_logs_trans; [|apply logs_only_when, logs_only_logSearch].
  apply logs_only_ReportError.
Qed.

(** The three places a version is looked for, in their order. *)
Lemma getVisualStudioVer_registered v Path Verbose s u dir :
  v ∈ [8; 9; 10; 11; 12; 14] ->
  host_RegOpenKey host (vs_key "VisualStudio" v) = Ok u ->
  read_at env host (vs_key "VisualStudio" v) (Some "InstallDir") = (true, dir) ->
  dir <> "" ->
  exists s',
    windows.getVisualStudioVer env host v Path Verbose s
    = (Returned (true, windows.trimString (Str.c_str dir) "\Common7\IDE"), s')
    /\ only_logs s s'.
Proof.
  intros Hv Hopen Hread Hdir.
  destruct (getVSRegistryString_found "VisualStudio" v Path Verbose s u dir)
    as (s' & Hrun & Hlog); try done; [in_list|].
  exists s'. split; [|done].
  unfold windows.getVisualStudioVer, bindO. rewrite bindS_eq, Hrun. done.
Qed.

Lemma getVisualStudioVer_unregistered v Path Verbose s e1 e2 :
  v ∈ [8; 9; 10; 11; 12; 14] ->
  host_RegOpenKey host (vs_key "VisualStudio" v) = Fails e1 ->
  host_RegOpenKey host (vs_key "VCExpress" v) = Fails e2 ->
  exists s',
    windows.getVisualStudioVer env host v Path Verbose s
    = (Returned
         match host_getenv host ("VS" +:+ pretty (v * 10) +:+ "COMNTOOLS") with
         | Some Tools => (true, windows.trimString Tools "\Common7\Tools")
         | None => (false, Path)
         end, s')
    /\ only_logs s s'.
Proof.
  intros Hv H1 H2.
  destruct (getVSRegistryString_not_registered "VisualStudio" v Path Verbose s e1)
    as (s1 & Hrun1 & Hlog1); try done; [in_list|].
  destruct (getVSRegistryString_not_registered "VCExpress" v Path Verbose s1 e2)
    as (s2 & Hrun2 & Hlog2); try done; [in_list|].
  unfold windows.getVisualStudioVer, bindO.
  rewrite bindS_eq, Hrun1. cbn [fst snd]. rewrite bindS_eq, Hrun2. cbn [fst snd].
  rewrite bindS_eq. unfold windows.getVSEnvironmentString. cbv zeta.
  destruct (host_getenv host _) as [Tools|]; rewrite bindS_eq; cbn [retS fst snd];
    (eexists; split; [reflexivity|]);
    (eapply only_logs_trans; [by eapply only_logs_trans|]);
    apply logs_only_when, logs_only_logSearch.
Qed.

(** The end of [GetVisualStudioDirs], once the version compiled with has
    been looked for. *)
Lemma GetVisualStudioDirs_found Path WinSDK UniversalSDK Verbose s dirs :
  (forall Msg s1, exists s2,
     windows.getVisualStudioVer env host
       (windows.GetVisualStudioVersionCompiledWith host) Path Msg s1
     = (Returned (true, dirs), s2) /\ only_logs s1 s2) ->
  (forall found P w u,
     (windows.GetVisualStudioDirs env host Path WinSDK UniversalSDK Verbose s).1
     = Returned (found, P, w, u) ->
     found = true /\ P = windows.fixupPath dirs None)
  /\ exists s',
       windows.GetVisualStudioDirs env host Path None None Verbose s
       = (Returned (true, windows.fixupPath dirs None, None, None), s')
       /\ only_logs s s'.
Proof.
  intros Hver. split.
  - intros found P w u H. unfold windows.GetVisualStudioDirs in H.
    apply bindO_Returned in H as (w' & _ & H).
    apply bindO_Returned in H as (u' & _ & H). cbv zeta in H.
    apply bindO_Returned in H as (r & Hr & H).
    match type of Hr with (_ _ _ _ _ ?Msg ?s1).1 = _ =>
      destruct (Hver Msg s1) as (s2 & Hrun & _) end.
    rewrite Hrun in Hr. injection Hr as <-. cbn [retS fst snd] in H.
    by injection H as <- <- _ _.
  - destruct (Hver (if Verbose then Some "compiled" else None) s)
      as (s' & Hrun & Hlog).
    exists s'. split; [|done]. unfold windows.GetVisualStudioDirs, bindO.
    repeat (rewrite bindS_eq; cbn [retS fst snd]).
    rewrite Hrun. done.
Qed.

(** X16. Visual Studio is looked for in the registry first.  If the
    version the file was compiled with is registered, with a non-empty
    [InstallDir], then [GetVisualStudioDirs], whenever it returns, returns
    true and that directory, cut at [\Common7\IDE] and without separators
    at its end, whatever the environment variables say; and asked for no
    SDK it does return. *)
Theorem GetVisualStudioDirs_reads_the_registry_first
    (Path : string) (WinSDK UniversalSDK : option string) (Verbose : bool)
    (s : Sys) (u : unit) (dir : string) :
  let VSVersion := windows.GetVisualStudioVersionCompiledWith host in
  let found_dir :=
    windows.fixupPath (windows.trimString (Str.c_str dir) "\Common7\IDE") None in
  1400 <= host_MSC_VER host < 1910 ->
  host_RegOpenKey host (vs_key "VisualStudio" VSVersion) = Ok u ->
  read_at env host (vs_key "VisualStudio" VSVersion) (Some "InstallDir")
  = (true, dir) ->
  dir <> "" ->
  (forall found P w u',
     (windows.GetVisualStudioDirs env host Path WinSDK UniversalSDK Verbose s).1
     = Returned (found, P, w, u') ->
     found = true /\ P = found_dir)
  /\ exists s',
       windows.GetVisualStudioDirs env host Path None None Verbose s
       = (Returned (true, found_dir, None, None), s')
       /\ only_logs s s'.
Proof.
  intros VSVersion found_dir Hver Hopen Hread Hdir.
  apply GetVisualStudioDirs_found. intros Msg s1.
  apply (getVisualStudioVer_registered _ _ _ _ u dir); try done.
  by apply compiled_versions.
Qed.

(** X17. [VCINSTALLDIR] comes after the version the file was compiled
    with, and before every other version.  If that version is not
    registered, neither as Visual Studio nor as the Express edition, and
    its [COMNTOOLS] variable is not set, but [VCINSTALLDIR] is, then
    [GetVisualStudioDirs], whenever it returns, returns true and that
    directory cut at its first [\VC], with the separators it may end in
    left in place; and asked for no SDK it does return. *)
Theorem GetVisualStudioDirs_falls_back_to_VCINSTALLDIR
    (Path : string) (WinSDK UniversalSDK : option string) (Verbose : bool)
    (s : Sys) (e1 e2 : N) (VCInstall : string) :
  let VSVersion := windows.GetVisualStudioVersionCompiledWith host in
  1400 <= host_MSC_VER host < 1910 ->
  host_RegOpenKey host (vs_key "VisualStudio" VSVersion) = Fails e1 ->
  host_RegOpenKey host (vs_key "VCExpress" VSVersion) = Fails e2 ->
  host_getenv host ("VS" +:+ pretty (VSVersion * 10) +:+ "COMNTOOLS") = None ->
  host_getenv host "VCINSTALLDIR" = Some VCInstall ->
  (forall found P w u,
     (windows.GetVisualStudioDirs env host Path WinSDK UniversalSDK Verbose s).1
     = Returned (found, P, w, u) ->
     found = true /\ P = windows.trimString VCInstall "\VC")
  /\ exists s',
       windows.GetVisualStudioDirs env host Path None None Verbose s
       = (Returned (true, windows.trimString VCInstall "\VC", None, None), s')
       /\ only_logs s s'.
Proof.
  intros VSVersion Hver H1 H2 Henv HVC.
  pose proof (compiled_versions Hver) as Hv. fold VSVersion in Hv.
  assert (forall Msg s1, exists s2,
            windows.getVisualStudioVer env host VSVersion Path Msg s1
            = (Returned (false, Path), s2) /\ only_logs s1 s2) as Hnot.
  { intros Msg s1.
    destruct (getVisualStudioVer_unregistered VSVersion Path Msg s1 e1 e2)
      as (s2 & Hrun & Hlog); try done.
    rewrite Henv in Hrun. by exists s2. }
  split.
  - intros found P w u H. unfold windows.GetVisualStudioDirs in H.
    apply bindO_Returned in H as (w' & _ & H).
    apply bindO_Returned in H as (u' & _ & H). cbv zeta in H.
    apply bindO_Returned in H as (r & Hr & H). fold VSVersion in Hr.
    match type of Hr with (_ _ _ _ _ ?Msg ?s1).1 = _ =>
      destruct (Hnot Msg s1) as (s2 & Hrun & _) end.
    rewrite Hrun in Hr. injection Hr as <-. cbn [retS fst snd] in H.
    rewrite HVC, bindS_eq in H. cbn [retS fst snd] in H.
    by injection H as <- <- _ _.
  - destruct (Hnot (if Verbose then Some "compiled" else None) s)
      as (s' & Hrun & Hlog).
    eexists. split.
    + unfold windows.GetVisualStudioDirs, bindO.
      repeat (rewrite bindS_eq; cbn [retS fst snd]). fold VSVersion.
      rewrite Hrun. cbn [retS fst snd]. rewrite HVC, bindS_eq. reflexivity.
    + eapply only_logs_trans; [done|]. apply logs_only_when, logs_only_errs.
Qed.

(** X18. The [COMNTOOLS] variable of the version the file was compiled
    with comes before [VCINSTALLDIR].  If that version is not registered
    but its variable [VS<version>0COMNTOOLS] is set, [GetVisualStudioDirs],
    whenever it returns, returns true and the value of the variable, cut
    at [\Common7\Tools] and without separators at its end, whether
    [VCINSTALLDIR] is set or not; and asked for no SDK it does return. *)
Theorem GetVisualStudioDirs_prefers_COMNTOOLS_to_VCINSTALLDIR
    (Path : string) (WinSDK UniversalSDK : option string) (Verbose : bool)
    (s : Sys) (e1 e2 : N) (Tools : string) :
  let VSVersion := windows.GetVisualStudioVersionCompiledWith host in
  let found_dir :=
    windows.fixupPath (windows.trimString Tools "\Common7\Tools") None in
  1400 <= host_MSC_VER host < 1910 ->
  host_RegOpenKey host (vs_key "VisualStudio" VSVersion) = Fails e1 ->
  host_RegOpenKey host (vs_key "VCExpress" VSVersion) = Fails e2 ->
  host_getenv host ("VS" +:+ pretty (VSVersion * 10) +:+ "COMNTOOLS") = Some Tools ->
  (forall found P w u,
     (windows.GetVisualStudioDirs env host Path WinSDK UniversalSDK Verbose s).1
     = Returned (found, P, w, u) ->
     found = true /\ P = found_dir)
  /\ exists s',
       windows.GetVisualStudioDirs env host Path None None Verbose s
       = (Returned (true, found_dir, None, None), s')
       /\ only_logs s s'.
Proof.
  intros VSVersion found_dir Hver H1 H2 Henv.
  pose proof (compiled_versions Hver) as Hv. fold VSVersion in Hv.
  apply GetVisualStudioDirs_found. intros Msg s1. fold VSVersion.
  destruct (getVisualStudioVer_unregistered VSVersion Path Msg s1 e1 e2)
    as (s2 & Hrun & Hlog); try done.
  rewrite Henv in Hrun. by exists s2.
Qed.
End Precedence.


Lemma GetVisualStudioDirs_reads_the_registry_first_witness :
  (forall found P w u',
     (windows.GetVisualStudioDirs quiet vs2015 "" (Some "") (Some "") true start).1
     = Returned (found, P, w, u') ->
     found = true
     /\ P = windows.fixupPath
              (windows.trimString (Str.c_str "C:\VS14\Common7\IDE\") "\Common7\IDE")
              None)
  /\ exists s',
       windows.GetVisualStudioDirs quiet vs2015 "" None None true start
       = (Returned
            (true,
             windows.fixupPath
               (windows.trimString (Str.c_str "C:\VS14\Common7\IDE\") "\Common7\IDE")
               None,
             None, None), s')
       /\ only_logs start s'.
Proof.
  apply (GetVisualStudioDirs_reads_the_registry_first quiet vs2015 "" (Some "")
           (Some "") true start tt "C:\VS14\Common7\IDE\");
    [simpl; lia | reflexivity | reflexivity | discriminate].
Defined.

Lemma GetVisualStudioDirs_falls_back_to_VCINSTALLDIR_witness :
  (forall found P w u,
     (windows.GetVisualStudioDirs quiet vc_prompt "" (Some "") (Some "") false start).1
     = Returned (found, P, w, u) ->
     found = true /\ P = windows.trimString "C:\VS\VC\" "\VC")
  /\ exists s',
       windows.GetVisualStudioDirs quiet vc_prompt "" None None false start
       = (Returned (true, windows.trimString "C:\VS\VC\" "\VC", None, None), s')
       /\ only_logs start s'.
Proof.
  apply (GetVisualStudioDirs_falls_back_to_VCINSTALLDIR quiet vc_prompt ""
           (Some "") (Some "") false start 2%N 2%N "C:\VS\VC\");
    [simpl; lia | reflexivity | reflexivity | reflexivity | reflexivity].
Defined.

Lemma GetVisualStudioDirs_prefers_COMNTOOLS_to_VCINSTALLDIR_witness :
  (forall found P w u,
     (windows.GetVisualStudioDirs quiet vs_shell "" (Some "") (Some "") false start).1
     = Returned (found, P, w, u) ->
     found = true
     /\ P = windows.fixupPath
              (windows.trimString "C:\VS14\Common7\Tools\" "\Common7\Tools") None)
  /\ exists s',
       windows.GetVisualStudioDirs quiet vs_shell "" None None false start
       = (Returned
            (true,
             windows.fixupPath
               (windows.trimString "C:\VS14\Common7\Tools\" "\Common7\Tools") None,
             None, None), s')
       /\ only_logs start s'.
Proof.
  apply (GetVisualStudioDirs_prefers_COMNTOOLS_to_VCINSTALLDIR quiet vs_shell ""
           (Some "") (Some "") false start 2%N 2%N "C:\VS14\Common7\Tools\");
    [simpl; lia | reflexivity | reflexivity | reflexivity].
Defined.

(** ** The fuel of the search loop *)

Section Fuel.
Variable env : Env.
Variable host : Host.

(** More fuel than sub-keys left changes nothing: the loop ends because
    [RegEnumKeyExA] fails, and not because the fuel is used up. *)
Lemma enum_loop_fuel_suffices hTopKey nextKey valueName fuel extra :
  forall index size bestValue returnValue outValue s,
    (forall p, Reg.key_of hTopKey s = Some p ->
               (length (host_RegEnumKey host p) < index + fuel)%nat) ->
    windows.enum_loop env host (fuel + extra) hTopKey nextKey valueName index size
      bestValue returnValue outValue s
    = windows.enum_loop env host fuel hTopKey nextKey valueName index size
        bestValue returnValue outValue s.
Proof.
  induction fuel as [|fuel IH]; intros index size bestValue returnValue outValue s Hlen.
  - cbn [Nat.add]. destruct extra as [|extra]; [done|].
    cbn [windows.enum_loop]. rewrite bindS_eq, RegEnumKeyExA_state.
    unfold Reg.RegEnumKeyExA.
    destruct (Reg.key_of hTopKey s) as [p|] eqn:Hkey; [|done].
    specialize (Hlen p eq_refl). rewrite lookup_ge_None_2 by lia. done.
  - cbn [Nat.add windows.enum_loop]. rewrite !bindS_eq, !RegEnumKeyExA_state.
    destruct (Reg.RegEnumKeyExA host hTopKey index size s).1 as [keyName|e]; [|done].
    assert (forall s',
              only_logs s s' ->
              forall p, Reg.key_of hTopKey s' = Some p ->
                        (length (host_RegEnumKey host p) < S index + fuel)%nat) as Hnext.
    { intros s' Hs' p Hp. rewrite (key_of_only_logs hTopKey _ _ Hs') in Hp.
      specialize (Hlen p Hp). lia. }
    destruct (windows.skip_to_digit keyName) as [[|d ep]|]; [| |done].
    { apply IH. apply Hnext, only_logs_refl. }
    destruct (windows.skip_number ep); [|done].
    destruct (windows.greater _ _); [|apply IH; apply Hnext, only_logs_refl].
    destruct (_ <? _)%nat; [done|].
    rewrite !bindS_eq.
    destruct (RegOpenKeyExA_cases host hTopKey (Some (keyName +:+ nextKey)) s)
      as [[e ->]|(h & p & -> & Hh)]; cbn [fst snd];
      [apply IH; apply Hnext, only_logs_refl|].
    rewrite !bindS_eq. apply IH. apply Hnext.
    eapply RegCloseKey_restores; [done|]. apply logs_only_readFullStringValue.
Qed.
End Fuel.

(** ** Edges of the symbol search and of the runner *)



(** X20. With a buffer that has no capacity [Popen] reads nothing: the
    chunk it asks [ReadFile] for is the capacity of the buffer, a read of
    zero bytes ends the loop, and the call returns false and an empty
    buffer whatever the child writes. *)
Theorem Popen_reads_nothing_without_capacity
    (env : Env) (Cmd : string) (Buf : SmallVector.t byte) (RdE : bool) (s : OS) :
  SmallVector.capacity Buf = 0%nat ->
  exists out s',
    platform.Popen env Cmd Buf RdE s = (Some (false, out), s')
    /\ SmallVector.elems out = []
    /\ handles s' = handles s.
Proof.
  intros Hcap.
  destruct (Popen_runs env Cmd Buf RdE s)
    as (out & tr & s' & Hrun & Hh & _ & _ & _ & Hpath).
  assert (SmallVector.elems out = []) as Hout.
  { rewrite Hcap in Hpath. by inversion Hpath. }
  exists out, s'. rewrite Hrun. unfold SmallVector.empty. rewrite Hout. done.
Qed.

Lemma Popen_reads_nothing_without_capacity_witness :
  exists out s',
    platform.Popen (talking eleven_bytes) "cmd" (SmallVector.mk [] 0) false boot
    = (Some (false, out), s')
    /\ SmallVector.elems out = []
    /\ handles s' = handles boot.
Proof.
  apply (Popen_reads_nothing_without_capacity (talking eleven_bytes) "cmd"
           (SmallVector.mk [] 0) false boot).
  reflexivity.
Defined.
